(** * StatsPanel: the stat registry of the Pixel Streaming stats panel

    A shallow embedding of [Frontend/ui-library/src/UI/StatsPanel.ts]:
    the [statsMap] registry, [addOrUpdateStat], and the three handlers
    [handlePlayerCount], [handleStats] and [handleLatencyInfo] that feed it.

    JavaScript numbers are IEEE 754 binary64 values, modelled by
    [spec_float]; a JavaScript [Map] is an association list in insertion
    order; DOM elements live in a heap indexed by handles, so that the
    element stored in a [Stat] and the child of the results container are
    one and the same object. The telemetry is taken as typed: a numeric
    property holds a Number or is absent. Logging is left out. *)

From Stdlib Require Import ZArith String List Bool Lia.
From Stdlib Require Import Floats.SpecFloat.
From stdpp Require Import base option list strings gmap pretty.

Local Open Scope string_scope.
Local Open Scope list_scope.
Local Open Scope Z_scope.

(** ** The fragment of JavaScript the panel relies on *)

Module JS.

(** A Number: binary64, round to nearest even. *)
Definition number := spec_float.
Definition prec : Z := 53.
Definition emax : Z := 1024.

(** An integer literal such as [1000]. *)
Definition lit (k : Z) : number := binary_normalize prec emax k 0 false.

(** [x * y]. *)
Definition mul (x y : number) : number := SFmul prec emax x y.

(** [x > 0]. *)
Definition gt0 (x : number) : bool := SFltb (S754_zero false) x.

(** [Number.isNaN(x)]. *)
Definition Number_isNaN (x : number) : bool :=
  match x with S754_nan => true | _ => false end.

(** ToBoolean on a Number: [0], [-0] and [NaN] are falsy. *)
Definition truthy (x : number) : bool :=
  match x with
  | S754_zero _ | S754_nan => false
  | _ => true
  end.

(** ToBoolean on an optional property: [undefined] is falsy. *)
Definition truthy_prop (o : option number) : bool :=
  match o with Some x => truthy x | None => false end.

(** ToBoolean on an optional string property: [undefined] and the empty
    string are falsy. *)
Definition truthy_str (o : option string) : bool :=
  match o with
  | Some s => negb (String.eqb s "")
  | None => false
  end.

(** The mathematical ceiling of a finite Number. *)
Definition ceilZ (x : number) : option Z :=
  match x with
  | S754_zero _ => Some 0
  | S754_finite s m e =>
      if 0 <=? e then Some (cond_Zopp s (Zpos m * 2 ^ e))
      else
        let d := 2 ^ (- e) in
        let q := Zpos m / d in
        Some (if s then - q else if Zpos m mod d =? 0 then q else q + 1)
  | _ => None
  end.

(** [Math.ceil(x)]: NaN, the infinities, the zeros and the integers are
    returned as they are; a value in (-1, 0) gives [-0]. *)
Definition Math_ceil (x : number) : number :=
  match x with
  | S754_finite s m e =>
      if 0 <=? e then x
      else
        match ceilZ x with
        | Some 0 => S754_zero s
        | Some k => lit k
        | None => x
        end
  | _ => x
  end.

(** [Some n] when the Number is the integer [n]. *)
Definition integer_value (x : number) : option Z :=
  match x with
  | S754_zero _ => Some 0
  | S754_finite s m e =>
      if 0 <=? e then Some (cond_Zopp s (Zpos m * 2 ^ e))
      else if Zpos m mod 2 ^ (- e) =? 0
           then Some (cond_Zopp s (Zpos m / 2 ^ (- e)))
           else None
  | _ => None
  end.

(** The safe integers: below [2^53] in magnitude, the shortest decimal
    that reads back as the Number is the integer's own decimal. *)
Definition safe_integer (n : Z) : bool := Z.abs n <? 2 ^ 53.

(** [String.prototype.replace(pattern, replacement)] with a string
    pattern: the first occurrence is replaced, wherever it is. *)
Fixpoint String_replace (pattern replacement s : string) : string :=
  if String.prefix pattern s
  then replacement +:+ String.substring (String.length pattern)
                        (String.length s - String.length pattern)%nat s
  else match s with
       | EmptyString => EmptyString
       | String c s' => String c (String_replace pattern replacement s')
       end.

(** The pattern occurs in [s] between [before] and [after], and nowhere
    earlier. *)
Definition occurs_first (pattern before after s : string) : Prop :=
  s = before +:+ pattern +:+ after /\
  forall a b, s = a +:+ pattern +:+ b ->
              (String.length before <= String.length a)%nat.

(** [String.prototype.startsWith]. *)
Definition startsWith (s pattern : string) : bool := String.prefix pattern s.

(** A value interpolated in a template literal: [undefined] prints as
    the word. *)
Definition interpolate (v : option string) : string :=
  match v with Some s => s | None => "undefined" end.

End JS.

Import JS.

(** What the browser provides and the model leaves open. *)
Class Browser := {
  (** The digits of [Number.prototype.toString] for a Number that is not
      a safe integer (fractions, exponents). *)
  Number_digits : number -> string;
  (** [new Intl.NumberFormat(window.navigator.language,
      { maximumFractionDigits: 0 }).format]. *)
  numberFormat_format : number -> string
}.

(** [x.toString()] on a Number. *)
Definition Number_toString {browser : Browser} (x : number) : string :=
  match x with
  | S754_nan => "NaN"
  | S754_infinity false => "Infinity"
  | S754_infinity true => "-Infinity"
  | _ =>
      match integer_value x with
      | Some n => if safe_integer n then pretty n else Number_digits x
      | None => Number_digits x
      end
  end.

(** ** What the panel imports *)

(** The sections of [./UIConfigurationTypes]. *)
Inductive StatsSections := SessionStats | LatencyTest | DataChannelLatencyTest.

(** The imports whose code is outside this file: the configuration type
    and [isSectionEnabled] of [./UIConfigurationTypes],
    [MathUtils.formatBytes] of [../Util/MathUtils], and
    [AggregatedStats.isNumber] of the frontend library. *)
Class Imports := {
  StatsPanelConfiguration : Type;
  isSectionEnabled : StatsPanelConfiguration -> StatsSections -> bool;
  formatBytes : option number -> Z -> string;
  isNumber : number -> bool
}.

(** ** The telemetry the handlers read

    A property is [None] when the object has no own property of that
    name, and [Some x] when it has one holding [x]. *)

Record InboundRTPStats := {
  bytesReceived : option number;
  packetsLost : option number;
  bitrate : option number;
  frameWidth : option number;
  frameHeight : option number;
  framesDecoded : option number;
  framesPerSecond : option number;
  framesDropped : option number;
  codecId : option string
}.

Record CodecStats := { mimeType : string }.

Record CandidatePairStats := { currentRoundTripTime : option number }.

(** [new CandidatePairStats()]. *)
Definition new_CandidatePairStats : CandidatePairStats :=
  {| currentRoundTripTime := None |}.

Record SessionStatsData := {
  runTime : string;
  controlsStreamInput : string;
  videoEncoderAvgQP : option number
}.

Record AggregatedStats := {
  inboundVideoStats : InboundRTPStats;
  inboundAudioStats : InboundRTPStats;
  codecs : gmap string CodecStats;
  (** the result of [getActiveCandidatePair()], [None] for [null] *)
  getActiveCandidatePair : option CandidatePairStats;
  sessionStats : SessionStatsData
}.

Record LatencyInfo := {
  SenderLatencyMs : option number;
  AverageAssemblyDelayMs : option number;
  AverageDecodeLatencyMs : option number;
  AverageJitterBufferDelayMs : option number;
  AverageProcessingDelayMs : option number;
  AverageE2ELatency : option number
}.

(** ** The DOM heap *)

Definition handle := nat.

(** An element: its [id], its class list, its [innerHTML] (kept as the
    string that was assigned, with no parsing), and its children. *)
Record HTMLElement := {
  el_id : string;
  classList : list string;
  innerHTML : string;
  childNodes : list handle
}.

Definition new_div : HTMLElement :=
  {| el_id := ""; classList := []; innerHTML := ""; childNodes := [] |}.

(** ** A JavaScript [Map] with string keys, in insertion order *)

Section JsMap.
Context {V : Type}.

Fixpoint Map_get (m : list (string * V)) (k : string) : option V :=
  match m with
  | [] => None
  | (k', v) :: m' => if String.eqb k' k then Some v else Map_get m' k
  end.

Definition Map_has (m : list (string * V)) (k : string) : bool :=
  match Map_get m k with Some _ => true | None => false end.

(** [set] keeps the position of a key that is already there and appends
    a new one. *)
Fixpoint Map_set (m : list (string * V)) (k : string) (v : V)
  : list (string * V) :=
  match m with
  | [] => [(k, v)]
  | (k', v') :: m' =>
      if String.eqb k' k then (k', v) :: m'
      else (k', v') :: Map_set m' k v
  end.

(** The keys in iteration order. *)
Definition Map_keys (m : list (string * V)) : list string := map fst m.
End JsMap.

(** ** The panel *)

(** A stat structure: an id, the stat string, and (the handle of) the
    element where it is rendered. The stat string is whatever the caller
    passed, [None] for [undefined]. *)
Record Stat := {
  id : string;
  title : string;
  stat : option string;
  element : handle
}.

Section Panel.
Context {browser : Browser} {imports : Imports}.

(** The fields of [StatsPanel] the handlers touch, together with the
    document the panel's elements live in. *)
Record StatsPanel := {
  _config : StatsPanelConfiguration;
  _statsResult : option handle;
  statsMap : list (string * Stat);
  document : list HTMLElement
}.

(** [new StatsPanel(config)], in a document [doc]. *)
Definition constructor (config : StatsPanelConfiguration)
    (doc : list HTMLElement) : StatsPanel :=
  {| _config := config; _statsResult := None; statsMap := [];
     document := doc |}.

Definition with_document (doc : list HTMLElement) (this : StatsPanel) :=
  {| _config := _config this; _statsResult := _statsResult this;
     statsMap := statsMap this; document := doc |}.

Definition with_statsMap (m : list (string * Stat)) (this : StatsPanel) :=
  {| _config := _config this; _statsResult := _statsResult this;
     statsMap := m; document := document this |}.

Definition with_statsResult (h : handle) (this : StatsPanel) :=
  {| _config := _config this; _statsResult := Some h;
     statsMap := statsMap this; document := document this |}.

(** [document.createElement('div')]: the new element's handle is the
    next free slot of the heap. *)
Definition createElement (this : StatsPanel) : handle * StatsPanel :=
  (length (document this),
   with_document (document this ++ [new_div]) this).

(** An assignment to a field of the element behind a handle. *)
Definition update_element (h : handle) (f : HTMLElement -> HTMLElement)
    (this : StatsPanel) : StatsPanel :=
  match document this !! h with
  | Some el => with_document (<[h := f el]> (document this)) this
  | None => this
  end.

Definition set_innerHTML (html : string) (el : HTMLElement) :=
  {| el_id := el_id el; classList := classList el; innerHTML := html;
     childNodes := childNodes el |}.

Definition set_id (i : string) (el : HTMLElement) :=
  {| el_id := i; classList := classList el; innerHTML := innerHTML el;
     childNodes := childNodes el |}.

Definition classList_add (c : string) (el : HTMLElement) :=
  {| el_id := el_id el;
     classList := if bool_decide (c ∈ classList el) then classList el
                  else classList el ++ [c];
     innerHTML := innerHTML el; childNodes := childNodes el |}.

(** [parent.appendChild(child)] for a child that has no parent yet,
    as the freshly created stat elements are. *)
Definition appendChild (child : handle) (parent : HTMLElement) :=
  {| el_id := el_id parent; classList := classList parent;
     innerHTML := innerHTML parent;
     childNodes := childNodes parent ++ [child] |}.

(** The [statsResult] getter: the results container, created on first
    use. *)
Definition statsResult (this : StatsPanel) : handle * StatsPanel :=
  match _statsResult this with
  | Some h => (h, this)
  | None =>
      let '(h, this) := createElement this in
      let this := with_statsResult h this in
      let this := update_element h (set_id "statisticsResult") this in
      let this := update_element h (classList_add "StatsResult") this in
      (h, this)
  end.

(** A method of the panel that returns nothing. *)
Definition method := StatsPanel -> StatsPanel.

Definition skip : method := fun this => this.
Definition seq (a b : method) : method := fun this => b (a this).
Definition when (c : bool) (a : method) : method := if c then a else skip.

Declare Scope method_scope.
Delimit Scope method_scope with method.
Bind Scope method_scope with method.
Notation "a ;; b" := (seq a b)
  (at level 100, b at level 200, right associativity) : method_scope.
Local Open Scope method_scope.

(** [addOrUpdateStat(id, statLabel, stat)]. *)
Definition addOrUpdateStat (id statLabel : string) (stat : option string)
  : method := fun this =>
  if negb (isSectionEnabled (_config this) SessionStats) then this
  else
    let statHTML := statLabel +:+ ": " +:+ interpolate stat in
    if negb (Map_has (statsMap this) id) then
      (* create the stat *)
      let '(el, this) := createElement this in
      let newStat :=
        {| id := id; stat := stat; title := statLabel; element := el |} in
      let this := update_element el (set_innerHTML statHTML) this in
      (* add the stat to the dom *)
      let '(res, this) := statsResult this in
      let this := update_element res (appendChild el) this in
      with_statsMap (Map_set (statsMap this) id newStat) this
    else
      (* update the existing stat *)
      match Map_get (statsMap this) id with
      | Some value =>
          update_element (element value) (set_innerHTML statHTML) this
      | None => this
      end.

(** [handlePlayerCount(playerCount)]. *)
Definition handlePlayerCount (playerCount : number) : method :=
  addOrUpdateStat "PlayerCountStat" "Players"
    (Some (Number_toString playerCount)).

(** [codecs.get(id)?.mimeType.replace(prefix, '') ?? ''], for the codec
    id of a stream on which [codecId] is truthy. *)
Definition codecName (stats : AggregatedStats) (cid : option string)
    (prefix : string) : string :=
  match cid with
  | Some c =>
      match codecs stats !! c with
      | Some codec => String_replace prefix "" (mimeType codec)
      | None => ""
      end
  | None => ""
  end.

(** The value of the net round-trip-time stat. *)
Definition netRTT (stats : AggregatedStats) : string :=
  let activeCandidatePair :=
    match getActiveCandidatePair stats with
    | Some active => active
    | None => new_CandidatePairStats
    end in
  match currentRoundTripTime activeCandidatePair with
  | Some rtt =>
      if isNumber rtt
      then Number_toString (Math_ceil (mul rtt (lit 1000)))
      else "Can't calculate"
  | None => "Can't calculate"
  end.

(** [handleStats(stats)]. *)
Definition handleStats (stats : AggregatedStats) : method :=
  let video := inboundVideoStats stats in
  let audio := inboundAudioStats stats in
  (* Inbound data *)
  let inboundData := formatBytes (bytesReceived video) 2 in
  addOrUpdateStat "InboundDataStat" "Received" (Some inboundData) ;;
  (* Packets lost *)
  let packetsLostStat :=
    match packetsLost video with
    | Some n => numberFormat_format n
    | None => "Chrome only"
    end in
  addOrUpdateStat "PacketsLostStat" "Packets Lost" (Some packetsLostStat) ;;
  (* Bitrate *)
  when (truthy_prop (bitrate video))
    (addOrUpdateStat "VideoBitrateStat" "Video Bitrate (kbps)"
       (Number_toString <$> bitrate video)) ;;
  when (truthy_prop (bitrate audio))
    (addOrUpdateStat "AudioBitrateStat" "Audio Bitrate (kbps)"
       (Number_toString <$> bitrate audio)) ;;
  (* Video resolution *)
  let resStat :=
    match frameWidth video, frameHeight video with
    | Some w, Some h =>
        if truthy w && truthy h
        then Number_toString w +:+ "x" +:+ Number_toString h
        else "Chrome only"
    | _, _ => "Chrome only"
    end in
  addOrUpdateStat "VideoResStat" "Video resolution" (Some resStat) ;;
  (* Frames decoded *)
  let framesDecodedStat :=
    match framesDecoded video with
    | Some n => numberFormat_format n
    | None => "Chrome only"
    end in
  addOrUpdateStat "FramesDecodedStat" "Frames Decoded"
    (Some framesDecodedStat) ;;
  (* Framerate *)
  when (truthy_prop (framesPerSecond video))
    (addOrUpdateStat "FramerateStat" "Framerate"
       (Number_toString <$> framesPerSecond video)) ;;
  (* Frames dropped *)
  addOrUpdateStat "FramesDroppedStat" "Frames dropped"
    (Number_toString <$> framesDropped video) ;;
  when (truthy_str (codecId video))
    (addOrUpdateStat "VideoCodecStat" "Video codec"
       (Some (codecName stats (codecId video) "video/"))) ;;
  when (truthy_str (codecId audio))
    (addOrUpdateStat "AudioCodecStat" "Audio codec"
       (Some (codecName stats (codecId audio) "audio/"))) ;;
  (* RTT *)
  addOrUpdateStat "RTTStat" "Net RTT (ms)" (Some (netRTT stats)) ;;
  addOrUpdateStat "DurationStat" "Duration"
    (Some (runTime (sessionStats stats))) ;;
  addOrUpdateStat "ControlsInputStat" "Controls stream input"
    (Some (controlsStreamInput (sessionStats stats))) ;;
  (* QP *)
  when (match videoEncoderAvgQP (sessionStats stats) with
        | Some qp => negb (Number_isNaN qp)
        | None => false
        end)
    (addOrUpdateStat "QPStat" "Video quantization parameter"
       (Number_toString <$> videoEncoderAvgQP (sessionStats stats))).

(** One guarded block of [handleLatencyInfo]: the field is defined and
    greater than zero. *)
Definition latency_positive (field : option number) : bool :=
  match field with Some x => gt0 x | None => false end.

(** [handleLatencyInfo(latencyInfo)]. *)
Definition handleLatencyInfo (latencyInfo : LatencyInfo) : method :=
  when (latency_positive (SenderLatencyMs latencyInfo))
    (addOrUpdateStat "SenderSideLatency" "Sender latency (ms)"
       (Number_toString ∘ Math_ceil <$> SenderLatencyMs latencyInfo)) ;;
  when (latency_positive (AverageAssemblyDelayMs latencyInfo))
    (addOrUpdateStat "AvgAssemblyDelay" "Assembly delay (ms)"
       (Number_toString ∘ Math_ceil <$> AverageAssemblyDelayMs latencyInfo)) ;;
  when (latency_positive (AverageDecodeLatencyMs latencyInfo))
    (addOrUpdateStat "AvgDecodeDelay" "Decode time (ms)"
       (Number_toString ∘ Math_ceil <$> AverageDecodeLatencyMs latencyInfo)) ;;
  when (latency_positive (AverageJitterBufferDelayMs latencyInfo))
    (addOrUpdateStat "AvgJitterBufferDelay" "Jitter buffer (ms)"
       (Number_toString ∘ Math_ceil
          <$> AverageJitterBufferDelayMs latencyInfo)) ;;
  when (latency_positive (AverageProcessingDelayMs latencyInfo))
    (addOrUpdateStat "AvgProcessingDelay" "Processing delay (ms)"
       (Number_toString ∘ Math_ceil
          <$> AverageProcessingDelayMs latencyInfo)) ;;
  when (latency_positive (AverageE2ELatency latencyInfo))
    (addOrUpdateStat "AvgE2ELatency" "Total latency (ms)"
       (Number_toString ∘ Math_ceil <$> AverageE2ELatency latencyInfo)).

(** ** Observations of the registry *)

(** The ids of the registry in iteration order. *)
Definition ids (this : StatsPanel) : list string := Map_keys (statsMap this).

(** What the panel shows for an id: the text of the entry's element. *)
Definition displayed (this : StatsPanel) (i : string) : option string :=
  s ← Map_get (statsMap this) i;
  el ← document this !! element s;
  Some (innerHTML el).

(** Whether the session-stats section is enabled for the panel. *)
Definition enabled (this : StatsPanel) : bool :=
  isSectionEnabled (_config this) SessionStats.

(** The text an upsert writes: the template literal of [addOrUpdateStat]. *)
Definition statHTML (statLabel : string) (stat : option string) : string :=
  statLabel +:+ ": " +:+ interpolate stat.

(** ** The operations on the registry *)

Inductive operation :=
| PlayerCount (playerCount : number)
| Stats (stats : AggregatedStats)
| Latency (latencyInfo : LatencyInfo)
| Upsert (id statLabel : string) (stat : option string).

Definition exec (o : operation) : method :=
  match o with
  | PlayerCount n => handlePlayerCount n
  | Stats stats => handleStats stats
  | Latency info => handleLatencyInfo info
  | Upsert i t v => addOrUpdateStat i t v
  end.

(** The states a panel goes through: a new panel, the operations, the
    [statsResult] getter (the view tree reads it too), and elements that
    the rest of the page creates. *)
Inductive reachable : StatsPanel -> Prop :=
| reach_new config doc : reachable (constructor config doc)
| reach_exec o this : reachable this -> reachable (exec o this)
| reach_statsResult this : reachable this -> reachable (statsResult this).2
| reach_createElement this : reachable this -> reachable (createElement this).2.

(** The invariant of the reachable states: every entry is rendered in an
    element of the document, no two entries share an element, no key
    occurs twice, and an entry is stored under its own id. *)
Record wf (this : StatsPanel) : Prop := {
  wf_allocated :
    Forall (fun kv => (element kv.2 < length (document this))%nat)
      (statsMap this);
  wf_separate : NoDup (map (fun kv => element kv.2) (statsMap this));
  wf_keys : NoDup (ids this);
  wf_id : Forall (fun kv => id kv.2 = kv.1) (statsMap this)
}.

(** A sequence of [addOrUpdateStat] calls, each an (id, label, value). *)
Definition run (calls : list (string * string * option string)) : method :=
  fun this =>
    fold_left (fun p '(i, t, v) => addOrUpdateStat i t v p) calls this.

(** The ids of a sequence of calls. *)
Definition call_ids (calls : list (string * string * option string))
  : list string := map (fun c => c.1.1) calls.

(** The ids of a list in the order of their first occurrence. *)
Fixpoint first_occurrences (l : list string) : list string :=
  match l with
  | [] => []
  | x :: r => x :: filter (fun y => y <> x) (first_occurrences r)
  end.

(** A method takes the states of [P] to states of [Q]. *)
Definition hoare (P : StatsPanel -> Prop) (m : method)
    (Q : StatsPanel -> Prop) : Prop :=
  forall this, P this -> Q (m this).

(** The panel is in a good state, the section is enabled, and id [i]
    shows [d]. *)
Definition shows (i : string) (d : option string) (this : StatsPanel)
  : Prop :=
  wf this /\ enabled this = true /\ displayed this i = d.

(** An operation left id [i] alone: it is in the map after if it was
    before, and shows what it showed. *)
Definition untouched (this after : StatsPanel) (i : string) : Prop :=
  displayed after i = displayed this i /\
  Map_has (statsMap after) i = Map_has (statsMap this) i.

(** The panel keeps the entries of [old], in their order and under their
    keys, possibly followed by new ones. *)
Definition extends (old this : StatsPanel) : Prop :=
  exists added, statsMap this = statsMap old ++ added.

(** The six blocks of [handleLatencyInfo]: the field read, the id and
    the label. *)
Definition latency_table
  : list ((LatencyInfo -> option number) * string * string) :=
  [ (SenderLatencyMs, "SenderSideLatency", "Sender latency (ms)");
    (AverageAssemblyDelayMs, "AvgAssemblyDelay", "Assembly delay (ms)");
    (AverageDecodeLatencyMs, "AvgDecodeDelay", "Decode time (ms)");
    (AverageJitterBufferDelayMs, "AvgJitterBufferDelay",
     "Jitter buffer (ms)");
    (AverageProcessingDelayMs, "AvgProcessingDelay",
     "Processing delay (ms)");
    (AverageE2ELatency, "AvgE2ELatency", "Total latency (ms)") ].

(** [roundToMillis] by the words of the specification: a duration in
    fractional seconds to whole milliseconds, rounding up. *)
Definition roundToMillis_spec (seconds : number) : number :=
  Math_ceil (mul seconds (lit 1000)).

End Panel.

(** ** Concrete inputs *)

(** The binary64 value of the literal [0.0235]. *)
Definition rtt_0_0235 : number := S754_finite false 6773413839565226 (-58).

(** The binary64 value of the literal [1.5]. *)
Definition ms_1_5 : number := S754_finite false 6755399441055744 (-52).

(** A browser for the examples: no digit grouping, and integers printed
    by their digits. *)
Definition plain_browser : Browser :=
  {| Number_digits := fun _ => "(digits)";
     numberFormat_format := fun x =>
       match integer_value x with
       | Some n => pretty n
       | None => "(digits)"
       end |}.

(** Imports for the examples: a configuration is the list of its enabled
    sections, a Number is any finite value, and byte counts print as a
    fixed text. *)
Definition list_imports : Imports :=
  {| StatsPanelConfiguration := list StatsSections;
     isSectionEnabled := fun config section =>
       existsb (fun s =>
         match s, section with
         | SessionStats, SessionStats
         | LatencyTest, LatencyTest
         | DataChannelLatencyTest, DataChannelLatencyTest => true
         | _, _ => false
         end) config;
     formatBytes := fun _ _ => "(bytes)";
     isNumber := fun x =>
       match x with
       | S754_nan | S754_infinity _ => false
       | _ => true
       end |}.

(** A snapshot with no optional field and no active candidate pair. *)
Definition no_rtp : InboundRTPStats :=
  {| bytesReceived := None; packetsLost := None; bitrate := None;
     frameWidth := None; frameHeight := None; framesDecoded := None;
     framesPerSecond := None; framesDropped := None; codecId := None |}.

Definition empty_stats : AggregatedStats :=
  {| inboundVideoStats := no_rtp; inboundAudioStats := no_rtp;
     codecs := ∅; getActiveCandidatePair := None;
     sessionStats := {| runTime := "00:00:00"; controlsStreamInput := "";
                        videoEncoderAvgQP := None |} |}.

Definition no_latency : LatencyInfo :=
  {| SenderLatencyMs := None; AverageAssemblyDelayMs := None;
     AverageDecodeLatencyMs := None; AverageJitterBufferDelayMs := None;
     AverageProcessingDelayMs := None; AverageE2ELatency := None |}.

(** A snapshot whose active candidate pair reports 0.0235 seconds. *)
Definition rtt_stats : AggregatedStats :=
  {| inboundVideoStats := no_rtp; inboundAudioStats := no_rtp;
     codecs := ∅;
     getActiveCandidatePair :=
       Some {| currentRoundTripTime := Some rtt_0_0235 |};
     sessionStats := sessionStats empty_stats |}.

(** A video stream on codec "c1". *)
Definition video_c1 : InboundRTPStats :=
  {| bytesReceived := None; packetsLost := None; bitrate := None;
     frameWidth := None; frameHeight := None; framesDecoded := None;
     framesPerSecond := None; framesDropped := None;
     codecId := Some "c1" |}.

(** A snapshot whose video codec id is not in the codec table. *)
Definition unknown_codec_stats : AggregatedStats :=
  {| inboundVideoStats := video_c1; inboundAudioStats := no_rtp;
     codecs := ∅; getActiveCandidatePair := None;
     sessionStats := sessionStats empty_stats |}.

(** A snapshot whose video codec has "video/" inside its mime type, not
    at its start. *)
Definition inner_prefix_stats : AggregatedStats :=
  {| inboundVideoStats := video_c1; inboundAudioStats := no_rtp;
     codecs := {[ "c1" := {| mimeType := "xvideo/VP8" |} ]};
     getActiveCandidatePair := None;
     sessionStats := sessionStats empty_stats |}.

(** A latency report: 1.5 ms at the sender, 0 ms of decoding. *)
Definition latency_1_5 : LatencyInfo :=
  {| SenderLatencyMs := Some ms_1_5; AverageAssemblyDelayMs := None;
     AverageDecodeLatencyMs := Some (lit 0);
     AverageJitterBufferDelayMs := None;
     AverageProcessingDelayMs := None; AverageE2ELatency := None |}.

(** A panel with the session-stats section enabled, and one with every
    section disabled, each in an empty document. *)
Definition enabled_panel : @StatsPanel list_imports :=
  @constructor list_imports [SessionStats] [].

Definition disabled_panel : @StatsPanel list_imports :=
  @constructor list_imports [] [].

(** The enabled panel after the ids a, b and c were inserted. *)
Definition abc_panel : @StatsPanel list_imports :=
  @run list_imports
    [("a", "A", Some "1"); ("b", "B", Some "2"); ("c", "C", Some "3")]
    enabled_panel.

(** ** The handlers as sequences of upserts *)

Section Upserts.
Context {browser : Browser} {imports : Imports}.

(** What an id shows after a sequence of upserts, given what it showed
    before: the text of the last upsert of that id. *)
Fixpoint last_text (calls : list (string * string * option string))
    (i : string) (before : option string) : option string :=
  match calls with
  | [] => before
  | (j, t, v) :: rest =>
      last_text rest i
        (if String.eqb j i then Some (statHTML t v) else before)
  end.

(** One upsert under a guard. *)
Definition upsert_when (c : bool) (call : string * string * option string)
  : list (string * string * option string) :=
  if c then [call] else [].

(** The upserts of [handleStats], in the order of the source. *)
Definition handleStats_upserts (stats : AggregatedStats)
  : list (string * string * option string) :=
  let video := inboundVideoStats stats in
  let audio := inboundAudioStats stats in
  [ ("InboundDataStat", "Received",
     Some (formatBytes (bytesReceived video) 2));
    ("PacketsLostStat", "Packets Lost",
     Some match packetsLost video with
          | Some n => numberFormat_format n
          | None => "Chrome only"
          end) ] ++
  upsert_when (truthy_prop (bitrate video))
    ("VideoBitrateStat", "Video Bitrate (kbps)",
     Number_toString <$> bitrate video) ++
  upsert_when (truthy_prop (bitrate audio))
    ("AudioBitrateStat", "Audio Bitrate (kbps)",
     Number_toString <$> bitrate audio) ++
  [ ("VideoResStat", "Video resolution",
     Some match frameWidth video, frameHeight video with
          | Some w, Some h =>
              if truthy w && truthy h
              then Number_toString w +:+ "x" +:+ Number_toString h
              else "Chrome only"
          | _, _ => "Chrome only"
          end);
    ("FramesDecodedStat", "Frames Decoded",
     Some match framesDecoded video with
          | Some n => numberFormat_format n
          | None => "Chrome only"
          end) ] ++
  upsert_when (truthy_prop (framesPerSecond video))
    ("FramerateStat", "Framerate",
     Number_toString <$> framesPerSecond video) ++
  [ ("FramesDroppedStat", "Frames dropped",
     Number_toString <$> framesDropped video) ] ++
  upsert_when (truthy_str (codecId video))
    ("VideoCodecStat", "Video codec",
     Some (codecName stats (codecId video) "video/")) ++
  upsert_when (truthy_str (codecId audio))
    ("AudioCodecStat", "Audio codec",
     Some (codecName stats (codecId audio) "audio/")) ++
  [ ("RTTStat", "Net RTT (ms)", Some (netRTT stats));
    ("DurationStat", "Duration", Some (runTime (sessionStats stats)));
    ("ControlsInputStat", "Controls stream input",
     Some (controlsStreamInput (sessionStats stats))) ] ++
  upsert_when (match videoEncoderAvgQP (sessionStats stats) with
               | Some qp => negb (Number_isNaN qp)
               | None => false
               end)
    ("QPStat", "Video quantization parameter",
     Number_toString <$> videoEncoderAvgQP (sessionStats stats)).

(** The upserts of [handleLatencyInfo], in the order of the source. *)
Definition handleLatencyInfo_upserts (latencyInfo : LatencyInfo)
  : list (string * string * option string) :=
  flat_map
    (fun '(field, i, t) =>
       upsert_when (latency_positive (field latencyInfo))
         (i, t, Number_toString ∘ Math_ceil <$> field latencyInfo))
    latency_table.

(** The upserts of an operation. *)
Definition upserts_of (o : operation)
  : list (string * string * option string) :=
  match o with
  | PlayerCount n =>
      [("PlayerCountStat", "Players", Some (Number_toString n))]
  | Stats stats => handleStats_upserts stats
  | Latency info => handleLatencyInfo_upserts info
  | Upsert i t v => [(i, t, v)]
  end.

(** The ids [handleStats] may upsert, in the order of the source. *)
Definition handleStats_ids : list string :=
  [ "InboundDataStat"; "PacketsLostStat"; "VideoBitrateStat";
    "AudioBitrateStat"; "VideoResStat"; "FramesDecodedStat";
    "FramerateStat"; "FramesDroppedStat"; "VideoCodecStat";
    "AudioCodecStat"; "RTTStat"; "DurationStat"; "ControlsInputStat";
    "QPStat" ].

(** The ids [handleLatencyInfo] may upsert. *)
Definition handleLatencyInfo_ids : list string :=
  map (fun row => row.1.2) latency_table.

(** The ids an operation may upsert. *)
Definition footprint (o : operation) : list string :=
  match o with
  | PlayerCount _ => ["PlayerCountStat"]
  | Stats _ => handleStats_ids
  | Latency _ => handleLatencyInfo_ids
  | Upsert i _ _ => [i]
  end.

(** The elements of the registry entries, in iteration order. *)
Definition stat_elements (this : StatsPanel) : list handle :=
  map (fun kv => element kv.2) (statsMap this).

(** The results container, once it exists, has the elements of the
    registry as its children, in the order of the registry; before that
    the registry is empty. *)
Definition rendered_in_order (this : StatsPanel) : Prop :=
  match _statsResult this with
  | Some res =>
      childNodes <$> document this !! res = Some (stat_elements this)
  | None => statsMap this = []
  end.

End Upserts.

Section Sequences.
Context {browser : Browser} {imports : Imports}.

(** A sequence of operations, one after the other. *)
Definition exec_all (ops : list operation) : method :=
  fun this => fold_left (fun p o => exec o p) ops this.

End Sequences.

Section FieldPolicies.
Context {browser : Browser} {imports : Imports}.

(** The policy of a numeric stat that is shown only under a guard: a
    field that is there and passes the guard is shown by its digits, and
    otherwise the stat is left alone. *)
Definition shown_under_guard (field : option number) (guard : number -> bool)
    (this after : StatsPanel) (i t : string) : Prop :=
  match field with
  | Some x =>
      if guard x
      then displayed after i = Some (t +:+ ": " +:+ Number_toString x)
      else untouched this after i
  | None => untouched this after i
  end.

(** The ids [handleStats] upserts whatever the snapshot holds. *)
Definition handleStats_unconditional_ids : list string :=
  [ "InboundDataStat"; "PacketsLostStat"; "VideoResStat";
    "FramesDecodedStat"; "FramesDroppedStat"; "RTTStat"; "DurationStat";
    "ControlsInputStat" ].

End FieldPolicies.

Section HandlerIds.
Context {browser : Browser} {imports : Imports}.

(** The ids of the three handlers: the fourteen of [handleStats], the
    six of [handleLatencyInfo] and the player count. *)
Definition handler_ids : list string :=
  handleStats_ids ++ handleLatencyInfo_ids ++ ["PlayerCountStat"].

(** An operation that is a handler, not a direct [addOrUpdateStat]. *)
Definition is_handler (o : operation) : bool :=
  match o with
  | Upsert _ _ _ => false
  | _ => true
  end.

End HandlerIds.

(** ** The view tree of the panel *)

(** What the view tree takes from outside this file: the text of
    [StatsSections.SessionStats], and the [rootElement] getters of the
    latency test and of the data channel latency test, each given by what
    it does to the document and the element it returns. *)
Class Collaborators := {
  SessionStats_text : string;
  latencyTest_rootElement : list HTMLElement -> handle * list HTMLElement;
  dataChannelLatencyTest_rootElement :
    list HTMLElement -> handle * list HTMLElement
}.

(** [classList.contains], [classList.remove] and [classList.toggle]. *)
Definition classList_contains (c : string) (el : HTMLElement) : bool :=
  bool_decide (c ∈ classList el).

Definition classList_remove (c : string) (el : HTMLElement) : HTMLElement :=
  {| el_id := el_id el; classList := filter (fun x => x <> c) (classList el);
     innerHTML := innerHTML el; childNodes := childNodes el |}.

Definition classList_toggle (c : string) (el : HTMLElement) : HTMLElement :=
  if classList_contains c el then classList_remove c el
  else classList_add c el.

(** A node leaves the children of an element. *)
Definition remove_child (child : handle) (el : HTMLElement) : HTMLElement :=
  {| el_id := el_id el; classList := classList el; innerHTML := innerHTML el;
     childNodes := filter (fun h => h <> child) (childNodes el) |}.

(** [parent.appendChild(child)] in a document: the child leaves the
    parent it has, if any, and becomes the last child of [parent]. *)
Definition Node_appendChild (parent child : handle)
    (doc : list HTMLElement) : list HTMLElement :=
  let doc := remove_child child <$> doc in
  match doc !! parent with
  | Some el => <[parent := appendChild child el]> doc
  | None => doc
  end.

Section View.
Context {browser : Browser} {imports : Imports}
  {collaborators : Collaborators}.

(** The panel with the elements of its view tree, each created on first
    use. The tag of an element is not part of an element of the model:
    [createElement] stands for [document.createElement] of any tag. *)
Record StatsPanelView := {
  panel : StatsPanel;
  _rootElement : option handle;
  _statsCloseButton : option handle;
  _statsContentElement : option handle;
  _statisticsContainer : option handle
}.

(** [new StatsPanel(config)], with its view tree still to build. *)
Definition new_view (config : StatsPanelConfiguration)
    (doc : list HTMLElement) : StatsPanelView :=
  {| panel := constructor config doc; _rootElement := None;
     _statsCloseButton := None; _statsContentElement := None;
     _statisticsContainer := None |}.

Definition with_panel (p : StatsPanel) (this : StatsPanelView) :=
  {| panel := p; _rootElement := _rootElement this;
     _statsCloseButton := _statsCloseButton this;
     _statsContentElement := _statsContentElement this;
     _statisticsContainer := _statisticsContainer this |}.

(** A piece of code that runs on the panel and returns a value. *)
Definition M (A : Type) : Type := StatsPanelView -> A * StatsPanelView.

#[global] Instance M_ret : MRet M := fun A a this => (a, this).
#[global] Instance M_bind : MBind M :=
  fun A B k m this => let '(a, this) := m this in k a this.

(** The state a piece of code leaves. *)
Definition after {A} (m : M A) (this : StatsPanelView) : StatsPanelView :=
  (m this).2.

Definition v_createElement : M handle := fun this =>
  let '(h, p) := createElement (panel this) in (h, with_panel p this).

Definition v_update (h : handle) (f : HTMLElement -> HTMLElement) : M unit :=
  fun this => (tt, with_panel (update_element h f (panel this)) this).

Definition v_appendChild (parent child : handle) : M unit := fun this =>
  (tt, with_panel
         (with_document
            (Node_appendChild parent child (document (panel this)))
            (panel this)) this).

(** A getter of a collaborator. *)
Definition v_collaborator
    (getter : list HTMLElement -> handle * list HTMLElement) : M handle :=
  fun this =>
    let '(h, doc) := getter (document (panel this)) in
    (h, with_panel (with_document doc (panel this)) this).

Definition v_isSectionEnabled (section : StatsSections) : M bool :=
  fun this => (isSectionEnabled (_config (panel this)) section, this).

Definition v_contains (h : handle) (c : string) : M bool := fun this =>
  (match document (panel this) !! h with
   | Some el => classList_contains c el
   | None => false
   end, this).

Definition set_rootElement (h : handle) : M unit := fun this =>
  (tt, {| panel := panel this; _rootElement := Some h;
          _statsCloseButton := _statsCloseButton this;
          _statsContentElement := _statsContentElement this;
          _statisticsContainer := _statisticsContainer this |}).

Definition set_statsCloseButton (h : handle) : M unit := fun this =>
  (tt, {| panel := panel this; _rootElement := _rootElement this;
          _statsCloseButton := Some h;
          _statsContentElement := _statsContentElement this;
          _statisticsContainer := _statisticsContainer this |}).

Definition set_statsContentElement (h : handle) : M unit := fun this =>
  (tt, {| panel := panel this; _rootElement := _rootElement this;
          _statsCloseButton := _statsCloseButton this;
          _statsContentElement := Some h;
          _statisticsContainer := _statisticsContainer this |}).

Definition set_statisticsContainer (h : handle) : M unit := fun this =>
  (tt, {| panel := panel this; _rootElement := _rootElement this;
          _statsCloseButton := _statsCloseButton this;
          _statsContentElement := _statsContentElement this;
          _statisticsContainer := Some h |}).

(** The [statsResult] getter, on the panel with its view. *)
Definition get_statsResult : M handle := fun this =>
  let '(h, p) := statsResult (panel this) in (h, with_panel p this).

(** The [statsCloseButton] getter. *)
Definition get_statsCloseButton : M handle := fun this =>
  match _statsCloseButton this with
  | Some h => (h, this)
  | None =>
      (h ← v_createElement;
       set_statsCloseButton h;;
       v_update h (set_id "statsClose");;
       mret h) this
  end.

(** The [statisticsContainer] getter. *)
Definition get_statisticsContainer : M handle := fun this =>
  match _statisticsContainer this with
  | Some h => (h, this)
  | None =>
      (h ← v_createElement;
       set_statisticsContainer h;;
       v_update h (set_id "statisticsContainer");;
       v_update h (classList_add "d-none");;
       res ← get_statsResult;
       v_appendChild h res;;
       mret h) this
  end.

(** The [statsContentElement] getter. *)
Definition get_statsContentElement : M handle := fun this =>
  match _statsContentElement this with
  | Some h => (h, this)
  | None =>
      (content ← v_createElement;
       set_statsContentElement content;;
       v_update content (set_id "statsContent");;
       streamToolStats ← v_createElement;
       v_update streamToolStats (set_id "streamToolsStats");;
       v_update streamToolStats (classList_add "container");;
       controlStats ← v_createElement;
       v_update controlStats (set_id "ControlStats");;
       v_update controlStats (classList_add "row");;
       statistics ← v_createElement;
       v_update statistics (set_id "statistics");;
       v_update statistics (classList_add "settingsContainer");;
       statisticsHeader ← v_createElement;
       v_update statisticsHeader (set_id "statisticsHeader");;
       v_update statisticsHeader (classList_add "settings-text");;
       v_update statisticsHeader (classList_add "settingsHeader");;
       v_appendChild content streamToolStats;;
       v_appendChild streamToolStats controlStats;;
       v_appendChild controlStats statistics;;
       v_appendChild statistics statisticsHeader;;
       session ← v_isSectionEnabled SessionStats;
       (if session : bool then
          sessionStats ← v_createElement;
          v_update sessionStats (set_innerHTML SessionStats_text);;
          v_appendChild statisticsHeader sessionStats
        else mret tt);;
       container ← get_statisticsContainer;
       v_appendChild statistics container;;
       latency ← v_isSectionEnabled LatencyTest;
       (if latency : bool then
          root ← v_collaborator latencyTest_rootElement;
          v_appendChild controlStats root
        else mret tt);;
       dataChannel ← v_isSectionEnabled DataChannelLatencyTest;
       (if dataChannel : bool then
          root ← v_collaborator dataChannelLatencyTest_rootElement;
          v_appendChild controlStats root
        else mret tt);;
       mret content) this
  end.

(** The [rootElement] getter. The heading's [textContent] is a plain
    word, which is its markup too. *)
Definition get_rootElement : M handle := fun this =>
  match _rootElement this with
  | Some h => (h, this)
  | None =>
      (root ← v_createElement;
       set_rootElement root;;
       v_update root (set_id "stats-panel");;
       v_update root (classList_add "panel-wrap");;
       panelElem ← v_createElement;
       v_update panelElem (classList_add "panel");;
       v_appendChild root panelElem;;
       statsHeading ← v_createElement;
       v_update statsHeading (set_id "statsHeading");;
       v_update statsHeading (set_innerHTML "Information");;
       v_appendChild panelElem statsHeading;;
       closeButton ← get_statsCloseButton;
       v_appendChild panelElem closeButton;;
       content ← get_statsContentElement;
       v_appendChild panelElem content;;
       mret root) this
  end.

(** [show()]. *)
Definition show : M unit :=
  root ← get_rootElement;
  visible ← v_contains root "panel-wrap-visible";
  if negb visible then
    root ← get_rootElement;
    v_update root (classList_add "panel-wrap-visible")
  else mret tt.

(** [toggleVisibility()]. *)
Definition toggleVisibility : M unit :=
  root ← get_rootElement;
  v_update root (classList_toggle "panel-wrap-visible").

(** [hide()]. *)
Definition hide : M unit :=
  root ← get_rootElement;
  visible ← v_contains root "panel-wrap-visible";
  if visible : bool then
    root ← get_rootElement;
    v_update root (classList_remove "panel-wrap-visible")
  else mret tt.

(** Whether the panel is shown: its root element exists and carries the
    class that makes it visible. *)
Definition is_visible (this : StatsPanelView) : bool :=
  match _rootElement this with
  | Some root =>
      match document (panel this) !! root with
      | Some el => classList_contains "panel-wrap-visible" el
      | None => false
      end
  | None => false
  end.

(** The operations on the view. *)
Inductive view_operation :=
| Show | Hide | ToggleVisibility
| GetRootElement | GetStatsContentElement | GetStatisticsContainer
| GetStatsResult | GetStatsCloseButton.

Definition view_exec (o : view_operation) (this : StatsPanelView)
  : StatsPanelView :=
  match o with
  | Show => after show this
  | Hide => after hide this
  | ToggleVisibility => after toggleVisibility this
  | GetRootElement => after get_rootElement this
  | GetStatsContentElement => after get_statsContentElement this
  | GetStatisticsContainer => after get_statisticsContainer this
  | GetStatsResult => after get_statsResult this
  | GetStatsCloseButton => after get_statsCloseButton this
  end.

(** An operation of the registry, on the panel with its view. *)
Definition on_panel (o : operation) (this : StatsPanelView)
  : StatsPanelView :=
  with_panel (exec o (panel this)) this.

(** The collaborators only add elements: the document they leave starts
    with the document they found. *)
Definition collaborators_only_add : Prop :=
  (forall doc, doc `prefix_of` (latencyTest_rootElement doc).2) /\
  (forall doc, doc `prefix_of` (dataChannelLatencyTest_rootElement doc).2).

(** The elements the view has cached are in the document. *)
Definition view_allocated (this : StatsPanelView) : Prop :=
  forall h,
    (_rootElement this = Some h \/ _statsCloseButton this = Some h \/
     _statsContentElement this = Some h \/
     _statisticsContainer this = Some h \/
     _statsResult (panel this) = Some h) ->
    (h < length (document (panel this)))%nat.

(** A cached element that is kept, or that is new: a cache that was set
    is the same after, and one that is set after was set before or holds
    an element created in between. *)
Definition cache_grows (n n' : nat) (c c' : option handle) : Prop :=
  match c, c' with
  | Some h, _ => c' = Some h
  | None, Some h => (n <= h < n')%nat
  | None, None => True
  end.

(** The view grew from [old] to [this]: the registry and the
    configuration are the same, the caches grew, and every element of
    the old document is still there with its text, its classes and its
    id (its children may have changed). *)
Record grows (old this : StatsPanelView) : Prop := {
  grows_statsMap : statsMap (panel this) = statsMap (panel old);
  grows_config : _config (panel this) = _config (panel old);
  grows_length :
    (length (document (panel old)) <= length (document (panel this)))%nat;
  grows_root :
    cache_grows (length (document (panel old)))
      (length (document (panel this)))
      (_rootElement old) (_rootElement this);
  grows_close :
    cache_grows (length (document (panel old)))
      (length (document (panel this)))
      (_statsCloseButton old) (_statsCloseButton this);
  grows_content :
    cache_grows (length (document (panel old)))
      (length (document (panel this)))
      (_statsContentElement old) (_statsContentElement this);
  grows_container :
    cache_grows (length (document (panel old)))
      (length (document (panel this)))
      (_statisticsContainer old) (_statisticsContainer this);
  grows_result :
    cache_grows (length (document (panel old)))
      (length (document (panel this)))
      (_statsResult (panel old)) (_statsResult (panel this));
  grows_elements :
    forall h el, document (panel old) !! h = Some el ->
      exists el', document (panel this) !! h = Some el' /\
                  innerHTML el' = innerHTML el /\
                  classList el' = classList el /\ el_id el' = el_id el
}.

(** The states a panel with its view goes through: a new panel, the
    operations on the view, the operations on the registry, and elements
    that the rest of the page creates. *)
Inductive view_reachable : StatsPanelView -> Prop :=
| vreach_new config doc : view_reachable (new_view config doc)
| vreach_view o this :
    view_reachable this -> view_reachable (view_exec o this)
| vreach_panel o this :
    view_reachable this -> view_reachable (on_panel o this)
| vreach_createElement this :
    view_reachable this -> view_reachable (after v_createElement this).

(** A piece of code takes the states of [P] to a value and a state of
    [Q]. *)
Definition triple {A} (P : StatsPanelView -> Prop) (m : M A)
    (Q : A -> StatsPanelView -> Prop) : Prop :=
  forall this, P this -> Q (m this).1 (m this).2.

End View.

(** Collaborators for the examples: each getter creates one element and
    returns it. *)
Definition one_element_collaborators : Collaborators :=
  {| SessionStats_text := "Session Stats";
     latencyTest_rootElement := fun doc => (length doc, doc ++ [new_div]);
     dataChannelLatencyTest_rootElement :=
       fun doc => (length doc, doc ++ [new_div]) |}.

(** A snapshot of a 1280x720 video stream at 60 frames per second, with
    a bitrate of zero. *)
Definition hd_stats : AggregatedStats :=
  {| inboundVideoStats :=
       {| bytesReceived := Some (lit 1048576); packetsLost := Some (lit 0);
          bitrate := Some (lit 0); frameWidth := Some (lit 1280);
          frameHeight := Some (lit 720); framesDecoded := Some (lit 100);
          framesPerSecond := Some (lit 60); framesDropped := None;
          codecId := None |};
     inboundAudioStats := no_rtp; codecs := ∅;
     getActiveCandidatePair := None;
     sessionStats := sessionStats empty_stats |}.

(** A new panel with the session stats and the latency test enabled, in
    an empty document, and the same panel after a first stat. *)
Definition new_panel_view
  : @StatsPanelView list_imports :=
  @new_view list_imports [SessionStats; LatencyTest] [].

Definition one_stat_view : @StatsPanelView list_imports :=
  @on_panel plain_browser list_imports (Upsert "a" "A" (Some "1"))
    new_panel_view.

(** * Properties *)

(** ** The map *)

Section JsMapFacts.
Context {V : Type}.
Implicit Types (m : list (string * V)) (k : string) (v : V).

Lemma Map_has_true m k : Map_has m k = true <-> k ∈ Map_keys m.
Proof.
  unfold Map_has, Map_keys. induction m as [|[k' v'] m IH]; simpl.
  - split; [discriminate | intros Hin; inversion Hin].
  - destruct (String.eqb_spec k' k) as [->|Hne].
    + split; [intros _; left | reflexivity].
    + rewrite IH. split; [intros Hin; by right |].
      intros Hin. inversion Hin; subst; [congruence | assumption].
Qed.

Lemma Map_has_false m k : Map_has m k = false <-> k ∉ Map_keys m.
Proof.
  rewrite <- Map_has_true. destruct (Map_has m k); split; congruence.
Qed.

Lemma Map_get_None m k : Map_get m k = None <-> Map_has m k = false.
Proof. unfold Map_has. destruct (Map_get m k); split; congruence. Qed.

Lemma Map_get_app m m' k :
  Map_get (m ++ m') k =
  match Map_get m k with Some v => Some v | None => Map_get m' k end.
Proof.
  induction m as [|[k' v'] m IH]; simpl; [reflexivity |].
  destruct (String.eqb k' k); [reflexivity | apply IH].
Qed.

Lemma Map_get_In m k v : Map_get m k = Some v -> (k, v) ∈ m.
Proof.
  induction m as [|[k' v'] m IH]; simpl; [discriminate |].
  destruct (String.eqb_spec k' k) as [->|Hne].
  - intros [= ->]. left.
  - intros Hget. right. by apply IH.
Qed.

(** On a key that is not there, [set] appends. *)
Lemma Map_set_fresh m k v : Map_has m k = false -> Map_set m k v = m ++ [(k, v)].
Proof.
  unfold Map_has. induction m as [|[k' v'] m IH]; simpl; [reflexivity |].
  destruct (String.eqb k' k); [discriminate |].
  intros Hm. by rewrite IH.
Qed.

(** On a key that is there, [set] keeps the keys and their order. *)
Lemma Map_set_keys m k v :
  Map_has m k = true -> Map_keys (Map_set m k v) = Map_keys m.
Proof.
  unfold Map_has, Map_keys. induction m as [|[k' v'] m IH]; simpl;
    [discriminate |].
  destruct (String.eqb k' k); [reflexivity |].
  intros Hm. simpl. by rewrite IH.
Qed.

End JsMapFacts.

(** ** Numbers *)

Section NumberFacts.

Lemma digits2_pos_bounds p :
  2 ^ (Zpos (digits2_pos p) - 1) <= Zpos p < 2 ^ Zpos (digits2_pos p).
Proof.
  induction p as [p IH|p IH|]; simpl digits2_pos.
  - rewrite Pos2Z.inj_succ, Z.pow_succ_r by lia.
    replace (Z.succ (Zpos (digits2_pos p)) - 1)
      with (Z.succ (Zpos (digits2_pos p) - 1)) by lia.
    rewrite Z.pow_succ_r by lia. lia.
  - rewrite Pos2Z.inj_succ, Z.pow_succ_r by lia.
    replace (Z.succ (Zpos (digits2_pos p)) - 1)
      with (Z.succ (Zpos (digits2_pos p) - 1)) by lia.
    rewrite Z.pow_succ_r by lia. lia.
  - simpl. lia.
Qed.

Lemma digits2_pos_le p n : 0 <= n -> Zpos p < 2 ^ n -> Zpos (digits2_pos p) <= n.
Proof.
  intros Hn Hp. destruct (digits2_pos_bounds p) as [Hlo _].
  destruct (Z.le_gt_cases (Zpos (digits2_pos p)) n) as [|Hgt]; [done |].
  assert (2 ^ n <= 2 ^ (Zpos (digits2_pos p) - 1))
    by (apply Z.pow_le_mono_r; lia).
  lia.
Qed.

Lemma iter_xO_value p d : Zpos (Pos.iter xO p d) = Zpos p * 2 ^ Zpos d.
Proof.
  induction d as [|d IH] using Pos.peano_ind.
  - simpl. lia.
  - rewrite Pos.iter_succ, Pos2Z.inj_succ, Z.pow_succ_r by lia.
    rewrite Pos2Z.inj_xO, IH. lia.
Qed.

Lemma iter_xO_digits p d :
  digits2_pos (Pos.iter xO p d) = (digits2_pos p + d)%positive.
Proof.
  induction d as [|d IH] using Pos.peano_ind.
  - simpl. lia.
  - rewrite Pos.iter_succ. simpl. rewrite IH. lia.
Qed.

(** A mantissa of full width is its own rounding. *)
Lemma binary_round_aux_exact s m e :
  Zpos (digits2_pos m) = prec -> -1074 <= e <= 971 ->
  binary_round_aux prec emax s (Zpos m) e loc_Exact = S754_finite s m e.
Proof.
  intros Hm He. unfold binary_round_aux, shr_fexp, fexp, emin. simpl Zdigits2.
  rewrite Hm. unfold prec, emax in *.
  replace (Z.max (53 + e - 53) (3 - 1024 - 53) - e) with 0 by lia.
  simpl. rewrite Hm.
  replace (Z.max (53 + e - 53) (3 - 1024 - 53) - e) with 0 by lia.
  simpl. destruct (Z.leb_spec e (1024 - 53)); [reflexivity | lia].
Qed.

(** The Number of a safe integer is that integer. *)
Lemma integer_value_lit k :
  safe_integer k = true -> integer_value (lit k) = Some k.
Proof.
  unfold safe_integer. intros Hk. apply Z.ltb_lt in Hk.
  assert (Hround : forall s p, Zpos p < 2 ^ 53 ->
            integer_value (binary_round prec emax s p 0)
            = Some (cond_Zopp s (Zpos p))).
  { intros s p Hp. unfold binary_round, fexp, emin.
    pose proof (digits2_pos_le p 53 ltac:(lia) Hp) as Hd.
    unfold prec, emax.
    replace (Z.max (Zpos (digits2_pos p) + 0 - 53) (3 - 1024 - 53))
      with (Zpos (digits2_pos p) - 53) by lia.
    unfold shl_align.
    destruct (Zpos (digits2_pos p) - 53 - 0) as [|d|d] eqn:Hsub; [| lia |].
    - rewrite binary_round_aux_exact by (unfold prec; lia).
      simpl. f_equal. f_equal. lia.
    - rewrite binary_round_aux_exact;
        [| rewrite iter_xO_digits; unfold prec; lia | lia].
      unfold integer_value.
      destruct (Z.leb_spec 0 (Zpos (digits2_pos p) - 53)); [lia |].
      replace (- (Zpos (digits2_pos p) - 53)) with (Zpos d) by lia.
      rewrite iter_xO_value.
      rewrite Z.mod_mul by lia. simpl (0 =? 0).
      rewrite Z.div_mul by lia. reflexivity. }
  unfold lit, binary_normalize. destruct k as [|p|p].
  - reflexivity.
  - apply (Hround false). lia.
  - apply (Hround true). lia.
Qed.

End NumberFacts.

Section ToStringFacts.
Context {browser : Browser}.

(** An integer-valued Number in the safe range prints as its decimal. *)
Lemma Number_toString_integer x n :
  integer_value x = Some n -> safe_integer n = true ->
  Number_toString x = pretty n.
Proof.
  intros Hx Hn. unfold Number_toString.
  destruct x as [s|s| |s m e]; try discriminate; by rewrite Hx, Hn.
Qed.

(** [ceilZ] is the ceiling: the least integer that is not below the value
    [±m * 2^e]. *)
Lemma ceilZ_ceiling s m e k :
  ceilZ (S754_finite s m e) = Some k ->
  if 0 <=? e then k = cond_Zopp s (Zpos m * 2 ^ e)
  else (k - 1) * 2 ^ (- e) < cond_Zopp s (Zpos m) <= k * 2 ^ (- e).
Proof.
  unfold ceilZ. destruct (Z.leb_spec 0 e) as [He|He]; [congruence |].
  intros [= <-].
  assert (Hd : 0 < 2 ^ (- e)) by (apply Z.pow_pos_nonneg; lia).
  pose proof (Z.div_mod (Zpos m) (2 ^ (- e)) ltac:(lia)) as Hdm.
  pose proof (Z.mod_pos_bound (Zpos m) (2 ^ (- e)) Hd) as Hmod.
  destruct s; simpl cond_Zopp.
  - nia.
  - destruct (Z.eqb_spec (Zpos m mod 2 ^ (- e)) 0) as [H0|H0]; nia.
Qed.

(** [Math.ceil] returns the Number of the ceiling. *)
Lemma integer_value_ceil x k :
  ceilZ x = Some k -> safe_integer k = true ->
  integer_value (Math_ceil x) = Some k.
Proof.
  intros Hc Hk. destruct x as [s|s| |s m e]; try discriminate.
  - exact Hc.
  - unfold Math_ceil. destruct (Z.leb_spec 0 e) as [He|He].
    + unfold ceilZ in Hc. unfold integer_value.
      destruct (Z.leb_spec 0 e); [exact Hc | lia].
    + rewrite Hc. destruct k as [|p|p]; [reflexivity | |];
        by apply integer_value_lit.
Qed.

Lemma Number_toString_ceil x k :
  ceilZ x = Some k -> safe_integer k = true ->
  Number_toString (Math_ceil x) = pretty k.
Proof.
  intros Hc Hk. apply Number_toString_integer; [|done].
  by apply integer_value_ceil.
Qed.

End ToStringFacts.

(** [rtt_0_0235] is the binary64 value nearest to 0.0235: it is in
    canonical form and within half a unit in the last place of
    235/10000. *)
Lemma rtt_0_0235_nearest :
  valid_binary prec emax rtt_0_0235 = true /\
  2 * Z.abs (10000 * 6773413839565226 - 235 * 2 ^ 58) <= 10000.
Proof. split; [reflexivity | vm_compute; discriminate]. Qed.

(** In binary64, [0.0235 * 1000] is 23.5, and its ceiling is 24. *)
Lemma rtt_0_0235_millis :
  mul rtt_0_0235 (lit 1000) = S754_finite false 6614661952700416 (-48) /\
  2 * 6614661952700416 = 47 * 2 ^ 48 /\
  ceilZ (mul rtt_0_0235 (lit 1000)) = Some 24.
Proof. repeat split; reflexivity. Qed.
(** ** The document *)

Section PanelFacts.
Context {browser : Browser} {imports : Imports}.
Implicit Types (this : StatsPanel) (h : handle) (i j t : string)
  (v : option string).

Lemma update_element_statsMap h f this :
  statsMap (update_element h f this) = statsMap this.
Proof. unfold update_element. by destruct (document this !! h). Qed.

Lemma update_element_config h f this :
  _config (update_element h f this) = _config this.
Proof. unfold update_element. by destruct (document this !! h). Qed.

Lemma update_element_length h f this :
  length (document (update_element h f this)) = length (document this).
Proof.
  unfold update_element. destruct (document this !! h); [|reflexivity].
  simpl. apply length_insert.
Qed.

Lemma update_element_lookup h f this h' :
  document (update_element h f this) !! h' =
  if decide (h = h') then f <$> document this !! h else document this !! h'.
Proof.
  unfold update_element. destruct (document this !! h) as [el|] eqn:Hel.
  - simpl. case_decide as Hh.
    + subst h'. apply list_lookup_insert_eq. by eapply lookup_lt_Some.
    + by apply list_lookup_insert_ne.
  - case_decide as Hh; [by subst h' | reflexivity].
Qed.

(** An update that keeps the text of the element keeps every text. *)
Lemma text_update_keep h f this h' :
  (forall el, innerHTML (f el) = innerHTML el) ->
  innerHTML <$> document (update_element h f this) !! h' =
  innerHTML <$> document this !! h'.
Proof.
  intros Hf. rewrite update_element_lookup. case_decide as Hh; [|reflexivity].
  subst h'. destruct (document this !! h); simpl; [by rewrite Hf | reflexivity].
Qed.

Lemma text_update_other h html this h' :
  h <> h' ->
  innerHTML <$> document (update_element h (set_innerHTML html) this) !! h' =
  innerHTML <$> document this !! h'.
Proof.
  intros Hh. rewrite update_element_lookup. by case_decide.
Qed.

Lemma text_update_set h html this :
  (h < length (document this))%nat ->
  innerHTML <$> document (update_element h (set_innerHTML html) this) !! h =
  Some html.
Proof.
  intros Hh. rewrite update_element_lookup. case_decide; [|done].
  destruct (document this !! h) as [el|] eqn:Hel; [reflexivity |].
  apply lookup_ge_None in Hel. lia.
Qed.

(** ** [addOrUpdateStat] *)

Lemma addOrUpdateStat_disabled i t v this :
  enabled this = false -> addOrUpdateStat i t v this = this.
Proof. unfold enabled, addOrUpdateStat. by intros ->. Qed.

(** The update path: only the text of the entry's element changes. *)
Lemma addOrUpdateStat_update i t v this s :
  enabled this = true -> Map_get (statsMap this) i = Some s ->
  addOrUpdateStat i t v this =
  update_element (element s) (set_innerHTML (statHTML t v)) this.
Proof.
  unfold enabled, addOrUpdateStat, Map_has. by intros -> ->.
Qed.

(** The creation path: a new entry at the end, rendered in a new element;
    the elements that were there keep their text. *)
Lemma addOrUpdateStat_create i t v this :
  enabled this = true -> Map_has (statsMap this) i = false ->
  let this' := addOrUpdateStat i t v this in
  statsMap this' =
    statsMap this ++
    [(i, {| id := i; title := t; stat := v;
            element := length (document this) |})] /\
  _config this' = _config this /\
  (length (document this) < length (document this'))%nat /\
  (forall h, (h < length (document this))%nat ->
     innerHTML <$> document this' !! h = innerHTML <$> document this !! h) /\
  innerHTML <$> document this' !! length (document this) = Some (statHTML t v).
Proof.
  intros Hen Hhas. unfold addOrUpdateStat. unfold enabled in Hen.
  rewrite Hen, Hhas. simpl.
  set (el := length (document this)).
  set (this1 := update_element el _ _).
  assert (Hlen1 : length (document this1) = S el).
  { unfold this1. rewrite update_element_length. simpl.
    rewrite length_app. simpl. unfold el. lia. }
  assert (Hold1 : forall h, (h < el)%nat ->
            innerHTML <$> document this1 !! h = innerHTML <$> document this !! h).
  { intros h Hh. unfold this1. rewrite text_update_other by lia.
    simpl. by rewrite lookup_app_l. }
  assert (Hnew1 : innerHTML <$> document this1 !! el = Some (statHTML t v)).
  { unfold this1. apply text_update_set. simpl. rewrite length_app. simpl.
    unfold el. lia. }
  assert (Hmap1 : statsMap this1 = statsMap this).
  { unfold this1. by rewrite update_element_statsMap. }
  assert (Hcfg1 : _config this1 = _config this).
  { unfold this1. by rewrite update_element_config. }
  clearbody this1.
  unfold statsResult. destruct (_statsResult this1) as [res|] eqn:Hres; simpl.
  - rewrite update_element_statsMap, update_element_config,
      update_element_length, Hmap1, Hcfg1, Hlen1.
    rewrite (Map_set_fresh _ _ _ Hhas).
    repeat split; [lia | |].
    + intros h Hh. rewrite text_update_keep by done. by apply Hold1.
    + by rewrite text_update_keep.
  - rewrite !update_element_statsMap, !update_element_config,
      !update_element_length. simpl.
    rewrite Hmap1, Hcfg1, length_app, Hlen1. simpl.
    rewrite (Map_set_fresh _ _ _ Hhas).
    repeat split; [lia | |].
    + intros h Hh. rewrite !text_update_keep by done. simpl.
      rewrite lookup_app_l by lia. by apply Hold1.
    + rewrite !text_update_keep by done. simpl.
      rewrite lookup_app_l by lia. done.
Qed.


Lemma addOrUpdateStat_config i t v this :
  _config (addOrUpdateStat i t v this) = _config this.
Proof.
  destruct (enabled this) eqn:Hen; [|by rewrite addOrUpdateStat_disabled].
  destruct (Map_get (statsMap this) i) as [s|] eqn:Hget.
  - rewrite (addOrUpdateStat_update _ _ _ _ s) by done.
    apply update_element_config.
  - apply Map_get_None in Hget.
    by destruct (addOrUpdateStat_create i t v this Hen Hget) as (_ & ? & _).
Qed.

Lemma addOrUpdateStat_enabled i t v this :
  enabled (addOrUpdateStat i t v this) = enabled this.
Proof. unfold enabled. by rewrite addOrUpdateStat_config. Qed.

(** The registry after an upsert: the same entries, and one more at the
    end when the section is enabled and the id is new. *)
Lemma addOrUpdateStat_statsMap i t v this :
  statsMap (addOrUpdateStat i t v this) =
  if enabled this && negb (Map_has (statsMap this) i)
  then statsMap this ++
       [(i, {| id := i; title := t; stat := v;
               element := length (document this) |})]
  else statsMap this.
Proof.
  destruct (enabled this) eqn:Hen; [|by rewrite addOrUpdateStat_disabled].
  destruct (Map_get (statsMap this) i) as [s|] eqn:Hget.
  - rewrite (addOrUpdateStat_update _ _ _ _ s) by done.
    unfold Map_has. rewrite Hget. apply update_element_statsMap.
  - apply Map_get_None in Hget. rewrite Hget.
    by destruct (addOrUpdateStat_create i t v this Hen Hget) as (? & _).
Qed.

Lemma addOrUpdateStat_ids i t v this :
  ids (addOrUpdateStat i t v this) =
  if enabled this && negb (Map_has (statsMap this) i)
  then ids this ++ [i] else ids this.
Proof.
  unfold ids. rewrite addOrUpdateStat_statsMap.
  destruct (enabled this && negb (Map_has (statsMap this) i));
    [|reflexivity].
  unfold Map_keys. by rewrite map_app.
Qed.

Lemma addOrUpdateStat_length i t v this :
  (length (document this) <= length (document (addOrUpdateStat i t v this)))%nat.
Proof.
  destruct (enabled this) eqn:Hen; [|by rewrite addOrUpdateStat_disabled].
  destruct (Map_get (statsMap this) i) as [s|] eqn:Hget.
  - rewrite (addOrUpdateStat_update _ _ _ _ s) by done.
    by rewrite update_element_length.
  - apply Map_get_None in Hget.
    destruct (addOrUpdateStat_create i t v this Hen Hget) as (_ & _ & ? & _).
    lia.
Qed.

(** ** The invariant *)

Lemma wf_new config doc : wf (constructor config doc).
Proof. split; simpl; constructor. Qed.

Lemma wf_grow this this' :
  statsMap this' = statsMap this ->
  (length (document this) <= length (document this'))%nat ->
  wf this -> wf this'.
Proof.
  intros Hmap Hlen [Ha Hs Hk Hi]. split; unfold ids; rewrite Hmap; try done.
  eapply Forall_impl; [exact Ha |]. simpl. intros kv Hkv. lia.
Qed.

Lemma wf_addOrUpdateStat i t v this :
  wf this -> wf (addOrUpdateStat i t v this).
Proof.
  intros Hwf.
  pose proof (addOrUpdateStat_statsMap i t v this) as Hmap.
  pose proof (addOrUpdateStat_length i t v this) as Hlen.
  destruct (enabled this && negb (Map_has (statsMap this) i)) eqn:Hc;
    [|by eapply wf_grow].
  apply andb_true_iff in Hc as [Hen Hhas]. apply negb_true_iff in Hhas.
  destruct (addOrUpdateStat_create i t v this Hen Hhas) as (_ & _ & Hlt & _).
  destruct Hwf as [Ha Hs Hk Hi].
  split; unfold ids; rewrite Hmap.
  - apply Forall_app. split.
    + eapply Forall_impl; [exact Ha |]. simpl. intros kv Hkv. lia.
    + by repeat constructor.
  - rewrite map_app. simpl. apply NoDup_app. split; [done |]. split.
    + intros h Hin Hnew. apply list_elem_of_singleton in Hnew. subst h.
      apply list_elem_of_In, in_map_iff in Hin as (kv & Hkv & Hin).
      apply list_elem_of_In in Hin.
      rewrite Forall_forall in Ha. specialize (Ha kv Hin). simpl in Ha. lia.
    + apply NoDup_singleton.
  - unfold Map_keys. rewrite map_app. simpl.
    apply NoDup_app. split; [done |]. split; [|apply NoDup_singleton].
    intros k Hin Hnew. apply list_elem_of_singleton in Hnew. subst k.
    by apply Map_has_false in Hhas.
  - apply Forall_app. split; [done | by repeat constructor].
Qed.

(** Two entries under different keys are rendered in different elements. *)
Lemma wf_elements_apart this i j s s' :
  wf this -> i <> j ->
  Map_get (statsMap this) i = Some s -> Map_get (statsMap this) j = Some s' ->
  element s <> element s'.
Proof.
  intros [_ Hs _ _] Hij Hi Hj.
  apply Map_get_In in Hi. apply Map_get_In in Hj.
  revert Hs Hi Hj. generalize (statsMap this) as m.
  induction m as [|kv m IH]; intros Hs Hi Hj; [inversion Hi |].
  simpl in Hs. apply NoDup_cons in Hs as [Hfresh Hs].
  assert (Hmem : forall k x, (k, x) ∈ m ->
            element x ∈ map (fun kv => element kv.2) m).
  { intros k x Hin. apply list_elem_of_In, in_map_iff.
    exists (k, x). split; [done | by apply list_elem_of_In]. }
  apply elem_of_cons in Hi as [Hi|Hi]; apply elem_of_cons in Hj as [Hj|Hj].
  - congruence.
  - subst kv. simpl in Hfresh. intros Heq. apply Hfresh. rewrite Heq.
    by eapply Hmem.
  - subst kv. simpl in Hfresh. intros Heq. apply Hfresh. rewrite <- Heq.
    by eapply Hmem.
  - by apply IH.
Qed.

Lemma wf_element_allocated this i s :
  wf this -> Map_get (statsMap this) i = Some s ->
  (element s < length (document this))%nat.
Proof.
  intros [Ha _ _ _] Hi. apply Map_get_In in Hi.
  rewrite Forall_forall in Ha. by apply (Ha (i, s)).
Qed.

Lemma displayed_text this i :
  displayed this i =
  s ← Map_get (statsMap this) i; innerHTML <$> document this !! element s.
Proof.
  unfold displayed. destruct (Map_get (statsMap this) i) as [s|]; simpl;
    [|reflexivity].
  by destruct (document this !! element s).
Qed.

(** In a good state an id shows a text exactly when it is in the map. *)
Lemma wf_displayed_None this i :
  wf this -> displayed this i = None <-> Map_has (statsMap this) i = false.
Proof.
  intros Hwf. rewrite <- Map_get_None, displayed_text.
  destruct (Map_get (statsMap this) i) as [s|] eqn:Hget; simpl; [|done].
  pose proof (wf_element_allocated _ _ _ Hwf Hget) as Hlt.
  destruct (document this !! element s) eqn:Hel; simpl; [done |].
  apply lookup_ge_None in Hel. lia.
Qed.

(** An upsert makes its id show the label and the value. *)
Lemma addOrUpdateStat_displayed i t v this :
  wf this -> enabled this = true ->
  displayed (addOrUpdateStat i t v this) i = Some (statHTML t v).
Proof.
  intros Hwf Hen. rewrite displayed_text.
  destruct (Map_get (statsMap this) i) as [s|] eqn:Hget.
  - rewrite (addOrUpdateStat_update _ _ _ _ s) by done.
    rewrite update_element_statsMap, Hget. simpl.
    apply text_update_set. by eapply wf_element_allocated.
  - apply Map_get_None in Hget.
    destruct (addOrUpdateStat_create i t v this Hen Hget)
      as (Hmap & _ & _ & _ & Hnew).
    rewrite Hmap, Map_get_app.
    apply Map_get_None in Hget. rewrite Hget. simpl.
    rewrite String.eqb_refl. simpl. exact Hnew.
Qed.

(** An upsert leaves what the other ids show as it was. *)
Lemma addOrUpdateStat_displayed_other i j t v this :
  wf this -> i <> j ->
  displayed (addOrUpdateStat i t v this) j = displayed this j.
Proof.
  intros Hwf Hij.
  destruct (enabled this) eqn:Hen; [|by rewrite addOrUpdateStat_disabled].
  rewrite !displayed_text.
  destruct (Map_get (statsMap this) i) as [s|] eqn:Hget.
  - rewrite (addOrUpdateStat_update _ _ _ _ s) by done.
    rewrite update_element_statsMap.
    destruct (Map_get (statsMap this) j) as [s'|] eqn:Hj; simpl; [|done].
    apply text_update_other. by eapply wf_elements_apart.
  - apply Map_get_None in Hget.
    destruct (addOrUpdateStat_create i t v this Hen Hget)
      as (Hmap & _ & _ & Hold & _).
    rewrite Hmap, Map_get_app.
    destruct (Map_get (statsMap this) j) as [s'|] eqn:Hj; simpl.
    + apply Hold. by eapply wf_element_allocated.
    + destruct (String.eqb_spec i j); [congruence | reflexivity].
Qed.

End PanelFacts.

(** ** Reasoning about methods *)

Section Methods.
Context {browser : Browser} {imports : Imports}.
Implicit Types (this : StatsPanel) (i j t : string) (v : option string)
  (P Q R : StatsPanel -> Prop).

Lemma hoare_skip P : hoare P skip P.
Proof. by intros this. Qed.

Lemma hoare_seq P R Q a b : hoare P a R -> hoare R b Q -> hoare P (seq a b) Q.
Proof. intros Ha Hb this HP. apply Hb, Ha, HP. Qed.

Lemma hoare_when P c a : hoare P a P -> hoare P (when c a) P.
Proof. intros Ha. destruct c; [exact Ha | apply hoare_skip]. Qed.

Lemma when_true a : when true a = a.
Proof. reflexivity. Qed.

Lemma when_false a : when false a = skip.
Proof. reflexivity. Qed.

(** Walks through a handler whose every upsert keeps [P]. *)
Ltac keep_invariant Hupsert :=
  repeat first [ apply Hupsert | apply hoare_when | eapply hoare_seq ].

Lemma hoare_handlePlayerCount P n :
  (forall i t v, hoare P (addOrUpdateStat i t v) P) ->
  hoare P (handlePlayerCount n) P.
Proof. intros Hu. apply Hu. Qed.

Lemma hoare_handleStats P stats :
  (forall i t v, hoare P (addOrUpdateStat i t v) P) ->
  hoare P (handleStats stats) P.
Proof. intros Hu. unfold handleStats. keep_invariant Hu. Qed.

Lemma hoare_handleLatencyInfo P info :
  (forall i t v, hoare P (addOrUpdateStat i t v) P) ->
  hoare P (handleLatencyInfo info) P.
Proof. intros Hu. unfold handleLatencyInfo. keep_invariant Hu. Qed.

(** What every upsert keeps, every operation keeps. *)
Lemma hoare_exec P o :
  (forall i t v, hoare P (addOrUpdateStat i t v) P) -> hoare P (exec o) P.
Proof.
  intros Hu. destruct o; simpl.
  - by apply hoare_handlePlayerCount.
  - by apply hoare_handleStats.
  - by apply hoare_handleLatencyInfo.
  - apply Hu.
Qed.

Lemma hoare_run P calls :
  (forall i t v, hoare P (addOrUpdateStat i t v) P) -> hoare P (run calls) P.
Proof.
  intros Hu. unfold run. induction calls as [|[[i t] v] calls IH];
    intros this HP; simpl; [exact HP |].
  apply IH. by apply Hu.
Qed.

(** ** Reachable states are good states *)

Lemma statsResult_statsMap this : statsMap (statsResult this).2 = statsMap this.
Proof.
  unfold statsResult. destruct (_statsResult this); simpl; [reflexivity |].
  by rewrite !update_element_statsMap.
Qed.

Lemma statsResult_length this :
  (length (document this) <= length (document (statsResult this).2))%nat.
Proof.
  unfold statsResult. destruct (_statsResult this); simpl; [lia |].
  rewrite !update_element_length. simpl. rewrite length_app. lia.
Qed.

Lemma reachable_wf this : reachable this -> wf this.
Proof.
  induction 1 as [config doc | o this _ IH | this _ IH | this _ IH].
  - apply wf_new.
  - revert IH. apply hoare_exec. intros i t v p. apply wf_addOrUpdateStat.
  - apply (wf_grow this); [apply statsResult_statsMap
                          | apply statsResult_length | exact IH].
  - apply (wf_grow this); [reflexivity | | exact IH].
    simpl. rewrite length_app. lia.
Qed.

(** ** What an id shows across an upsert *)

Lemma upsert_shows i t v d :
  hoare (shows i d) (addOrUpdateStat i t v) (shows i (Some (statHTML t v))).
Proof.
  intros this (Hwf & Hen & _). split; [by apply wf_addOrUpdateStat |].
  split; [by rewrite addOrUpdateStat_enabled |].
  by apply addOrUpdateStat_displayed.
Qed.

Lemma upsert_shows_other i j t v d :
  i <> j -> hoare (shows j d) (addOrUpdateStat i t v) (shows j d).
Proof.
  intros Hij this (Hwf & Hen & Hd). split; [by apply wf_addOrUpdateStat |].
  split; [by rewrite addOrUpdateStat_enabled |].
  by rewrite addOrUpdateStat_displayed_other.
Qed.

(** ** The registry only grows *)

Lemma extends_refl this : extends this this.
Proof. exists []. by rewrite app_nil_r. Qed.

Lemma upsert_extends old i t v :
  hoare (extends old) (addOrUpdateStat i t v) (extends old).
Proof.
  intros this [added Hadd]. unfold extends.
  rewrite addOrUpdateStat_statsMap.
  destruct (enabled this && negb (Map_has (statsMap this) i)).
  - eexists. by rewrite Hadd, <- app_assoc.
  - by exists added.
Qed.

Lemma extends_ids old this j : extends old this -> j ∈ ids old -> j ∈ ids this.
Proof.
  intros [added Hadd] Hj. unfold ids, Map_keys. rewrite Hadd, map_app.
  apply elem_of_app. by left.
Qed.

Lemma extends_get old this j s :
  extends old this -> Map_get (statsMap old) j = Some s ->
  Map_get (statsMap this) j = Some s.
Proof. intros [added Hadd] Hj. by rewrite Hadd, Map_get_app, Hj. Qed.

(** ** Sequences of upserts *)

Lemma run_cons i t v calls this :
  run ((i, t, v) :: calls) this = run calls (addOrUpdateStat i t v this).
Proof. reflexivity. Qed.

Lemma run_disabled calls this : enabled this = false -> run calls this = this.
Proof.
  intros Hen. pose proof (hoare_run (fun p => p = this) calls) as Hrun.
  apply Hrun; [|reflexivity].
  intros i t v p ->. by apply addOrUpdateStat_disabled.
Qed.

Lemma elem_of_first_occurrences l x : x ∈ first_occurrences l <-> x ∈ l.
Proof.
  induction l as [|y l IH]; simpl; [done |].
  rewrite !elem_of_cons, list_elem_of_filter, IH.
  destruct (decide (x = y)) as [->|Hne]; [split; intros _; by left | tauto].
Qed.

Lemma NoDup_first_occurrences l : NoDup (first_occurrences l).
Proof.
  induction l as [|y l IH]; simpl; [constructor |].
  apply NoDup_cons. split; [|by apply NoDup_filter].
  rewrite list_elem_of_filter. intros [Hne _]. by apply Hne.
Qed.

(** The ids after a sequence of upserts: those that were there, then the
    new ones in the order of their first upsert. *)
Lemma run_ids calls this :
  enabled this = true ->
  ids (run calls this) =
  ids this ++ filter (fun y => y ∉ ids this) (first_occurrences (call_ids calls)).
Proof.
  revert this. induction calls as [|[[i t] v] calls IH]; intros this Hen.
  - simpl. by rewrite app_nil_r.
  - rewrite run_cons, IH; [|by rewrite addOrUpdateStat_enabled].
    rewrite addOrUpdateStat_ids, Hen. simpl.
    rewrite filter_cons.
    destruct (Map_has (statsMap this) i) eqn:Hhas; simpl.
    + apply Map_has_true in Hhas. fold (ids this) in Hhas.
      destruct (decide (i ∉ ids this)) as [Hn|_]; [done |].
      f_equal. rewrite list_filter_filter. apply list_filter_iff.
      intros y. split; [|tauto]. intros Hy. split; [done | congruence].
    + apply Map_has_false in Hhas. fold (ids this) in Hhas.
      destruct (decide (i ∉ ids this)) as [_|Hn]; [|done].
      rewrite <- app_assoc. simpl. do 2 f_equal.
      rewrite list_filter_filter. apply list_filter_iff.
      intros y. rewrite not_elem_of_app, list_elem_of_singleton. tauto.
Qed.

(** Upserts of ids that are all there already leave the order alone. *)
Lemma run_ids_present calls this :
  (forall x, x ∈ call_ids calls -> x ∈ ids this) ->
  ids (run calls this) = ids this.
Proof.
  intros Hin. destruct (enabled this) eqn:Hen; [|by rewrite run_disabled].
  rewrite run_ids; [|done].
  assert (Hall : forall y, y ∈ first_occurrences (call_ids calls) ->
            y ∈ ids this).
  { intros y Hy. by apply Hin, elem_of_first_occurrences. }
  induction (first_occurrences (call_ids calls)) as [|y l IH]; simpl.
  - by rewrite app_nil_r.
  - rewrite filter_cons. destruct (decide (y ∉ ids this)) as [Hn|_].
    + exfalso. apply Hn, Hall. left.
    + apply IH. intros z Hz. apply Hall. by right.
Qed.

End Methods.

(** Walks through a handler, following what one id shows: the upsert of
    that id sets it, the others keep it. *)
Ltac show_steps :=
  repeat match goal with
  | |- hoare _ (seq _ _) _ => eapply hoare_seq
  | |- hoare _ (when _ _) _ => apply hoare_when
  | |- hoare _ skip _ => apply hoare_skip
  | |- hoare _ (addOrUpdateStat _ _ _) _ =>
      first [ apply upsert_shows_other; discriminate | apply upsert_shows ]
  end.

(** ** The registry *)

Section Registry.
Context {browser : Browser} {imports : Imports}.
Implicit Types (this : StatsPanel) (i j t : string) (v : option string).

Lemma update_element_same h f this el :
  document this !! h = Some el -> f el = el -> update_element h f this = this.
Proof.
  intros Hel Hf. unfold update_element. rewrite Hel, Hf.
  rewrite list_insert_id by done. by destruct this.
Qed.

Lemma update_element_twice h f this :
  (forall el, f (f el) = f el) ->
  update_element h f (update_element h f this) = update_element h f this.
Proof.
  intros Hf. destruct (document (update_element h f this) !! h) as [el|] eqn:Hel.
  - apply (update_element_same _ _ _ el); [done |].
    rewrite update_element_lookup in Hel. case_decide; [|done].
    destruct (document this !! h); simpl in Hel; [|done].
    injection Hel as <-. apply Hf.
  - unfold update_element at 1. by rewrite Hel.
Qed.

(** X19: what an upsert does to the registry and to the document, with
    the session-stats section enabled. For a present id nothing is
    created: the registry is the same map (the same entries with the
    same elements, in the same order), the results container is the
    same, and the document is the same but for the element of the entry,
    which is given the text "title: value" in place and keeps its id,
    its classes and its children. For an absent id a new [Stat] carrying
    the id, the title and the value is appended at the end of the
    iteration order, rendered in a new element that shows
    "title: value", and the elements that were there keep their text.
    Either way the id shows "title: value" and the other ids show what
    they showed. *)
Theorem addOrUpdateStat_upsert this i t v :
  reachable this -> enabled this = true ->
  match Map_get (statsMap this) i with
  | Some s =>
      statsMap (addOrUpdateStat i t v this) = statsMap this /\
      _statsResult (addOrUpdateStat i t v this) = _statsResult this /\
      exists el,
        document this !! element s = Some el /\
        document (addOrUpdateStat i t v this)
        = <[element s := set_innerHTML (t +:+ ": " +:+ interpolate v) el]>
            (document this)
  | None =>
      statsMap (addOrUpdateStat i t v this) =
        statsMap this ++
        [(i, {| id := i; title := t; stat := v;
                element := length (document this) |})] /\
      (length (document this)
         < length (document (addOrUpdateStat i t v this)))%nat /\
      innerHTML <$>
        document (addOrUpdateStat i t v this) !! length (document this)
        = Some (t +:+ ": " +:+ interpolate v) /\
      (forall h, (h < length (document this))%nat ->
         innerHTML <$> document (addOrUpdateStat i t v this) !! h
         = innerHTML <$> document this !! h)
  end /\
  displayed (addOrUpdateStat i t v this) i
    = Some (t +:+ ": " +:+ interpolate v) /\
  (forall j, j <> i ->
     displayed (addOrUpdateStat i t v this) j = displayed this j).
Proof.
  intros Hreach Hen. apply reachable_wf in Hreach. split; [|split].
  - destruct (Map_get (statsMap this) i) as [s|] eqn:Hget.
    + rewrite (addOrUpdateStat_update i t v this s) by done.
      pose proof (wf_element_allocated _ _ _ Hreach Hget) as Hlt.
      unfold update_element, statHTML.
      destruct (document this !! element s) as [el|] eqn:Hel.
      * repeat split. by exists el.
      * apply lookup_ge_None in Hel. lia.
    + apply Map_get_None in Hget.
      destruct (addOrUpdateStat_create i t v this Hen Hget)
        as (Hmap & _ & Hlen & Hold & Hnew).
      repeat split; done.
  - by apply addOrUpdateStat_displayed.
  - intros j Hj. apply addOrUpdateStat_displayed_other; [done | congruence].
Qed.

(** C4: a second [addOrUpdateStat] with the same id, title and value
    leaves the panel (the registry, its order, and the document) exactly
    as the first one left it. *)
Theorem addOrUpdateStat_idempotent this i t v :
  addOrUpdateStat i t v (addOrUpdateStat i t v this)
  = addOrUpdateStat i t v this.
Proof.
  destruct (enabled this) eqn:Hen;
    [|rewrite (addOrUpdateStat_disabled i t v this Hen);
      by apply addOrUpdateStat_disabled].
  destruct (Map_get (statsMap this) i) as [s|] eqn:Hget.
  - rewrite (addOrUpdateStat_update i t v this s) by done.
    rewrite (addOrUpdateStat_update i t v _ s).
    + by apply update_element_twice.
    + unfold enabled. by rewrite update_element_config.
    + by rewrite update_element_statsMap.
  - apply Map_get_None in Hget.
    destruct (addOrUpdateStat_create i t v this Hen Hget)
      as (Hmap & Hcfg & _ & _ & Hnew).
    set (this' := addOrUpdateStat i t v this) in *.
    destruct (document this' !! length (document this)) as [el|] eqn:Hel;
      [|discriminate].
    injection Hnew as Hnew.
    rewrite (addOrUpdateStat_update i t v this'
               {| id := i; title := t; stat := v;
                  element := length (document this) |}).
    + apply (update_element_same _ _ _ el); [exact Hel |].
      destruct el. simpl in Hnew. by subst.
    + unfold enabled. by rewrite Hcfg.
    + rewrite Hmap, Map_get_app.
      apply Map_get_None in Hget. rewrite Hget. simpl.
      by rewrite String.eqb_refl.
Qed.

(** C5: the iteration order of the registry is the order in which the
    ids were first inserted: from a new panel, the ids after a sequence of
    calls are the ids of the calls in the order of their first occurrence
    (none at all when the section is disabled); and once the order is
    [a; b; c], updates of [a] and [b] leave it [a; b; c]. *)
Theorem iteration_order_is_first_insertion_order
    config doc calls this a b c updates :
  ids (run calls (constructor config doc)) =
    (if isSectionEnabled config SessionStats
     then first_occurrences (call_ids calls) else []) /\
  (ids this = [a; b; c] ->
   Forall (fun x => x = a \/ x = b) (call_ids updates) ->
   ids (run updates this) = [a; b; c]).
Proof.
  split.
  - destruct (isSectionEnabled config SessionStats) eqn:Hen.
    + rewrite run_ids by exact Hen. simpl.
      induction (first_occurrences (call_ids calls)) as [|y l IH];
        [reflexivity |].
      rewrite filter_cons. destruct (decide (y ∉ [])) as [_|Hn].
      * by rewrite IH.
      * exfalso. apply Hn. apply not_elem_of_nil.
    + by rewrite run_disabled.
  - intros Hids Hupd. rewrite run_ids_present; [exact Hids |].
    intros x Hx. rewrite Forall_forall in Hupd.
    rewrite Hids. destruct (Hupd x Hx) as [->| ->].
    + left.
    + right. left.
Qed.

(** C9: no operation removes an id from the registry or rewrites the id
    of an entry: after any operation, in any state, every id is still
    there and its entry carries the id it carried. *)
Theorem ids_grow_monotonically o this :
  (forall j, j ∈ ids this -> j ∈ ids (exec o this)) /\
  (forall j s, Map_get (statsMap this) j = Some s ->
     exists s', Map_get (statsMap (exec o this)) j = Some s' /\ id s' = id s).
Proof.
  assert (Hext : extends this (exec o this)).
  { apply (hoare_exec (extends this)); [|apply extends_refl].
    intros i t v. apply upsert_extends. }
  split.
  - intros j. by apply extends_ids.
  - intros j s Hj. exists s. split; [|reflexivity].
    by apply (extends_get this).
Qed.

(** C2: with the session-stats section disabled, [handleStats] and
    [handleLatencyInfo] leave the panel as it is: the registry gets no
    entry and no element changes its text. *)
Theorem disabled_section_is_a_no_op this stats latencyInfo :
  enabled this = false ->
  handleStats stats this = this /\ handleLatencyInfo latencyInfo this = this.
Proof.
  intros Hen.
  assert (Hu : forall i t v,
            hoare (fun p => p = this) (addOrUpdateStat i t v) (fun p => p = this)).
  { intros i t v p ->. by apply addOrUpdateStat_disabled. }
  split.
  - by apply (hoare_handleStats (fun p => p = this)).
  - by apply (hoare_handleLatencyInfo (fun p => p = this)).
Qed.

(** C1, as amended: the upsert of the player count is subject to the
    section check of [addOrUpdateStat]. With the session-stats section
    enabled,
    [handlePlayerCount] makes 'PlayerCountStat' show the decimal string of
    the count (a safe integer), in a new entry holding that string when
    the id was not there; with the section disabled it does nothing. *)
Theorem handlePlayerCount_checks_section this playerCount n :
  reachable this ->
  integer_value playerCount = Some n -> safe_integer n = true ->
  if enabled this
  then displayed (handlePlayerCount playerCount this) "PlayerCountStat"
         = Some ("Players: " +:+ pretty n) /\
       (Map_has (statsMap this) "PlayerCountStat" = false ->
        Map_get (statsMap (handlePlayerCount playerCount this))
          "PlayerCountStat"
        = Some {| id := "PlayerCountStat"; title := "Players";
                  stat := Some (pretty n);
                  element := length (document this) |})
  else handlePlayerCount playerCount this = this.
Proof.
  intros Hreach Hint Hsafe. apply reachable_wf in Hreach.
  unfold handlePlayerCount.
  rewrite (Number_toString_integer _ _ Hint Hsafe).
  destruct (enabled this) eqn:Hen; [|by apply addOrUpdateStat_disabled].
  split.
  - by apply addOrUpdateStat_displayed.
  - intros Hhas. rewrite addOrUpdateStat_statsMap, Hen, Hhas. simpl.
    rewrite Map_get_app. apply Map_get_None in Hhas. by rewrite Hhas.
Qed.

End Registry.

(** ** String replacement *)

Section Replace.
Implicit Types (p r s a b : string).

Lemma String_replace_unfold p r s :
  String_replace p r s =
  if String.prefix p s
  then r +:+ String.substring (String.length p)
               (String.length s - String.length p)%nat s
  else match s with
       | EmptyString => EmptyString
       | String c s' => String c (String_replace p r s')
       end.
Proof. by destruct s. Qed.

Lemma prefix_append p b : String.prefix p (p +:+ b) = true.
Proof.
  induction p as [|c p IH]; simpl; [by destruct b |].
  by destruct (Ascii.ascii_dec c c).
Qed.

Lemma prefix_split p s : String.prefix p s = true -> exists b, s = p +:+ b.
Proof.
  revert s. induction p as [|c p IH]; intros s.
  - intros _. by exists s.
  - destruct s as [|c' s]; simpl; [done |].
    destruct (Ascii.ascii_dec c c') as [->|]; [|done].
    intros Hp. destruct (IH _ Hp) as [b ->]. by exists b.
Qed.

Lemma substring_all s : String.substring 0 (String.length s) s = s.
Proof. induction s as [|c s IH]; simpl; [reflexivity | by rewrite IH]. Qed.

Lemma substring_after p b :
  String.substring (String.length p)
    (String.length (p +:+ b) - String.length p)%nat (p +:+ b) = b.
Proof.
  induction p as [|c p IH]; simpl.
  - rewrite Nat.sub_0_r. apply substring_all.
  - exact IH.
Qed.

(** [replace] rewrites the first occurrence of the pattern. *)
Lemma String_replace_first p r s a b :
  occurs_first p a b s -> String_replace p r s = a +:+ r +:+ b.
Proof.
  revert s. induction a as [|c a IH]; intros s [-> Hmin].
  - change ("" +:+ p +:+ b) with (p +:+ b).
    change ("" +:+ r +:+ b) with (r +:+ b).
    rewrite String_replace_unfold, prefix_append.
    by rewrite substring_after.
  - change (String c a +:+ p +:+ b) with (String c (a +:+ p +:+ b)) in *.
    change (String c a +:+ r +:+ b) with (String c (a +:+ r +:+ b)).
    rewrite String_replace_unfold.
    destruct (String.prefix p (String c (a +:+ p +:+ b))) eqn:Hp.
    + apply prefix_split in Hp as [b' Hb'].
      specialize (Hmin "" b' Hb'). simpl in Hmin. lia.
    + f_equal. apply IH. split; [reflexivity |].
      intros a' b' Hs. specialize (Hmin (String c a') b').
      change (String c a' +:+ p +:+ b') with (String c (a' +:+ p +:+ b'))
        in Hmin.
      rewrite Hs in Hmin. specialize (Hmin eq_refl). simpl in Hmin. lia.
Qed.

(** Where the pattern does not occur, [replace] changes nothing. *)
Lemma String_replace_absent p r s :
  (forall a b, s <> a +:+ p +:+ b) -> String_replace p r s = s.
Proof.
  induction s as [|c s IH]; intros Habs; rewrite String_replace_unfold.
  - destruct (String.prefix p "") eqn:Hp; [|reflexivity].
    apply prefix_split in Hp as [b Hb]. by destruct (Habs "" b).
  - destruct (String.prefix p (String c s)) eqn:Hp.
    + apply prefix_split in Hp as [b Hb]. by destruct (Habs "" b).
    + f_equal. apply IH. intros a b ->. by apply (Habs (String c a) b).
Qed.

End Replace.

(** ** The handlers *)

Section Handlers.
Context {browser : Browser} {imports : Imports}.
Implicit Types (this : StatsPanel) (stats : AggregatedStats).

(** What [handleStats] leaves of a stat that it always upserts. *)
Lemma handleStats_RTT this stats :
  wf this -> enabled this = true ->
  displayed (handleStats stats this) "RTTStat"
  = Some (statHTML "Net RTT (ms)" (Some (netRTT stats))).
Proof.
  intros Hwf Hen.
  assert (Hh : hoare (shows "RTTStat" (displayed this "RTTStat"))
                 (handleStats stats)
                 (shows "RTTStat"
                    (Some (statHTML "Net RTT (ms)" (Some (netRTT stats)))))).
  { unfold handleStats. cbv zeta. show_steps. }
  by destruct (Hh this) as (_ & _ & Hd).
Qed.

(** C6: with the session-stats section enabled, [handleStats] makes 'RTTStat' show
    [ceil(currentRoundTripTime * 1000)] as a string when the active
    candidate pair has the field and it is a number, and "Can't calculate"
    otherwise, also when there is no active pair; the string is the
    decimal of the ceiling; and it is "24" for 0.0235 seconds. *)
Theorem handleStats_round_trip_time this stats :
  reachable this -> enabled this = true ->
  displayed (handleStats stats this) "RTTStat"
  = Some ("Net RTT (ms): " +:+
          match getActiveCandidatePair stats with
          | Some active =>
              match currentRoundTripTime active with
              | Some rtt =>
                  if isNumber rtt
                  then Number_toString (Math_ceil (mul rtt (lit 1000)))
                  else "Can't calculate"
              | None => "Can't calculate"
              end
          | None => "Can't calculate"
          end) /\
  (forall rtt k, ceilZ (mul rtt (lit 1000)) = Some k -> safe_integer k = true ->
     Number_toString (Math_ceil (mul rtt (lit 1000))) = pretty k) /\
  (getActiveCandidatePair stats
     = Some {| currentRoundTripTime := Some rtt_0_0235 |} ->
   isNumber rtt_0_0235 = true ->
   displayed (handleStats stats this) "RTTStat" = Some "Net RTT (ms): 24").
Proof.
  intros Hreach Hen. apply reachable_wf in Hreach.
  pose proof (handleStats_RTT this stats Hreach Hen) as Hd.
  split; [|split].
  - rewrite Hd. unfold statHTML, netRTT. simpl.
    by destruct (getActiveCandidatePair stats).
  - intros rtt k. apply Number_toString_ceil.
  - intros Hpair Hnum. rewrite Hd. unfold statHTML, netRTT.
    rewrite Hpair. cbn [currentRoundTripTime]. rewrite Hnum.
    rewrite (Number_toString_ceil _ 24) by reflexivity. reflexivity.
Qed.

(** C7: with the session-stats section enabled, [handleStats] upserts
    'PacketsLostStat' on every cycle: it shows the locale-formatted [packetsLost] when the
    inbound video stats have the field, and "Chrome only" when they do
    not. *)
Theorem handleStats_packets_lost this stats :
  reachable this -> enabled this = true ->
  displayed (handleStats stats this) "PacketsLostStat"
  = Some ("Packets Lost: " +:+
          match packetsLost (inboundVideoStats stats) with
          | Some n => numberFormat_format n
          | None => "Chrome only"
          end).
Proof.
  intros Hreach Hen. apply reachable_wf in Hreach.
  set (value := match packetsLost (inboundVideoStats stats) with
                | Some n => numberFormat_format n
                | None => "Chrome only"
                end).
  assert (Hh : hoare (shows "PacketsLostStat" (displayed this "PacketsLostStat"))
                 (handleStats stats)
                 (shows "PacketsLostStat"
                    (Some (statHTML "Packets Lost" (Some value))))).
  { unfold handleStats. cbv zeta. show_steps. }
  by destruct (Hh this) as (_ & _ & Hd).
Qed.

End Handlers.

Section Latency.
Context {browser : Browser} {imports : Imports}.
Implicit Types (this : StatsPanel) (latencyInfo : LatencyInfo).

Lemma untouched_intro this after i d :
  wf this -> displayed this i = d -> shows i d after -> untouched this after i.
Proof.
  intros Hwf Hd (Hwf' & _ & Hd'). split; [congruence |].
  pose proof (wf_displayed_None this i Hwf) as Hn.
  pose proof (wf_displayed_None after i Hwf') as Hn'.
  rewrite Hd in Hn. rewrite Hd' in Hn'.
  destruct (Map_has (statsMap after) i), (Map_has (statsMap this) i);
    try reflexivity; destruct d; intuition congruence.
Qed.

(** One block of [handleLatencyInfo], followed through the handler. *)
Ltac latency_block field this latencyInfo Hwf :=
  let x := fresh "x" in
  let Hf := fresh "Hf" in
  let Hgt := fresh "Hgt" in
  destruct (field latencyInfo) as [x|] eqn:Hf;
    [destruct (gt0 x) eqn:Hgt|];
  match goal with
  | |- displayed _ ?i = Some ?d =>
      assert (Hh : hoare (shows i (displayed this i))
                     (handleLatencyInfo latencyInfo) (shows i (Some d)));
      [ unfold handleLatencyInfo;
        repeat match goal with H : _ latencyInfo = Some _ |- _ =>
                 rewrite H end;
        cbn [latency_positive];
        repeat match goal with H : gt0 _ = true |- _ => rewrite H end;
        rewrite when_true; show_steps
      | by destruct (Hh this) as (_ & _ & Hd) ]
  | |- untouched this _ ?i =>
      assert (Hh : hoare (shows i (displayed this i))
                     (handleLatencyInfo latencyInfo)
                     (shows i (displayed this i)));
      [ unfold handleLatencyInfo;
        repeat match goal with H : _ latencyInfo = _ |- _ =>
                 rewrite H end;
        cbn [latency_positive];
        repeat match goal with H : gt0 _ = false |- _ => rewrite H end;
        rewrite when_false; show_steps
      | apply (untouched_intro this _ i (displayed this i));
          [exact Hwf | reflexivity | by apply Hh] ]
  end.

(** C8, as amended: with the session-stats section enabled, each of the
    six blocks of [handleLatencyInfo] upserts its stat exactly when the
    field is defined and greater than zero, and the value is
    [Math.ceil(field)] as a string: the field is in milliseconds already
    and is only rounded up. A field that is absent or not positive
    (such as [AverageDecodeLatencyMs = 0]) leaves its stat out of the map
    if it was out, and showing what it showed. *)
Theorem handleLatencyInfo_upserts_positive_fields this latencyInfo :
  reachable this -> enabled this = true ->
  Forall (fun '(field, i, t) =>
            match field latencyInfo with
            | Some x =>
                if gt0 x
                then displayed (handleLatencyInfo latencyInfo this) i
                     = Some (t +:+ ": " +:+ Number_toString (Math_ceil x))
                else untouched this (handleLatencyInfo latencyInfo this) i
            | None => untouched this (handleLatencyInfo latencyInfo this) i
            end) latency_table /\
  (AverageDecodeLatencyMs latencyInfo = Some (lit 0) ->
   untouched this (handleLatencyInfo latencyInfo this) "AvgDecodeDelay").
Proof.
  intros Hreach Hen. apply reachable_wf in Hreach.
  assert (Htable :
    Forall (fun '(field, i, t) =>
            match field latencyInfo with
            | Some x =>
                if gt0 x
                then displayed (handleLatencyInfo latencyInfo this) i
                     = Some (t +:+ ": " +:+ Number_toString (Math_ceil x))
                else untouched this (handleLatencyInfo latencyInfo this) i
            | None => untouched this (handleLatencyInfo latencyInfo this) i
            end) latency_table).
  { unfold latency_table.
    repeat (apply Forall_cons; split); cbv beta iota.
    - latency_block SenderLatencyMs this latencyInfo Hreach.
    - latency_block AverageAssemblyDelayMs this latencyInfo Hreach.
    - latency_block AverageDecodeLatencyMs this latencyInfo Hreach.
    - latency_block AverageJitterBufferDelayMs this latencyInfo Hreach.
    - latency_block AverageProcessingDelayMs this latencyInfo Hreach.
    - latency_block AverageE2ELatency this latencyInfo Hreach.
    - constructor. }
  split; [exact Htable |].
  intros Hzero. unfold latency_table in Htable.
  apply Forall_cons in Htable as [_ Htable].
  apply Forall_cons in Htable as [_ Htable].
  apply Forall_cons in Htable as [Hdecode _].
  rewrite Hzero in Hdecode. exact Hdecode.
Qed.

End Latency.

Section Codecs.
Context {browser : Browser} {imports : Imports}.
Implicit Types (this : StatsPanel) (stats : AggregatedStats).

Lemma truthy_str_Some c : c <> "" -> truthy_str (Some c) = true.
Proof.
  intros Hc. simpl. by destruct (String.eqb_spec c "").
Qed.

(** C10, as amended: with the session-stats section enabled, a snapshot
    whose video (audio) [codecId] is truthy gets 'VideoCodecStat'
    ('AudioCodecStat') upserted: with the empty string when the id has no
    entry in the codec table, and otherwise with the mime type from which
    the first occurrence of "video/" ("audio/") is removed, wherever it
    stands: the prefix when the mime type begins with it, and nothing
    when it does not occur. *)
Theorem handleStats_codec_names this stats :
  reachable this -> enabled this = true ->
  (forall c, codecId (inboundVideoStats stats) = Some c -> c <> "" ->
     displayed (handleStats stats this) "VideoCodecStat"
     = Some ("Video codec: " +:+
             match codecs stats !! c with
             | Some codec => String_replace "video/" "" (mimeType codec)
             | None => ""
             end)) /\
  (forall c, codecId (inboundAudioStats stats) = Some c -> c <> "" ->
     displayed (handleStats stats this) "AudioCodecStat"
     = Some ("Audio codec: " +:+
             match codecs stats !! c with
             | Some codec => String_replace "audio/" "" (mimeType codec)
             | None => ""
             end)) /\
  (forall prefix before after mime,
     occurs_first prefix before after mime ->
     String_replace prefix "" mime = before +:+ after) /\
  (forall prefix rest, String_replace prefix "" (prefix +:+ rest) = rest) /\
  (forall prefix mime, (forall a b, mime <> a +:+ prefix +:+ b) ->
     String_replace prefix "" mime = mime).
Proof.
  intros Hreach Hen. apply reachable_wf in Hreach.
  split; [|split; [|split; [|split]]].
  - intros c Hc Hne.
    set (value := match codecs stats !! c with
                  | Some codec => String_replace "video/" "" (mimeType codec)
                  | None => ""
                  end).
    assert (Hh : hoare (shows "VideoCodecStat"
                          (displayed this "VideoCodecStat"))
                   (handleStats stats)
                   (shows "VideoCodecStat"
                      (Some (statHTML "Video codec" (Some value))))).
    { unfold handleStats. cbv zeta. rewrite Hc.
      rewrite (truthy_str_Some c Hne), when_true. show_steps. }
    by destruct (Hh this) as (_ & _ & Hd).
  - intros c Hc Hne.
    set (value := match codecs stats !! c with
                  | Some codec => String_replace "audio/" "" (mimeType codec)
                  | None => ""
                  end).
    assert (Hh : hoare (shows "AudioCodecStat"
                          (displayed this "AudioCodecStat"))
                   (handleStats stats)
                   (shows "AudioCodecStat"
                      (Some (statHTML "Audio codec" (Some value))))).
    { unfold handleStats. cbv zeta. rewrite Hc.
      rewrite (truthy_str_Some c Hne), when_true. show_steps. }
    by destruct (Hh this) as (_ & _ & Hd).
  - intros prefix before after mime Hocc.
    by rewrite (String_replace_first _ _ _ _ _ Hocc).
  - intros prefix rest.
    apply (String_replace_first prefix "" _ "" rest).
    split; [reflexivity |]. intros a b _. simpl. lia.
  - intros prefix mime. apply String_replace_absent.
Qed.

End Codecs.

(** ** Concrete cases *)

Section Examples.
#[local] Existing Instance plain_browser.
#[local] Existing Instance list_imports.

(** C1 fails as stated: with the session-stats section disabled, the
    player count is not upserted. *)
Lemma handlePlayerCount_disabled_section :
  isSectionEnabled (_config disabled_panel) SessionStats = false /\
  statsMap (handlePlayerCount (lit 3) disabled_panel) = [] /\
  displayed (handlePlayerCount (lit 3) disabled_panel) "PlayerCountStat" = None.
Proof. repeat split; reflexivity. Qed.

Lemma handlePlayerCount_checks_section_witness :
  displayed (handlePlayerCount (lit 3) enabled_panel) "PlayerCountStat"
    = Some "Players: 3" /\
  (Map_has (statsMap enabled_panel) "PlayerCountStat" = false ->
   Map_get (statsMap (handlePlayerCount (lit 3) enabled_panel))
     "PlayerCountStat"
   = Some {| id := "PlayerCountStat"; title := "Players";
             stat := Some "3"; element := 0%nat |}).
Proof.
  exact (handlePlayerCount_checks_section enabled_panel (lit 3) 3
           (reach_new (imports := list_imports) [SessionStats] []) eq_refl eq_refl).
Defined.

Lemma disabled_section_is_a_no_op_witness :
  handleStats rtt_stats disabled_panel = disabled_panel /\
  handleLatencyInfo latency_1_5 disabled_panel = disabled_panel.
Proof.
  exact (disabled_section_is_a_no_op disabled_panel rtt_stats latency_1_5
           eq_refl).
Defined.

(** C3: the update path leaves the stored title and value stale. After
    a second upsert of an id the [Stat] stored under it still carries the
    title and the value of the first one, while its element shows the
    second; so it is with two player counts in a row. The creation path
    writes both fields. *)
Lemma addOrUpdateStat_keeps_stored_title_and_value :
  Map_get
    (statsMap
       (addOrUpdateStat "a" "Changed" (Some "2")
          (addOrUpdateStat "a" "A" (Some "1") enabled_panel))) "a"
  = Some {| id := "a"; title := "A"; stat := Some "1"; element := 0%nat |} /\
  displayed
    (addOrUpdateStat "a" "Changed" (Some "2")
       (addOrUpdateStat "a" "A" (Some "1") enabled_panel)) "a"
  = Some "Changed: 2" /\
  stat <$>
    Map_get
      (statsMap
         (handlePlayerCount (lit 2) (handlePlayerCount (lit 1) enabled_panel)))
      "PlayerCountStat"
  = Some (Some "1") /\
  displayed
    (handlePlayerCount (lit 2) (handlePlayerCount (lit 1) enabled_panel))
    "PlayerCountStat"
  = Some "Players: 2".
Proof. repeat split; reflexivity. Qed.

Lemma abc_panel_reachable : reachable abc_panel.
Proof.
  apply (reach_exec (Upsert "c" "C" (Some "3"))).
  apply (reach_exec (Upsert "b" "B" (Some "2"))).
  apply (reach_exec (Upsert "a" "A" (Some "1"))).
  apply (reach_new (imports := list_imports) [SessionStats] []).
Qed.

Lemma addOrUpdateStat_upsert_witness :
  statsMap (addOrUpdateStat "a" "Changed" (Some "2") abc_panel)
    = statsMap abc_panel /\
  (exists el,
     document abc_panel !! 0%nat = Some el /\
     document (addOrUpdateStat "a" "Changed" (Some "2") abc_panel)
     = <[0%nat := set_innerHTML "Changed: 2" el]> (document abc_panel)) /\
  displayed (addOrUpdateStat "a" "Changed" (Some "2") abc_panel) "a"
    = Some "Changed: 2".
Proof.
  pose proof (addOrUpdateStat_upsert abc_panel "a" "Changed" (Some "2")
                abc_panel_reachable eq_refl) as [Hpath [Hshown _]].
  exact (conj (proj1 Hpath) (conj (proj2 (proj2 Hpath)) Hshown)).
Defined.

Lemma iteration_order_witness :
  ids (run [("a", "A", Some "9"); ("b", "B", Some "8"); ("a", "A", Some "7")]
         abc_panel)
  = ["a"; "b"; "c"].
Proof.
  apply (proj2 (iteration_order_is_first_insertion_order
                  (imports := list_imports)
                  [] [] [] abc_panel "a" "b" "c"
                  [("a", "A", Some "9"); ("b", "B", Some "8");
                   ("a", "A", Some "7")])).
  - reflexivity.
  - constructor; [left; reflexivity |].
    constructor; [right; reflexivity |].
    constructor; [left; reflexivity |].
    constructor.
Defined.

Lemma handleStats_round_trip_time_witness :
  displayed (handleStats rtt_stats enabled_panel) "RTTStat"
  = Some "Net RTT (ms): 24".
Proof.
  apply (proj2 (proj2 (handleStats_round_trip_time enabled_panel rtt_stats
                         (reach_new (imports := list_imports) [SessionStats] []) eq_refl))); reflexivity.
Defined.

Lemma handleStats_packets_lost_witness :
  displayed (handleStats empty_stats enabled_panel) "PacketsLostStat"
  = Some "Packets Lost: Chrome only".
Proof.
  exact (handleStats_packets_lost enabled_panel empty_stats
           (reach_new (imports := list_imports) [SessionStats] []) eq_refl).
Defined.

(** C8 fails as stated: a sender latency of 1.5 (milliseconds) shows as
    "2", its ceiling, and not as the "1500" that a conversion from
    seconds gives; and with the section disabled a positive field is not
    upserted. *)
Lemma handleLatencyInfo_rounds_without_scaling :
  gt0 ms_1_5 = true /\
  displayed (handleLatencyInfo latency_1_5 enabled_panel) "SenderSideLatency"
    = Some "Sender latency (ms): 2" /\
  Number_toString (roundToMillis_spec ms_1_5) = "1500" /\
  displayed (handleLatencyInfo latency_1_5 disabled_panel) "SenderSideLatency"
    = None.
Proof. repeat split; reflexivity. Qed.

Lemma handleLatencyInfo_witness :
  untouched enabled_panel (handleLatencyInfo latency_1_5 enabled_panel)
    "AvgDecodeDelay".
Proof.
  apply (proj2 (handleLatencyInfo_upserts_positive_fields enabled_panel
                  latency_1_5 (reach_new (imports := list_imports) [SessionStats] []) eq_refl)).
  reflexivity.
Defined.

(** C10 fails as stated: "video/" is removed from a mime type that does
    not begin with it; and with the section disabled a codec id without
    a table entry upserts nothing. *)
Lemma handleStats_strips_inner_prefix :
  startsWith "xvideo/VP8" "video/" = false /\
  displayed (handleStats inner_prefix_stats enabled_panel) "VideoCodecStat"
    = Some "Video codec: xVP8" /\
  Map_has (statsMap (handleStats unknown_codec_stats disabled_panel))
    "VideoCodecStat" = false.
Proof. repeat split; reflexivity. Qed.

Lemma handleStats_codec_names_witness :
  displayed (handleStats unknown_codec_stats enabled_panel) "VideoCodecStat"
  = Some "Video codec: ".
Proof.
  apply (proj1 (handleStats_codec_names enabled_panel unknown_codec_stats
                  (reach_new (imports := list_imports) [SessionStats] []) eq_refl) "c1"); [reflexivity | discriminate].
Defined.

End Examples.

Section UpsertFacts.
Context {browser : Browser} {imports : Imports}.
Implicit Types (this : StatsPanel) (i j t : string) (v : option string)
  (calls : list (string * string * option string)).

Lemma handleStats_run stats this :
  handleStats stats this = run (handleStats_upserts stats) this.
Proof.
  unfold handleStats, handleStats_upserts. cbv zeta.
  destruct (truthy_prop (bitrate (inboundVideoStats stats)));
  destruct (truthy_prop (bitrate (inboundAudioStats stats)));
  destruct (truthy_prop (framesPerSecond (inboundVideoStats stats)));
  destruct (truthy_str (codecId (inboundVideoStats stats)));
  destruct (truthy_str (codecId (inboundAudioStats stats)));
  destruct (match videoEncoderAvgQP (sessionStats stats) with
            | Some qp => negb (Number_isNaN qp)
            | None => false
            end); reflexivity.
Qed.

Lemma handleLatencyInfo_run info this :
  handleLatencyInfo info this = run (handleLatencyInfo_upserts info) this.
Proof.
  unfold handleLatencyInfo, handleLatencyInfo_upserts, latency_table.
  cbn [flat_map].
  destruct (latency_positive (SenderLatencyMs info));
  destruct (latency_positive (AverageAssemblyDelayMs info));
  destruct (latency_positive (AverageDecodeLatencyMs info));
  destruct (latency_positive (AverageJitterBufferDelayMs info));
  destruct (latency_positive (AverageProcessingDelayMs info));
  destruct (latency_positive (AverageE2ELatency info)); reflexivity.
Qed.

Lemma exec_run o this : exec o this = run (upserts_of o) this.
Proof.
  destruct o; simpl.
  - reflexivity.
  - apply handleStats_run.
  - apply handleLatencyInfo_run.
  - reflexivity.
Qed.

End UpsertFacts.

Section RunFacts.
Context {browser : Browser} {imports : Imports}.
Implicit Types (this : StatsPanel) (i j t : string) (v : option string)
  (calls : list (string * string * option string)).

Lemma run_wf calls this : wf this -> wf (run calls this).
Proof.
  apply (hoare_run wf). intros i t v p. apply wf_addOrUpdateStat.
Qed.

Lemma run_enabled calls this : enabled (run calls this) = enabled this.
Proof.
  apply (hoare_run (fun p => enabled p = enabled this)); [|reflexivity].
  intros i t v p Hp. by rewrite addOrUpdateStat_enabled.
Qed.

Lemma run_displayed calls this i :
  wf this -> enabled this = true ->
  displayed (run calls this) i = last_text calls i (displayed this i).
Proof.
  revert this. induction calls as [|[[j t] v] calls IH]; intros this Hwf Hen;
    [reflexivity |].
  rewrite run_cons, IH;
    [| by apply wf_addOrUpdateStat | by rewrite addOrUpdateStat_enabled].
  simpl. destruct (String.eqb_spec j i) as [->|Hne].
  - by rewrite addOrUpdateStat_displayed.
  - by rewrite addOrUpdateStat_displayed_other.
Qed.

Lemma last_text_absent calls i d :
  i ∉ call_ids calls -> last_text calls i d = d.
Proof.
  revert d. induction calls as [|[[j t] v] calls IH]; intros d Hi;
    [reflexivity |].
  simpl in *. apply not_elem_of_cons in Hi as [Hne Hi].
  rewrite IH by done. destruct (String.eqb_spec j i); [congruence | done].
Qed.

Lemma last_text_unique calls i t v d :
  NoDup (call_ids calls) -> (i, t, v) ∈ calls ->
  last_text calls i d = Some (statHTML t v).
Proof.
  revert d. induction calls as [|[[j t'] v'] calls IH]; intros d Hnd Hin;
    [inversion Hin |].
  simpl in Hnd. apply NoDup_cons in Hnd as [Hfresh Hnd].
  apply elem_of_cons in Hin as [Heq|Hin]; simpl.
  - injection Heq as <- <- <-. rewrite String.eqb_refl.
    by apply last_text_absent.
  - by apply IH.
Qed.

(** An upsert of what the id shows already changes nothing. *)
Lemma addOrUpdateStat_same_text i t v this :
  displayed this i = Some (statHTML t v) -> addOrUpdateStat i t v this = this.
Proof.
  intros Hd. destruct (enabled this) eqn:Hen;
    [|by apply addOrUpdateStat_disabled].
  unfold displayed in Hd.
  destruct (Map_get (statsMap this) i) as [s|] eqn:Hget; [|discriminate].
  simpl in Hd.
  destruct (document this !! element s) as [el|] eqn:Hel; [|discriminate].
  simpl in Hd. injection Hd as Hd.
  rewrite (addOrUpdateStat_update i t v this s) by done.
  unfold update_element. rewrite Hel.
  replace (set_innerHTML (statHTML t v) el) with el
    by (destruct el; simpl in Hd; by subst).
  rewrite list_insert_id by done. by destruct this.
Qed.

Lemma run_same_text calls this :
  Forall (fun c => displayed this c.1.1 = Some (statHTML c.1.2 c.2)) calls ->
  run calls this = this.
Proof.
  induction 1 as [|[[i t] v] calls Hc _ IH]; [reflexivity |].
  rewrite run_cons. simpl in Hc.
  by rewrite (addOrUpdateStat_same_text _ _ _ _ Hc).
Qed.

(** A sequence of upserts of different ids, done twice, is the sequence
    done once. *)
Lemma run_twice calls this :
  wf this -> NoDup (call_ids calls) ->
  run calls (run calls this) = run calls this.
Proof.
  intros Hwf Hnd. destruct (enabled this) eqn:Hen;
    [|by rewrite !(run_disabled calls this Hen)].
  apply run_same_text. apply Forall_forall. intros [[i t] v] Hin. simpl.
  rewrite run_displayed by done. by apply (last_text_unique _ _ _ _ _ Hnd).
Qed.

Lemma NoDup_handleStats_upserts stats :
  NoDup (call_ids (handleStats_upserts stats)).
Proof.
  unfold handleStats_upserts. cbv zeta.
  destruct (truthy_prop (bitrate (inboundVideoStats stats)));
  destruct (truthy_prop (bitrate (inboundAudioStats stats)));
  destruct (truthy_prop (framesPerSecond (inboundVideoStats stats)));
  destruct (truthy_str (codecId (inboundVideoStats stats)));
  destruct (truthy_str (codecId (inboundAudioStats stats)));
  destruct (match videoEncoderAvgQP (sessionStats stats) with
            | Some qp => negb (Number_isNaN qp)
            | None => false
            end);
  apply (bool_decide_unpack _); vm_compute; exact I.
Qed.

Lemma NoDup_handleLatencyInfo_upserts info :
  NoDup (call_ids (handleLatencyInfo_upserts info)).
Proof.
  unfold handleLatencyInfo_upserts, latency_table. cbn [flat_map].
  destruct (latency_positive (SenderLatencyMs info));
  destruct (latency_positive (AverageAssemblyDelayMs info));
  destruct (latency_positive (AverageDecodeLatencyMs info));
  destruct (latency_positive (AverageJitterBufferDelayMs info));
  destruct (latency_positive (AverageProcessingDelayMs info));
  destruct (latency_positive (AverageE2ELatency info));
  apply (bool_decide_unpack _); vm_compute; exact I.
Qed.

Lemma NoDup_upserts_of o : NoDup (call_ids (upserts_of o)).
Proof.
  destruct o; simpl.
  - apply NoDup_singleton.
  - apply NoDup_handleStats_upserts.
  - apply NoDup_handleLatencyInfo_upserts.
  - apply NoDup_singleton.
Qed.

Lemma upserts_of_footprint o :
  Forall (fun i => i ∈ footprint o) (call_ids (upserts_of o)).
Proof.
  destruct o as [n|stats|info|i t v]; simpl.
  - repeat constructor.
  - unfold handleStats_upserts. cbv zeta.
    destruct (truthy_prop (bitrate (inboundVideoStats stats)));
    destruct (truthy_prop (bitrate (inboundAudioStats stats)));
    destruct (truthy_prop (framesPerSecond (inboundVideoStats stats)));
    destruct (truthy_str (codecId (inboundVideoStats stats)));
    destruct (truthy_str (codecId (inboundAudioStats stats)));
    destruct (match videoEncoderAvgQP (sessionStats stats) with
              | Some qp => negb (Number_isNaN qp)
              | None => false
              end);
    apply (bool_decide_unpack _); vm_compute; exact I.
  - unfold handleLatencyInfo_upserts, latency_table. cbn [flat_map].
    destruct (latency_positive (SenderLatencyMs info));
    destruct (latency_positive (AverageAssemblyDelayMs info));
    destruct (latency_positive (AverageDecodeLatencyMs info));
    destruct (latency_positive (AverageJitterBufferDelayMs info));
    destruct (latency_positive (AverageProcessingDelayMs info));
    destruct (latency_positive (AverageE2ELatency info));
    apply (bool_decide_unpack _); vm_compute; exact I.
  - repeat constructor.
Qed.

End RunFacts.

(** ** The registry and the results container *)

Section Rendering.
Context {browser : Browser} {imports : Imports}.
Implicit Types (this : StatsPanel) (i j t : string) (v : option string).

Lemma update_element_statsResult h f this :
  _statsResult (update_element h f this) = _statsResult this.
Proof. unfold update_element. by destruct (document this !! h). Qed.

Lemma children_update_keep h f this h' :
  (forall el, childNodes (f el) = childNodes el) ->
  childNodes <$> document (update_element h f this) !! h' =
  childNodes <$> document this !! h'.
Proof.
  intros Hf. rewrite update_element_lookup. case_decide as Hh; [|reflexivity].
  subst h'.
  assert (Hopt : forall o : option HTMLElement,
            childNodes <$> (f <$> o) = childNodes <$> o).
  { intros [el|]; simpl; [by rewrite Hf | reflexivity]. }
  apply Hopt.
Qed.

Lemma rendered_in_order_allocated this res :
  rendered_in_order this -> _statsResult this = Some res ->
  (res < length (document this))%nat.
Proof.
  unfold rendered_in_order. intros Hr Hres. rewrite Hres in Hr.
  apply fmap_Some in Hr as (el & Hel & _).
  by eapply lookup_lt_Some.
Qed.

Lemma rendered_in_order_addOrUpdateStat i t v this :
  rendered_in_order this -> rendered_in_order (addOrUpdateStat i t v this).
Proof.
  intros Hr. destruct (enabled this) eqn:Hen;
    [|by rewrite addOrUpdateStat_disabled].
  destruct (Map_get (statsMap this) i) as [s|] eqn:Hget.
  - rewrite (addOrUpdateStat_update i t v this s) by done.
    unfold rendered_in_order, stat_elements in *.
    rewrite update_element_statsResult, update_element_statsMap.
    destruct (_statsResult this) as [res|]; [|exact Hr].
    by rewrite children_update_keep.
  - apply Map_get_None in Hget.
    unfold addOrUpdateStat. unfold enabled in Hen. rewrite Hen, Hget. simpl.
    set (el := length (document this)).
    set (this1 := update_element el _ _).
    assert (Hres1 : _statsResult this1 = _statsResult this).
    { unfold this1. by rewrite update_element_statsResult. }
    assert (Hmap1 : statsMap this1 = statsMap this).
    { unfold this1. by rewrite update_element_statsMap. }
    assert (Hlen1 : length (document this1) = S el).
    { unfold this1. rewrite update_element_length. simpl.
      rewrite length_app. simpl. unfold el. lia. }
    assert (Hold1 : forall h, (h < el)%nat ->
              document this1 !! h = document this !! h).
    { intros h Hh. unfold this1. rewrite update_element_lookup.
      case_decide; [lia |]. simpl. by rewrite lookup_app_l. }
    clearbody this1.
    unfold statsResult. destruct (_statsResult this1) as [res|] eqn:Hres;
      simpl.
    + assert (Hres' : _statsResult this = Some res) by congruence.
      pose proof (rendered_in_order_allocated this res Hr Hres') as Hlt.
      unfold rendered_in_order, stat_elements in *. simpl.
      rewrite update_element_statsResult, update_element_statsMap, Hres.
      rewrite Hres' in Hr.
      rewrite update_element_lookup. case_decide; [|done].
      rewrite Hmap1, (Map_set_fresh _ _ _ Hget), map_app. simpl.
      apply fmap_Some in Hr as (rel & Hel & Hc).
      apply fmap_Some. exists (appendChild el rel). split.
      * apply fmap_Some. exists rel. split; [|reflexivity].
        rewrite Hold1 by (unfold el; lia). exact Hel.
      * simpl. by rewrite <- Hc.
    + assert (Hres' : _statsResult this = None) by congruence.
      unfold rendered_in_order, stat_elements in *. simpl.
      rewrite !update_element_statsResult, !update_element_statsMap. simpl.
      rewrite Hres' in Hr.
      rewrite Hmap1, Hr. simpl.
      rewrite !update_element_lookup. repeat case_decide; try done.
      simpl. rewrite lookup_app_r by lia.
      rewrite Nat.sub_diag. reflexivity.
Qed.

Lemma reachable_rendered_in_order this :
  reachable this -> rendered_in_order this.
Proof.
  induction 1 as [config doc | o this _ IH | this _ IH | this _ IH].
  - reflexivity.
  - revert IH. apply hoare_exec. intros i t v p.
    apply rendered_in_order_addOrUpdateStat.
  - unfold rendered_in_order, stat_elements, statsResult in *.
    destruct (_statsResult this) as [res|] eqn:Hres; simpl.
    + by rewrite Hres.
    + rewrite !update_element_statsResult, !update_element_statsMap. simpl.
      rewrite IH. simpl.
      rewrite !update_element_lookup. repeat case_decide; try done.
      simpl. rewrite lookup_app_r by lia. by rewrite Nat.sub_diag.
  - unfold rendered_in_order, stat_elements in *. simpl.
    destruct (_statsResult this) as [res|] eqn:Hres; [|exact IH].
    apply fmap_Some in IH as (rel & Hel & Hc).
    apply fmap_Some. exists rel. split; [|exact Hc].
    rewrite lookup_app_l; [exact Hel | by eapply lookup_lt_Some].
Qed.

(** X1: what is on screen follows the registry. In every state the panel
    reaches, the children of the results container are the elements of
    the registry entries, one each, in the iteration order of the
    registry; as long as the container does not exist, the registry is
    empty. *)
Theorem results_container_lists_the_registry this :
  reachable this ->
  match _statsResult this with
  | Some res =>
      exists container,
        document this !! res = Some container /\
        childNodes container = map (fun kv => element kv.2) (statsMap this)
  | None => statsMap this = []
  end.
Proof.
  intros Hreach. apply reachable_rendered_in_order in Hreach.
  unfold rendered_in_order, stat_elements in Hreach.
  destruct (_statsResult this) as [res|]; [|exact Hreach].
  apply fmap_Some in Hreach as (container & Hel & Hc).
  exists container. by split.
Qed.

(** X2: the invariant of the registry. In every state the panel reaches,
    no id occurs twice; an entry is stored under its own id and its
    element is in the document; and two entries never share an
    element. *)
Theorem registry_invariant this :
  reachable this ->
  NoDup (ids this) /\
  (forall i s, Map_get (statsMap this) i = Some s ->
     id s = i /\ is_Some (document this !! element s)) /\
  (forall i j s s',
     i <> j -> Map_get (statsMap this) i = Some s ->
     Map_get (statsMap this) j = Some s' -> element s <> element s').
Proof.
  intros Hreach. apply reachable_wf in Hreach.
  split; [apply (wf_keys _ Hreach) | split].
  - intros i s Hget. split.
    + pose proof (wf_id _ Hreach) as Hid. rewrite Forall_forall in Hid.
      apply (Hid (i, s)). by apply Map_get_In.
    + apply lookup_lt_is_Some. by eapply wf_element_allocated.
  - intros i j s s' Hij Hi Hj. by eapply wf_elements_apart.
Qed.

Lemma exec_all_extends ops this : extends this (exec_all ops this).
Proof.
  unfold exec_all. revert this. induction ops as [|o ops IH]; intros this.
  - apply extends_refl.
  - simpl. destruct (IH (exec o this)) as [added Hadd].
    assert (Hext : extends this (exec o this)).
    { apply (hoare_exec (extends this)); [|apply extends_refl].
      intros i t v. apply upsert_extends. }
    destruct Hext as [added' Hadd'].
    exists (added' ++ added). by rewrite Hadd, Hadd', app_assoc.
Qed.

(** X3: the [Stat] of an id is written once. After the upsert that
    creates an entry, whatever operations follow, the entry stored under
    the id still carries the title and the value of that first upsert
    (and its element); later upserts change what the element shows, not
    the stored fields. *)
Theorem stored_stat_is_the_first_upsert this i t v ops :
  enabled this = true -> Map_has (statsMap this) i = false ->
  Map_get (statsMap (exec_all ops (addOrUpdateStat i t v this))) i
  = Some {| id := i; title := t; stat := v;
            element := length (document this) |}.
Proof.
  intros Hen Hhas.
  apply (extends_get (addOrUpdateStat i t v this));
    [apply exec_all_extends |].
  rewrite addOrUpdateStat_statsMap, Hen, Hhas. simpl.
  rewrite Map_get_app. apply Map_get_None in Hhas. rewrite Hhas. simpl.
  by rewrite String.eqb_refl.
Qed.

(** X4: what a sequence of upserts leaves on screen. In a reachable state
    with the session-stats section enabled, after any sequence of
    [addOrUpdateStat] calls an id shows the "label: value" of the last
    call made with that id, and what it showed before when no call was
    made with it. *)
Theorem run_shows_the_last_upsert this calls i :
  reachable this -> enabled this = true ->
  displayed (run calls this) i = last_text calls i (displayed this i) /\
  (i ∉ call_ids calls -> displayed (run calls this) i = displayed this i).
Proof.
  intros Hreach Hen. apply reachable_wf in Hreach.
  rewrite run_displayed by done. split; [reflexivity |].
  apply last_text_absent.
Qed.

(** X5: handling the same input twice is handling it once. In every
    reachable state, each operation ([handlePlayerCount], [handleStats],
    [handleLatencyInfo], [addOrUpdateStat]) applied a second time with
    the same argument leaves the panel, registry and document, exactly as
    the first application left it. *)
Theorem operations_are_idempotent this o :
  reachable this -> exec o (exec o this) = exec o this.
Proof.
  intros Hreach. apply reachable_wf in Hreach.
  rewrite !exec_run. apply run_twice; [done | apply NoDup_upserts_of].
Qed.

(** X6: the handlers keep to their own stats. In every reachable state an
    operation leaves every id outside its footprint alone: [handleStats]
    touches only its fourteen ids, [handleLatencyInfo] only its six, and
    [handlePlayerCount] only 'PlayerCountStat'; the other ids are in the
    registry after exactly if they were before, and show what they
    showed. *)
Theorem operations_keep_to_their_footprint this o j :
  reachable this -> j ∉ footprint o ->
  displayed (exec o this) j = displayed this j /\
  Map_has (statsMap (exec o this)) j = Map_has (statsMap this) j.
Proof.
  intros Hreach Hj. apply reachable_wf in Hreach.
  destruct (enabled this) eqn:Hen.
  - assert (Hd : displayed (exec o this) j = displayed this j).
    { rewrite exec_run, run_displayed by done.
      apply last_text_absent. intros Hin. apply Hj.
      pose proof (upserts_of_footprint o) as Hfp.
      rewrite Forall_forall in Hfp. by apply Hfp. }
    apply (untouched_intro this _ j (displayed this j)); [done | done |].
    split; [|split; [|exact Hd]].
    + rewrite exec_run. by apply run_wf.
    + by rewrite exec_run, run_enabled.
  - rewrite exec_run, run_disabled by done. by split.
Qed.

End Rendering.

(** ** The fields of a snapshot, one by one *)

(** Splits on the six guards of [handleStats]. *)
Ltac split_handleStats_guards stats :=
  destruct (truthy_prop (bitrate (inboundVideoStats stats)));
  destruct (truthy_prop (bitrate (inboundAudioStats stats)));
  destruct (truthy_prop (framesPerSecond (inboundVideoStats stats)));
  destruct (truthy_str (codecId (inboundVideoStats stats)));
  destruct (truthy_str (codecId (inboundAudioStats stats)));
  destruct (match videoEncoderAvgQP (sessionStats stats) with
            | Some qp => negb (Number_isNaN qp)
            | None => false
            end).

Section Fields.
Context {browser : Browser} {imports : Imports}.
Implicit Types (this : StatsPanel) (stats : AggregatedStats).

Lemma handleStats_displayed this stats i :
  wf this -> enabled this = true ->
  displayed (handleStats stats this) i
  = last_text (handleStats_upserts stats) i (displayed this i).
Proof. intros Hwf Hen. by rewrite handleStats_run, run_displayed. Qed.

Lemma handleStats_untouched this stats i :
  wf this -> enabled this = true ->
  last_text (handleStats_upserts stats) i (displayed this i)
    = displayed this i ->
  untouched this (handleStats stats this) i.
Proof.
  intros Hwf Hen Hlast.
  apply (untouched_intro this _ i (displayed this i)); [done | done |].
  rewrite handleStats_run. split; [by apply run_wf | split].
  - by rewrite run_enabled.
  - by rewrite run_displayed.
Qed.

(** Settles what one id shows after [handleStats], by cases on the
    guards of the handler. *)
Ltac field_case stats :=
  first [ rewrite handleStats_displayed by done
        | apply handleStats_untouched; [done | done |] ];
  unfold handleStats_upserts; cbv zeta;
  repeat match goal with
         | H : _ = Some _ |- _ => rewrite H
         | H : _ = None |- _ => rewrite H
         end;
  cbn [truthy_prop];
  repeat match goal with
         | H : _ = true |- _ => rewrite H
         | H : _ = false |- _ => rewrite H
         end;
  split_handleStats_guards stats; reflexivity.

(** X7: the stats that [handleStats] shows only under a guard. With the
    session-stats section enabled, the video bitrate, the audio bitrate
    and the framerate are upserted with the digits of the field when the
    field is truthy, and left alone (not in the registry if they were
    not, showing their last value if they were) when it is absent, zero
    or NaN; the quantization parameter is upserted when it is defined and
    not NaN, zero included. *)
Theorem handleStats_guarded_stats this stats :
  reachable this -> enabled this = true ->
  shown_under_guard (bitrate (inboundVideoStats stats)) truthy
    this (handleStats stats this) "VideoBitrateStat" "Video Bitrate (kbps)" /\
  shown_under_guard (bitrate (inboundAudioStats stats)) truthy
    this (handleStats stats this) "AudioBitrateStat" "Audio Bitrate (kbps)" /\
  shown_under_guard (framesPerSecond (inboundVideoStats stats)) truthy
    this (handleStats stats this) "FramerateStat" "Framerate" /\
  shown_under_guard (videoEncoderAvgQP (sessionStats stats))
    (fun qp => negb (Number_isNaN qp))
    this (handleStats stats this) "QPStat" "Video quantization parameter".
Proof.
  intros Hreach Hen. apply reachable_wf in Hreach.
  unfold shown_under_guard. repeat split.
  - destruct (bitrate (inboundVideoStats stats)) as [x|] eqn:Hf;
      [destruct (truthy x) eqn:Hg|]; field_case stats.
  - destruct (bitrate (inboundAudioStats stats)) as [x|] eqn:Hf;
      [destruct (truthy x) eqn:Hg|]; field_case stats.
  - destruct (framesPerSecond (inboundVideoStats stats)) as [x|] eqn:Hf;
      [destruct (truthy x) eqn:Hg|]; field_case stats.
  - destruct (videoEncoderAvgQP (sessionStats stats)) as [x|] eqn:Hf;
      [destruct (negb (Number_isNaN x)) eqn:Hg|]; field_case stats.
Qed.

(** X8: the stats with a sentinel. With the session-stats section
    enabled, [handleStats] always upserts the resolution and the decoded
    frames: the resolution shows "{width}x{height}" when both fields are
    there and truthy, so that a width or height of zero gives
    "Chrome only" like an absent one; the decoded frames show the
    formatted field, or "Chrome only" when it is absent. For integer
    sizes that are not zero the text is the two decimals around an x. *)
Theorem handleStats_resolution_and_frames_decoded this stats :
  reachable this -> enabled this = true ->
  displayed (handleStats stats this) "VideoResStat"
  = Some ("Video resolution: " +:+
          match frameWidth (inboundVideoStats stats),
                frameHeight (inboundVideoStats stats) with
          | Some w, Some h =>
              if truthy w && truthy h
              then Number_toString w +:+ "x" +:+ Number_toString h
              else "Chrome only"
          | _, _ => "Chrome only"
          end) /\
  displayed (handleStats stats this) "FramesDecodedStat"
  = Some ("Frames Decoded: " +:+
          match framesDecoded (inboundVideoStats stats) with
          | Some n => numberFormat_format n
          | None => "Chrome only"
          end) /\
  (forall w h a b,
     frameWidth (inboundVideoStats stats) = Some w ->
     frameHeight (inboundVideoStats stats) = Some h ->
     integer_value w = Some a -> integer_value h = Some b ->
     safe_integer a = true -> safe_integer b = true -> a <> 0 -> b <> 0 ->
     displayed (handleStats stats this) "VideoResStat"
     = Some ("Video resolution: " +:+ pretty a +:+ "x" +:+ pretty b)).
Proof.
  intros Hreach Hen. apply reachable_wf in Hreach.
  assert (Hres : displayed (handleStats stats this) "VideoResStat"
    = Some ("Video resolution: " +:+
          match frameWidth (inboundVideoStats stats),
                frameHeight (inboundVideoStats stats) with
          | Some w, Some h =>
              if truthy w && truthy h
              then Number_toString w +:+ "x" +:+ Number_toString h
              else "Chrome only"
          | _, _ => "Chrome only"
          end)) by field_case stats.
  split; [exact Hres | split; [field_case stats |]].
  intros w h a b Hw Hh Ha Hb Hsa Hsb Ha0 Hb0.
  rewrite Hres, Hw, Hh.
  assert (Htruthy : forall x n, integer_value x = Some n -> n <> 0 ->
            truthy x = true).
  { intros [s|s| |s m e] n Hx Hn; simpl in *; congruence. }
  rewrite (Htruthy w a Ha Ha0), (Htruthy h b Hb Hb0). simpl.
  by rewrite (Number_toString_integer w a), (Number_toString_integer h b).
Qed.

(** X9: the stats that are passed through. With the session-stats
    section enabled, [handleStats] always upserts the received bytes (as
    [formatBytes] prints them with two decimals), the dropped frames, the
    duration and the control input; the duration and the control input
    are shown verbatim, and the dropped frames by their digits, or as the
    word "undefined" when the field is absent. *)
Theorem handleStats_pass_through this stats :
  reachable this -> enabled this = true ->
  displayed (handleStats stats this) "InboundDataStat"
  = Some ("Received: " +:+
          formatBytes (bytesReceived (inboundVideoStats stats)) 2) /\
  displayed (handleStats stats this) "FramesDroppedStat"
  = Some ("Frames dropped: " +:+
          match framesDropped (inboundVideoStats stats) with
          | Some n => Number_toString n
          | None => "undefined"
          end) /\
  displayed (handleStats stats this) "DurationStat"
  = Some ("Duration: " +:+ runTime (sessionStats stats)) /\
  displayed (handleStats stats this) "ControlsInputStat"
  = Some ("Controls stream input: " +:+
          controlsStreamInput (sessionStats stats)).
Proof.
  intros Hreach Hen. apply reachable_wf in Hreach.
  repeat split; try field_case stats.
  destruct (framesDropped (inboundVideoStats stats)) as [x|] eqn:Hf;
    field_case stats.
Qed.

End Fields.

Section Order.
Context {browser : Browser} {imports : Imports}.
Implicit Types (this : StatsPanel) (stats : AggregatedStats).

Lemma filter_not_in_nil (l : list string) : filter (fun y => y ∉ []) l = l.
Proof.
  induction l as [|y l IH]; [reflexivity |].
  rewrite filter_cons. destruct (decide (y ∉ [])) as [_|Hn].
  - by rewrite IH.
  - exfalso. apply Hn, not_elem_of_nil.
Qed.

Lemma filter_other_absent (x : string) (l : list string) :
  x ∉ l -> filter (fun y => y <> x) l = l.
Proof.
  induction l as [|y l IH]; intros Hx; [reflexivity |].
  rewrite filter_cons. apply not_elem_of_cons in Hx as [Hne Hx].
  destruct (decide (y <> x)) as [_|Hn]; [|exfalso; apply Hn; congruence].
  f_equal. by apply IH.
Qed.

Lemma first_occurrences_NoDup (l : list string) :
  NoDup l -> first_occurrences l = l.
Proof.
  induction 1 as [|x l Hx _ IH]; [reflexivity |].
  simpl. by rewrite IH, filter_other_absent.
Qed.

(** X10: a snapshot fills a new panel in the order of the source. With
    the session-stats section enabled, the ids of a new panel after one
    [handleStats] are a subsequence of the fourteen ids of the handler in
    their source order (received bytes first, quantization parameter
    last), and the eight stats that are upserted without a guard are
    among them. *)
Theorem handleStats_fills_in_source_order config doc stats :
  isSectionEnabled config SessionStats = true ->
  sublist (ids (handleStats stats (constructor config doc))) handleStats_ids /\
  Forall (fun i => i ∈ ids (handleStats stats (constructor config doc)))
    handleStats_unconditional_ids.
Proof.
  intros Hen.
  assert (Hids : ids (handleStats stats (constructor config doc))
                 = call_ids (handleStats_upserts stats)).
  { rewrite handleStats_run, run_ids by exact Hen.
    change (ids (constructor config doc)) with (@nil string).
    rewrite app_nil_l, filter_not_in_nil. apply first_occurrences_NoDup.
    apply NoDup_handleStats_upserts. }
  rewrite Hids. unfold handleStats_upserts. cbv zeta.
  split_handleStats_guards stats;
    (split;
     [ vm_compute; repeat first [ apply sublist_nil | apply sublist_skip
                                | apply sublist_cons ]
     | apply (bool_decide_unpack _); vm_compute; exact I ]).
Qed.

End Order.

Section LatencyRounding.
Context {browser : Browser} {imports : Imports}.
Implicit Types (this : StatsPanel) (info : LatencyInfo).

Lemma handleLatencyInfo_shows this info field i t x :
  wf this -> enabled this = true ->
  (field, i, t) ∈ latency_table -> field info = Some x -> gt0 x = true ->
  displayed (handleLatencyInfo info this) i
  = Some (t +:+ ": " +:+ Number_toString (Math_ceil x)).
Proof.
  intros Hwf Hen Hrow Hf Hgt.
  rewrite handleLatencyInfo_run, run_displayed by done.
  apply (last_text_unique _ i t (Some (Number_toString (Math_ceil x)))).
  - apply NoDup_handleLatencyInfo_upserts.
  - apply list_elem_of_In. unfold handleLatencyInfo_upserts.
    apply in_flat_map. exists (field, i, t). split.
    + by apply list_elem_of_In.
    + unfold latency_positive. rewrite Hf, Hgt. by left.
Qed.

(** X11: a latency is rounded up to whole milliseconds and is never
    shown as less than 1. With the session-stats section enabled, a field
    of [handleLatencyInfo] holding the positive finite Number [m * 2^e]
    is shown as the decimal of the least integer [k] that is not below
    it, and that integer is at least 1. *)
Theorem latency_is_rounded_up this info field i t m e k :
  reachable this -> enabled this = true ->
  (field, i, t) ∈ latency_table ->
  field info = Some (S754_finite false m e) ->
  ceilZ (S754_finite false m e) = Some k -> safe_integer k = true ->
  displayed (handleLatencyInfo info this) i = Some (t +:+ ": " +:+ pretty k) /\
  1 <= k /\
  (if 0 <=? e then k = Zpos m * 2 ^ e
   else (k - 1) * 2 ^ (- e) < Zpos m <= k * 2 ^ (- e)).
Proof.
  intros Hreach Hen Hrow Hf Hceil Hsafe. apply reachable_wf in Hreach.
  pose proof (ceilZ_ceiling false m e k Hceil) as Hbound.
  simpl cond_Zopp in Hbound.
  split; [|split; [|exact Hbound]].
  - rewrite (handleLatencyInfo_shows this info field i t _ Hreach Hen Hrow Hf)
      by reflexivity.
    by rewrite (Number_toString_ceil _ k).
  - destruct (Z.leb_spec 0 e) as [He|He].
    + subst k. assert (0 < 2 ^ e) by (apply Z.pow_pos_nonneg; lia). nia.
    + assert (0 < 2 ^ (- e)) by (apply Z.pow_pos_nonneg; lia). nia.
Qed.

End LatencyRounding.

Section HandlerFacts.
Context {browser : Browser} {imports : Imports}.
Implicit Types (this : StatsPanel) (i : string).

Lemma exec_ids_footprint o this i :
  i ∈ ids (exec o this) -> i ∈ ids this \/ i ∈ footprint o.
Proof.
  rewrite exec_run. destruct (enabled this) eqn:Hen.
  - rewrite run_ids by done. rewrite elem_of_app.
    intros [Hi|Hi]; [left; exact Hi | right].
    apply list_elem_of_filter in Hi as [_ Hi].
    rewrite elem_of_first_occurrences in Hi.
    pose proof (upserts_of_footprint o) as Hf.
    rewrite list.Forall_forall in Hf. by apply Hf.
  - rewrite run_disabled by done. by left.
Qed.

Lemma footprint_handler o i :
  is_handler o = true -> i ∈ footprint o -> i ∈ handler_ids.
Proof.
  intros Ho Hi. unfold handler_ids. rewrite !elem_of_app.
  destruct o; cbn [footprint is_handler] in *; try done; auto.
Qed.

Lemma exec_all_wf ops this : wf this -> wf (exec_all ops this).
Proof.
  revert this. induction ops as [|o ops IH]; intros this Hwf; [done |].
  simpl. apply IH. revert Hwf. apply hoare_exec. intros i t v p.
  apply wf_addOrUpdateStat.
Qed.

Lemma exec_all_handler_ids ops this :
  forallb is_handler ops = true ->
  (forall i, i ∈ ids this -> i ∈ handler_ids) ->
  forall i, i ∈ ids (exec_all ops this) -> i ∈ handler_ids.
Proof.
  revert this. induction ops as [|o ops IH]; intros this Hops Hthis;
    [done |].
  simpl in Hops. apply andb_true_iff in Hops as [Ho Hops].
  simpl. apply IH; [done |]. intros i Hi.
  apply exec_ids_footprint in Hi as [Hi|Hi]; [by apply Hthis |].
  by eapply footprint_handler.
Qed.

(** X17: the handlers never show more than their own stats. From a new
    panel, after any sequence of [handlePlayerCount], [handleStats] and
    [handleLatencyInfo] calls, every id of the registry is one of the
    twenty-one ids of the handlers, so that the registry never holds
    more than twenty-one entries, whatever the snapshots were and
    however many were handled. *)
Theorem handlers_show_at_most_their_stats config doc ops :
  forallb is_handler ops = true ->
  (forall i, i ∈ ids (exec_all ops (constructor config doc)) ->
     i ∈ handler_ids) /\
  (length (statsMap (exec_all ops (constructor config doc))) <= 21)%nat.
Proof.
  intros Hops.
  assert (Hids : forall i,
            i ∈ ids (exec_all ops (constructor config doc)) ->
            i ∈ handler_ids).
  { apply exec_all_handler_ids; [done |]. simpl. intros i Hi.
    by apply elem_of_nil in Hi. }
  split; [exact Hids |].
  pose proof (wf_keys _ (exec_all_wf ops _ (wf_new config doc))) as Hnd.
  apply NoDup_submseteq in Hids; [|exact Hnd].
  apply submseteq_length in Hids. unfold ids, Map_keys in Hids.
  rewrite length_map in Hids. exact Hids.
Qed.

End HandlerFacts.

Section Elements.
Context {browser : Browser} {imports : Imports}.
Implicit Types (this : StatsPanel) (i t : string) (v : option string).

(** The elements the panel has created since the document had [n]
    elements: one for each entry, and the results container once there is
    an entry. *)
Lemma addOrUpdateStat_elements (n : nat) i t v this :
  match _statsResult this with
  | Some _ =>
      statsMap this <> [] /\
      length (document this) = (n + length (statsMap this) + 1)%nat
  | None => statsMap this = [] /\ length (document this) = n
  end ->
  match _statsResult (addOrUpdateStat i t v this) with
  | Some _ =>
      statsMap (addOrUpdateStat i t v this) <> [] /\
      length (document (addOrUpdateStat i t v this))
        = (n + length (statsMap (addOrUpdateStat i t v this)) + 1)%nat
  | None =>
      statsMap (addOrUpdateStat i t v this) = [] /\
      length (document (addOrUpdateStat i t v this)) = n
  end.
Proof.
  intros Hq. destruct (enabled this) eqn:Hen;
    [|by rewrite addOrUpdateStat_disabled].
  destruct (Map_get (statsMap this) i) as [s|] eqn:Hget.
  - rewrite (addOrUpdateStat_update i t v this s) by done.
    by rewrite update_element_statsResult, update_element_statsMap,
      update_element_length.
  - apply Map_get_None in Hget.
    unfold addOrUpdateStat. unfold enabled in Hen. rewrite Hen, Hget. simpl.
    set (el := length (document this)).
    set (this1 := update_element el _ _).
    assert (Hres1 : _statsResult this1 = _statsResult this).
    { unfold this1. by rewrite update_element_statsResult. }
    assert (Hmap1 : statsMap this1 = statsMap this).
    { unfold this1. by rewrite update_element_statsMap. }
    assert (Hlen1 : length (document this1) = S el).
    { unfold this1. rewrite update_element_length. simpl.
      rewrite length_app. simpl. unfold el. lia. }
    clearbody this1.
    unfold statsResult. destruct (_statsResult this1) as [res|] eqn:Hres;
      simpl.
    + rewrite update_element_statsResult, update_element_statsMap,
        update_element_length, Hres.
      rewrite Hmap1, (Map_set_fresh _ _ _ Hget), length_app, Hlen1. simpl.
      rewrite <- Hres1 in Hq. destruct Hq as [_ Hq]. fold el in Hq.
      split; [by destruct (statsMap this) | lia].
    + rewrite !update_element_statsResult, !update_element_statsMap,
        !update_element_length. simpl.
      rewrite Hmap1, (Map_set_fresh _ _ _ Hget), !length_app, Hlen1. simpl.
      rewrite <- Hres1 in Hq. destruct Hq as [Hempty Hq]. fold el in Hq.
      rewrite Hempty. simpl. split; [done | lia].
Qed.

(** X18: the panel creates one element for each stat and one results
    container, and nothing else. From a new panel, after any sequence of
    operations the document holds the elements it held at the start, one
    element for each entry of the registry, and the results container
    once there is an entry: an update reuses the element of its stat,
    and handling a snapshot again creates nothing. *)
Theorem one_element_for_each_stat config doc ops :
  length (document (exec_all ops (constructor config doc)))
  = (length doc + length (statsMap (exec_all ops (constructor config doc)))
     + match statsMap (exec_all ops (constructor config doc)) with
       | [] => 0
       | _ :: _ => 1
       end)%nat.
Proof.
  pose (Q := fun p : StatsPanel =>
          match _statsResult p with
          | Some _ =>
              statsMap p <> [] /\
              length (document p)
                = (length doc + length (statsMap p) + 1)%nat
          | None => statsMap p = [] /\ length (document p) = length doc
          end).
  cut (Q (exec_all ops (constructor config doc))).
  { unfold Q. destruct (_statsResult _); intros [Hmap Hlen].
    - by destruct (statsMap _).
    - rewrite Hmap, Hlen. simpl. lia. }
  assert (Hnew : Q (constructor config doc)) by done.
  revert Hnew. generalize (constructor config doc).
  induction ops as [|o ops IH]; intros this Hthis; [exact Hthis |].
  simpl. apply IH. revert Hthis. apply (hoare_exec Q). intros i t v p.
  apply addOrUpdateStat_elements.
Qed.

End Elements.

(** ** The view tree *)

Section ViewLogic.
Context {browser : Browser} {imports : Imports}
  {collaborators : Collaborators}.
Implicit Types (this old : StatsPanelView) (h : handle).

Lemma triple_ret {A} (Q : A -> StatsPanelView -> Prop) (a : A) :
  triple (Q a) (mret a) Q.
Proof. by intros this. Qed.

Lemma triple_bind {A B} P (Q : A -> StatsPanelView -> Prop)
    (R : B -> StatsPanelView -> Prop) (m : M A) (k : A -> M B) :
  triple P m Q -> (forall a, triple (Q a) (k a) R) -> triple P (m ≫= k) R.
Proof.
  intros Hm Hk this HP. specialize (Hm this HP).
  unfold mbind, M_bind. destruct (m this) as [a this']. by apply Hk.
Qed.

Lemma triple_pure {A} (φ : Prop) P (m : M A) Q :
  (φ -> triple P m Q) -> triple (fun this => φ /\ P this) m Q.
Proof. intros Hm this [Hφ HP]. by apply Hm. Qed.

Lemma triple_weaken {A} (P P' : StatsPanelView -> Prop) (m : M A)
    (Q Q' : A -> StatsPanelView -> Prop) :
  (forall this, P' this -> P this) ->
  (forall a this, Q a this -> Q' a this) ->
  triple P m Q -> triple P' m Q'.
Proof. intros HP HQ Hm this HP'. by apply HQ, Hm, HP. Qed.

(** What a piece of code does from one given state. *)
Lemma triple_exact {A} (m : M A) old :
  triple (fun this => this = old) m
    (fun a this => a = (m old).1 /\ this = (m old).2).
Proof. by intros this ->. Qed.

Lemma cache_grows_refl n c : cache_grows n n c c.
Proof. by destruct c. Qed.

Lemma grows_refl this : grows this this.
Proof.
  split; try reflexivity; try apply cache_grows_refl. eauto.
Qed.

Lemma cache_grows_trans n1 n2 n3 c1 c2 c3 :
  (n1 <= n2 <= n3)%nat ->
  cache_grows n1 n2 c1 c2 -> cache_grows n2 n3 c2 c3 ->
  cache_grows n1 n3 c1 c3.
Proof.
  unfold cache_grows. intros Hn H12 H23.
  destruct c1 as [h1|], c2 as [h2|], c3 as [h3|]; try done;
    try congruence; try lia.
  injection H23 as ->. lia.
Qed.

Lemma grows_trans a b c : grows a b -> grows b c -> grows a c.
Proof.
  intros [Hm1 Hc1 Hl1 Hr1 Hx1 Hn1 Hk1 Hs1 He1]
         [Hm2 Hc2 Hl2 Hr2 Hx2 Hn2 Hk2 Hs2 He2].
  split; try congruence; try lia;
    try (eapply cache_grows_trans; [split; eassumption | eassumption ..]).
  intros h el Hel.
  destruct (He1 h el Hel) as (el1 & Hel1 & Ht1 & Hcl1 & Hi1).
  destruct (He2 h el1 Hel1) as (el2 & Hel2 & Ht2 & Hcl2 & Hi2).
  exists el2. repeat split; congruence.
Qed.


Lemma cache_grows_mono n n1 n2 c c' :
  (n1 <= n2)%nat -> cache_grows n n1 c c' -> cache_grows n n2 c c'.
Proof. unfold cache_grows. destruct c, c'; try done. lia. Qed.

(** A change of the document that keeps the look of the old elements
    keeps the growth. *)
Lemma grows_with_document old this doc' :
  grows old this ->
  (length (document (panel this)) <= length doc')%nat ->
  (forall h el, (h < length (document (panel old)))%nat ->
     document (panel this) !! h = Some el ->
     exists el', doc' !! h = Some el' /\ innerHTML el' = innerHTML el /\
                 classList el' = classList el /\ el_id el' = el_id el) ->
  grows old (with_panel (with_document doc' (panel this)) this).
Proof.
  intros [Hm Hc Hl Hr Hx Hn Hk Hs He] Hlen Hdoc.
  split; simpl; try done; try lia;
    try (eapply cache_grows_mono; [exact Hlen | eassumption]).
  intros h el Hel.
  destruct (He h el Hel) as (el1 & Hel1 & Ht1 & Hcl1 & Hi1).
  destruct (Hdoc h el1) as (el2 & Hel2 & Ht2 & Hcl2 & Hi2);
    [by eapply lookup_lt_Some | done |].
  exists el2. split; [exact Hel2 | repeat split; congruence].
Qed.

Lemma with_document_same (p : StatsPanel) : with_document (document p) p = p.
Proof. by destruct p. Qed.

Lemma with_panel_same this : with_panel (panel this) this = this.
Proof. by destruct this. Qed.

Lemma grows_createElement old :
  triple (grows old) v_createElement
    (fun h this =>
       (length (document (panel old)) <= h)%nat /\ grows old this).
Proof.
  intros this Hg. simpl. split; [apply (grows_length _ _ Hg) |].
  apply grows_with_document; [done | rewrite length_app; lia |].
  intros h el _ Hel. exists el.
  rewrite lookup_app_l by (by eapply lookup_lt_Some). done.
Qed.

Lemma grows_update old h f :
  (length (document (panel old)) <= h)%nat ->
  triple (grows old) (v_update h f) (fun _ => grows old).
Proof.
  intros Hh this Hg. simpl. unfold update_element.
  destruct (document (panel this) !! h) as [el|] eqn:Hel.
  - apply grows_with_document; [done | by rewrite length_insert |].
    intros h' el' Hlt Hel'. exists el'.
    rewrite list_lookup_insert_ne by lia. done.
  - by rewrite with_panel_same.
Qed.

Lemma Node_appendChild_length parent child doc :
  length (Node_appendChild parent child doc) = length doc.
Proof.
  unfold Node_appendChild.
  destruct ((remove_child child <$> doc) !! parent);
    by rewrite ?length_insert, length_fmap.
Qed.

Lemma Node_appendChild_look parent child doc h el :
  doc !! h = Some el ->
  exists el', Node_appendChild parent child doc !! h = Some el' /\
              innerHTML el' = innerHTML el /\
              classList el' = classList el /\ el_id el' = el_id el.
Proof.
  intros Hel. unfold Node_appendChild.
  assert (Hrem : (remove_child child <$> doc) !! h
                 = Some (remove_child child el)).
  { rewrite list_lookup_fmap. apply fmap_Some. by exists el. }
  destruct ((remove_child child <$> doc) !! parent) as [pel|] eqn:Hp;
    [|by eexists].
  destruct (decide (parent = h)) as [->|Hne].
  - rewrite list_lookup_insert_eq
      by (rewrite length_fmap; by eapply lookup_lt_Some).
    eexists. split; [reflexivity |].
    rewrite Hrem in Hp. injection Hp as <-. done.
  - rewrite list_lookup_insert_ne by done. by eexists.
Qed.

Lemma grows_appendChild old parent child :
  triple (grows old) (v_appendChild parent child) (fun _ => grows old).
Proof.
  intros this Hg. simpl.
  apply grows_with_document;
    [done | by rewrite Node_appendChild_length |].
  intros h el _ Hel. by apply Node_appendChild_look.
Qed.

Lemma grows_state_unchanged {A} old (m : M A) :
  (forall this, (m this).2 = this) ->
  triple (grows old) m (fun _ => grows old).
Proof. intros Hm this Hg. by rewrite Hm. Qed.

Lemma grows_isSectionEnabled old section :
  triple (grows old) (v_isSectionEnabled section) (fun _ => grows old).
Proof. by apply grows_state_unchanged. Qed.

Lemma grows_ret {A} old (a : A) :
  triple (grows old) (mret a) (fun _ => grows old).
Proof. by apply grows_state_unchanged. Qed.

Lemma grows_ret_value {A} old (a : A) :
  triple (grows old) (mret a) (fun x this => x = a /\ grows old this).
Proof. by intros this Hg. Qed.

Lemma grows_collaborator old getter :
  (forall doc, doc `prefix_of` (getter doc).2) ->
  triple (grows old) (v_collaborator getter) (fun _ => grows old).
Proof.
  intros Hadd this Hg. unfold v_collaborator.
  specialize (Hadd (document (panel this))).
  destruct (getter (document (panel this))) as [h doc'] eqn:Hgetter.
  simpl in *. destruct Hadd as [more ->].
  apply grows_with_document; [done | rewrite length_app; lia |].
  intros h' el _ Hel. exists el.
  rewrite lookup_app_l by (by eapply lookup_lt_Some). done.
Qed.

(** The [statsResult] getter of the panel, seen from the view. *)
Lemma grows_statsResult old :
  triple (grows old) get_statsResult (fun _ => grows old).
Proof.
  intros this Hg. unfold get_statsResult, statsResult.
  destruct (_statsResult (panel this)) as [res|] eqn:Hres; simpl.
  - by rewrite with_panel_same.
  - destruct Hg as [Hm Hc Hl Hr Hx Hn Hk Hs He].
    rewrite Hres in Hs.
    split; simpl;
      rewrite ?update_element_statsMap, ?update_element_config,
        ?update_element_statsResult, ?update_element_length; simpl;
      rewrite ?length_app; simpl; try done; try lia;
      try (eapply cache_grows_mono; [|eassumption]; lia).
    + unfold cache_grows in *.
      destruct (_statsResult (panel old)); [done | lia].
    + intros h el Hel.
      destruct (He h el Hel) as (el1 & Hel1 & Hlook).
      exists el1. split; [|exact Hlook].
      assert (Hlt : (h < length (document (panel this)))%nat)
        by (by eapply lookup_lt_Some).
      rewrite !update_element_lookup.
      repeat case_decide; try lia. simpl.
      by rewrite lookup_app_l.
Qed.

End ViewLogic.

(** Follows a piece of view code that only adds to the view; [nested]
    settles the getters it calls. *)
Ltac grows_walk collab nested :=
  repeat (cbv beta iota;
    lazymatch goal with
    | |- triple _ (mbind _ v_createElement) _ =>
        eapply triple_bind;
        [ apply grows_createElement
        | let h := fresh "h" in
          let Hh := fresh "Hfresh" in
          intros h; apply triple_pure; intros Hh ]
    | |- triple _ (mbind _ (v_update _ _)) _ =>
        eapply triple_bind; [ apply grows_update; assumption | intros ? ]
    | |- triple _ (mbind _ (v_appendChild _ _)) _ =>
        eapply triple_bind; [ apply grows_appendChild | intros ? ]
    | |- triple _ (mbind _ (v_isSectionEnabled _)) _ =>
        eapply triple_bind; [ apply grows_isSectionEnabled | intros [|] ]
    | |- triple _ (mbind _ (v_collaborator _)) _ =>
        eapply triple_bind;
        [ apply grows_collaborator; collab | intros ? ]
    | |- triple _ (mbind _ get_statsResult) _ =>
        eapply triple_bind; [ apply grows_statsResult | intros ? ]
    | |- triple _ (mbind _ (mbind _ _)) _ =>
        eapply triple_bind; [ | intros ? ]
    | |- triple _ (mbind _ (mret _)) _ =>
        eapply triple_bind; [ apply grows_ret | intros ? ]
    | |- triple _ (mbind _ _) _ =>
        eapply triple_bind; [ nested | intros ? ]
    | |- triple _ (v_update _ _) _ => apply grows_update; assumption
    | |- triple _ (v_appendChild _ _) _ => apply grows_appendChild
    | |- triple _ (mret _) (fun _ => grows _) => apply grows_ret
    | |- triple _ (mret _) _ =>
        first [ apply grows_ret_value | apply grows_ret ]
    end).

Section ViewGetters.
Context {browser : Browser} {imports : Imports}
  {collaborators : Collaborators}.
Implicit Types (this old : StatsPanelView).

(** Runs the first step of a piece of code from a given state. *)
Lemma triple_first {A B} (m : M A) (k : A -> M B) old Q :
  triple (fun this => this = (m old).2) (k (m old).1) Q ->
  triple (fun this => this = old) (m ≫= k) Q.
Proof.
  intros Hk this ->. unfold mbind, M_bind.
  specialize (Hk (m old).2 eq_refl). by destruct (m old).
Qed.

Lemma triple_from {A} (P : StatsPanelView -> Prop) (m : M A) Q old :
  P old -> triple P m Q -> triple (fun this => this = old) m Q.
Proof. intros HP Hm this ->. by apply Hm. Qed.

(** ** Setting a cache *)

Lemma grows_set_rootElement old this h :
  grows old this -> _rootElement old = None ->
  (length (document (panel old)) <= h < length (document (panel this)))%nat ->
  grows old (after (set_rootElement h) this).
Proof. intros [] Hn Hh. split; simpl; try done. by rewrite Hn. Qed.

Lemma grows_set_statsCloseButton old this h :
  grows old this -> _statsCloseButton old = None ->
  (length (document (panel old)) <= h < length (document (panel this)))%nat ->
  grows old (after (set_statsCloseButton h) this).
Proof. intros [] Hn Hh. split; simpl; try done. by rewrite Hn. Qed.

Lemma grows_set_statsContentElement old this h :
  grows old this -> _statsContentElement old = None ->
  (length (document (panel old)) <= h < length (document (panel this)))%nat ->
  grows old (after (set_statsContentElement h) this).
Proof. intros [] Hn Hh. split; simpl; try done. by rewrite Hn. Qed.

Lemma grows_set_statisticsContainer old this h :
  grows old this -> _statisticsContainer old = None ->
  (length (document (panel old)) <= h < length (document (panel this)))%nat ->
  grows old (after (set_statisticsContainer h) this).
Proof. intros [] Hn Hh. split; simpl; try done. by rewrite Hn. Qed.

Lemma createElement_allocates this :
  (length (document (panel this))
     < length (document (panel (after v_createElement this))))%nat.
Proof. simpl. rewrite length_app. simpl. lia. Qed.

(** ** The close button *)

Lemma get_statsCloseButton_fresh this :
  _statsCloseButton this = None ->
  exists v1,
    grows this v1 /\
    _statsCloseButton v1 = Some (length (document (panel this))) /\
    (get_statsCloseButton this).1 = length (document (panel this)) /\
    grows v1 (after get_statsCloseButton this).
Proof.
  intros Hnone. set (h := length (document (panel this))).
  destruct (grows_createElement this this (grows_refl this)) as [_ Hg0].
  pose proof (createElement_allocates this) as Hlt.
  pose proof (grows_set_statsCloseButton this _ h Hg0 Hnone
                (conj (le_n _) Hlt)) as Hg1.
  pose proof (grows_update this h (set_id "statsClose") (le_n _) _ Hg1)
    as Hg2.
  eexists. split; [exact Hg2 |]. split; [reflexivity |].
  unfold after, get_statsCloseButton. rewrite Hnone.
  revert this Hnone h Hg0 Hlt Hg1 Hg2. intros.
  match goal with
  | |- (?m this).1 = _ /\ grows ?v (?m this).2 =>
      apply (fun H : triple (fun s => s = this) m
                       (fun a s => a = h /\ grows v s) => H this eq_refl)
  end.
  do 3 (apply triple_first; cbv beta).
  intros s ->. split; [reflexivity | apply grows_refl].
Qed.

Lemma grows_get_statsCloseButton old :
  triple (grows old) get_statsCloseButton (fun _ => grows old).
Proof.
  intros this Hg. destruct (_statsCloseButton this) as [h|] eqn:Hc.
  - unfold get_statsCloseButton. by rewrite Hc.
  - destruct (get_statsCloseButton_fresh this Hc) as (v1 & H1 & _ & _ & H2).
    eapply grows_trans; [exact Hg |]. by eapply grows_trans.
Qed.

(** ** The container of the statistics *)

Lemma get_statisticsContainer_fresh this :
  _statisticsContainer this = None ->
  exists v1,
    grows this v1 /\
    _statisticsContainer v1 = Some (length (document (panel this))) /\
    (get_statisticsContainer this).1 = length (document (panel this)) /\
    grows v1 (after get_statisticsContainer this).
Proof.
  intros Hnone. set (h := length (document (panel this))).
  destruct (grows_createElement this this (grows_refl this)) as [_ Hg0].
  pose proof (createElement_allocates this) as Hlt.
  pose proof (grows_set_statisticsContainer this _ h Hg0 Hnone
                (conj (le_n _) Hlt)) as Hg1.
  pose proof (grows_update this h (set_id "statisticsContainer") (le_n _)
                _ Hg1) as Hg2.
  pose proof (grows_update this h (classList_add "d-none") (le_n _)
                _ Hg2) as Hg3.
  eexists. split; [exact Hg3 |]. split; [reflexivity |].
  unfold after, get_statisticsContainer. rewrite Hnone.
  match goal with
  | |- (?m this).1 = _ /\ grows ?v (?m this).2 =>
      apply (fun H : triple (fun s => s = this) m
                       (fun a s => a = h /\ grows v s) => H this eq_refl)
  end.
  do 4 (apply triple_first; cbv beta).
  eapply triple_from; [apply grows_refl |].
  grows_walk fail fail.
Qed.

Lemma grows_get_statisticsContainer old :
  triple (grows old) get_statisticsContainer (fun _ => grows old).
Proof.
  intros this Hg. destruct (_statisticsContainer this) as [h|] eqn:Hc.
  - unfold get_statisticsContainer. by rewrite Hc.
  - destruct (get_statisticsContainer_fresh this Hc)
      as (v1 & H1 & _ & _ & H2).
    eapply grows_trans; [exact Hg |]. by eapply grows_trans.
Qed.

(** ** The content element *)

Lemma get_statsContentElement_fresh this :
  collaborators_only_add ->
  _statsContentElement this = None ->
  exists v1,
    grows this v1 /\
    _statsContentElement v1 = Some (length (document (panel this))) /\
    (get_statsContentElement this).1 = length (document (panel this)) /\
    grows v1 (after get_statsContentElement this).
Proof.
  intros [Hlat Hdc] Hnone. set (h := length (document (panel this))).
  destruct (grows_createElement this this (grows_refl this)) as [_ Hg0].
  pose proof (createElement_allocates this) as Hlt.
  pose proof (grows_set_statsContentElement this _ h Hg0 Hnone
                (conj (le_n _) Hlt)) as Hg1.
  pose proof (grows_update this h (set_id "statsContent") (le_n _)
                _ Hg1) as Hg2.
  eexists. split; [exact Hg2 |]. split; [reflexivity |].
  unfold after, get_statsContentElement. rewrite Hnone.
  match goal with
  | |- (?m this).1 = _ /\ grows ?v (?m this).2 =>
      apply (fun H : triple (fun s => s = this) m
                       (fun a s => a = h /\ grows v s) => H this eq_refl)
  end.
  do 3 (apply triple_first; cbv beta).
  eapply triple_from; [apply grows_refl |].
  grows_walk ltac:(first [exact Hlat | exact Hdc])
             ltac:(apply grows_get_statisticsContainer).
Qed.

Lemma grows_get_statsContentElement old :
  collaborators_only_add ->
  triple (grows old) get_statsContentElement (fun _ => grows old).
Proof.
  intros Hadd this Hg. destruct (_statsContentElement this) as [h|] eqn:Hc.
  - unfold get_statsContentElement. by rewrite Hc.
  - destruct (get_statsContentElement_fresh this Hadd Hc)
      as (v1 & H1 & _ & _ & H2).
    eapply grows_trans; [exact Hg |]. by eapply grows_trans.
Qed.

(** ** The root element *)

Lemma get_rootElement_fresh this :
  collaborators_only_add ->
  _rootElement this = None ->
  exists v1,
    grows this v1 /\
    _rootElement v1 = Some (length (document (panel this))) /\
    classList <$> document (panel v1) !! length (document (panel this))
      = Some ["panel-wrap"] /\
    (get_rootElement this).1 = length (document (panel this)) /\
    grows v1 (after get_rootElement this).
Proof.
  intros Hadd Hnone. set (h := length (document (panel this))).
  destruct (grows_createElement this this (grows_refl this)) as [_ Hg0].
  pose proof (createElement_allocates this) as Hlt.
  pose proof (grows_set_rootElement this _ h Hg0 Hnone
                (conj (le_n _) Hlt)) as Hg1.
  pose proof (grows_update this h (set_id "stats-panel") (le_n _)
                _ Hg1) as Hg2.
  pose proof (grows_update this h (classList_add "panel-wrap") (le_n _)
                _ Hg2) as Hg3.
  eexists. split; [exact Hg3 |]. split; [reflexivity |]. split.
  { simpl. rewrite !update_element_lookup. rewrite !decide_True by done.
    simpl. rewrite lookup_app_r by done. by rewrite Nat.sub_diag. }
  unfold after, get_rootElement. rewrite Hnone.
  match goal with
  | |- (?m this).1 = _ /\ grows ?v (?m this).2 =>
      apply (fun H : triple (fun s => s = this) m
                       (fun a s => a = h /\ grows v s) => H this eq_refl)
  end.
  do 4 (apply triple_first; cbv beta).
  eapply triple_from; [apply grows_refl |].
  grows_walk fail
    ltac:(first [ apply grows_get_statsCloseButton
                | by apply grows_get_statsContentElement ]).
Qed.

Lemma grows_get_rootElement old :
  collaborators_only_add ->
  triple (grows old) get_rootElement (fun _ => grows old).
Proof.
  intros Hadd this Hg. destruct (_rootElement this) as [h|] eqn:Hc.
  - unfold get_rootElement. by rewrite Hc.
  - destruct (get_rootElement_fresh this Hadd Hc)
      as (v1 & H1 & _ & _ & _ & H2).
    eapply grows_trans; [exact Hg |]. by eapply grows_trans.
Qed.

End ViewGetters.

Section ViewFacts.
Context {browser : Browser} {imports : Imports}
  {collaborators : Collaborators}.
Implicit Types (this old : StatsPanelView).

(** ** What growth keeps *)

Lemma cache_grows_allocated n n' c c' h :
  (n <= n')%nat -> cache_grows n n' c c' ->
  (forall h, c = Some h -> (h < n)%nat) ->
  c' = Some h -> (h < n')%nat.
Proof.
  intros Hn Hc Hold ->. destruct c as [h'|]; simpl in Hc.
  - injection Hc as ->. specialize (Hold _ eq_refl). lia.
  - lia.
Qed.

Lemma grows_allocated old this :
  grows old this -> view_allocated old -> view_allocated this.
Proof.
  intros [Hm Hc Hl Hr Hx Hn Hk Hs He] Hold h Hh.
  destruct Hh as [Hh|[Hh|[Hh|[Hh|Hh]]]];
    [ apply (cache_grows_allocated _ _ _ _ h Hl Hr)
    | apply (cache_grows_allocated _ _ _ _ h Hl Hx)
    | apply (cache_grows_allocated _ _ _ _ h Hl Hn)
    | apply (cache_grows_allocated _ _ _ _ h Hl Hk)
    | apply (cache_grows_allocated _ _ _ _ h Hl Hs) ];
    try exact Hh; intros h' Hh'; apply Hold; auto.
Qed.

Lemma grows_wf old this : grows old this -> wf (panel old) -> wf (panel this).
Proof.
  intros Hg. apply wf_grow; [apply (grows_statsMap _ _ Hg) |].
  apply (grows_length _ _ Hg).
Qed.

Lemma grows_displayed old this i :
  grows old this -> wf (panel old) ->
  displayed (panel this) i = displayed (panel old) i.
Proof.
  intros Hg Hwf. rewrite !displayed_text, (grows_statsMap _ _ Hg).
  destruct (Map_get (statsMap (panel old)) i) as [s|] eqn:Hget; simpl;
    [|reflexivity].
  pose proof (wf_element_allocated _ _ _ Hwf Hget) as Hlt.
  apply lookup_lt_is_Some_2 in Hlt as [el Hel].
  destruct (grows_elements _ _ Hg _ _ Hel) as (el' & Hel' & Htext & _).
  assert (Hboth : forall o o' : option HTMLElement,
             o = Some el -> o' = Some el' ->
             innerHTML <$> o' = innerHTML <$> o)
    by (intros ? ? -> ->; simpl; by rewrite Htext).
  by apply Hboth.
Qed.

(** ** A getter called again *)

Lemma get_statsResult_caches this :
  _statsResult (panel (after get_statsResult this))
    = Some (get_statsResult this).1.
Proof.
  unfold after, get_statsResult, statsResult.
  destruct (_statsResult (panel this)) as [h|] eqn:Hc; simpl; [done |].
  by rewrite !update_element_statsResult.
Qed.

Lemma get_statsCloseButton_caches this :
  _statsCloseButton (after get_statsCloseButton this)
    = Some (get_statsCloseButton this).1.
Proof.
  destruct (_statsCloseButton this) as [h|] eqn:Hc.
  - unfold after, get_statsCloseButton. by rewrite Hc.
  - destruct (get_statsCloseButton_fresh this Hc)
      as (v1 & _ & Hv1 & -> & Hg).
    pose proof (grows_close _ _ Hg) as Hk. by rewrite Hv1 in Hk.
Qed.

Lemma get_statisticsContainer_caches this :
  _statisticsContainer (after get_statisticsContainer this)
    = Some (get_statisticsContainer this).1.
Proof.
  destruct (_statisticsContainer this) as [h|] eqn:Hc.
  - unfold after, get_statisticsContainer. by rewrite Hc.
  - destruct (get_statisticsContainer_fresh this Hc)
      as (v1 & _ & Hv1 & -> & Hg).
    pose proof (grows_container _ _ Hg) as Hk. by rewrite Hv1 in Hk.
Qed.

Lemma get_statsContentElement_caches this :
  collaborators_only_add ->
  _statsContentElement (after get_statsContentElement this)
    = Some (get_statsContentElement this).1.
Proof.
  intros Hadd. destruct (_statsContentElement this) as [h|] eqn:Hc.
  - unfold after, get_statsContentElement. by rewrite Hc.
  - destruct (get_statsContentElement_fresh this Hadd Hc)
      as (v1 & _ & Hv1 & -> & Hg).
    pose proof (grows_content _ _ Hg) as Hk. by rewrite Hv1 in Hk.
Qed.

Lemma get_rootElement_caches this :
  collaborators_only_add ->
  _rootElement (after get_rootElement this) = Some (get_rootElement this).1.
Proof.
  intros Hadd. destruct (_rootElement this) as [h|] eqn:Hc.
  - unfold after, get_rootElement. by rewrite Hc.
  - destruct (get_rootElement_fresh this Hadd Hc)
      as (v1 & _ & Hv1 & _ & -> & Hg).
    pose proof (grows_root _ _ Hg) as Hk. by rewrite Hv1 in Hk.
Qed.

Lemma pair_eta {A B} (x : A * B) : x = (x.1, x.2).
Proof. by destruct x. Qed.

Lemma get_rootElement_again this :
  collaborators_only_add ->
  get_rootElement (after get_rootElement this)
    = ((get_rootElement this).1, after get_rootElement this).
Proof.
  intros Hadd. unfold get_rootElement at 1.
  by rewrite get_rootElement_caches.
Qed.

Lemma get_statsContentElement_again this :
  collaborators_only_add ->
  get_statsContentElement (after get_statsContentElement this)
    = ((get_statsContentElement this).1,
       after get_statsContentElement this).
Proof.
  intros Hadd. unfold get_statsContentElement at 1.
  by rewrite get_statsContentElement_caches.
Qed.

Lemma get_statisticsContainer_again this :
  get_statisticsContainer (after get_statisticsContainer this)
    = ((get_statisticsContainer this).1,
       after get_statisticsContainer this).
Proof.
  unfold get_statisticsContainer at 1.
  by rewrite get_statisticsContainer_caches.
Qed.

Lemma get_statsResult_again this :
  get_statsResult (after get_statsResult this)
    = ((get_statsResult this).1, after get_statsResult this).
Proof.
  unfold get_statsResult at 1, statsResult at 1.
  rewrite get_statsResult_caches. by rewrite with_panel_same.
Qed.

Lemma get_statsCloseButton_again this :
  get_statsCloseButton (after get_statsCloseButton this)
    = ((get_statsCloseButton this).1, after get_statsCloseButton this).
Proof.
  unfold get_statsCloseButton at 1. by rewrite get_statsCloseButton_caches.
Qed.

End ViewFacts.

Section PanelUnderTheView.
Context {browser : Browser} {imports : Imports}.
Implicit Types (p : StatsPanel).

Lemma classes_update_keep (h : handle) f p (h' : handle) :
  (forall el, classList (f el) = classList el) ->
  classList <$> document (update_element h f p) !! h' =
  classList <$> document p !! h'.
Proof.
  intros Hf. rewrite update_element_lookup. case_decide as Hh; [|reflexivity].
  subst h'. destruct (document p !! h); simpl; [by rewrite Hf | reflexivity].
Qed.

Lemma classes_update_other (h : handle) f p (h' : handle) :
  h <> h' ->
  classList <$> document (update_element h f p) !! h' =
  classList <$> document p !! h'.
Proof. intros Hh. rewrite update_element_lookup. by rewrite decide_False. Qed.

(** What every step of an upsert keeps, the upsert keeps. *)
Lemma addOrUpdateStat_keeps (P : StatsPanel -> Prop) :
  (forall p, P p -> P (createElement p).2) ->
  (forall p h html, P p -> P (update_element h (set_innerHTML html) p)) ->
  (forall p h c, P p -> P (update_element h (appendChild c) p)) ->
  (forall p, P p -> P (statsResult p).2) ->
  (forall p m, P p -> P (with_statsMap m p)) ->
  forall i t v, hoare P (addOrUpdateStat i t v) P.
Proof.
  intros Hc Hu Ha Hs Hm i t v p HP. unfold addOrUpdateStat.
  destruct (negb (isSectionEnabled (_config p) SessionStats)); [done |].
  destruct (negb (Map_has (statsMap p) i)).
  - specialize (Hc p HP). unfold createElement in *. simpl in Hc.
    cbv beta iota zeta.
    specialize (Hu _ (length (document p)) (t +:+ ": " +:+ interpolate v) Hc).
    specialize (Hs _ Hu).
    destruct (statsResult _) as [res p3]. simpl in Hs.
    apply Hm, Ha, Hs.
  - destruct (Map_get (statsMap p) i); [apply Hu |]; done.
Qed.

Lemma exec_keeps (P : StatsPanel -> Prop) o :
  (forall p, P p -> P (createElement p).2) ->
  (forall p h html, P p -> P (update_element h (set_innerHTML html) p)) ->
  (forall p h c, P p -> P (update_element h (appendChild c) p)) ->
  (forall p, P p -> P (statsResult p).2) ->
  (forall p m, P p -> P (with_statsMap m p)) ->
  hoare P (exec o) P.
Proof. intros. apply hoare_exec. by apply addOrUpdateStat_keeps. Qed.

Lemma exec_length o p :
  (length (document p) <= length (document (exec o p)))%nat.
Proof.
  apply (hoare_exec
           (fun q => (length (document p) <= length (document q))%nat));
    [|done].
  intros i t v q Hq. pose proof (addOrUpdateStat_length i t v q). lia.
Qed.

(** The operations of the registry keep the results container in the
    document. *)
Lemma exec_statsResult_allocated o p :
  (forall h, _statsResult p = Some h -> (h < length (document p))%nat) ->
  forall h, _statsResult (exec o p) = Some h ->
    (h < length (document (exec o p)))%nat.
Proof.
  apply (exec_keeps
           (fun q => forall h, _statsResult q = Some h ->
                       (h < length (document q))%nat)).
  - intros q Hq h Hh. simpl in *. rewrite length_app.
    specialize (Hq h Hh). lia.
  - intros q h0 html Hq h.
    rewrite update_element_statsResult, update_element_length. apply Hq.
  - intros q h0 c Hq h.
    rewrite update_element_statsResult, update_element_length. apply Hq.
  - intros q Hq h. unfold statsResult.
    destruct (_statsResult q) as [res|] eqn:Hres; simpl.
    + rewrite Hres. intros Hh. apply Hq. congruence.
    + rewrite !update_element_statsResult, !update_element_length. simpl.
      rewrite length_app. simpl. intros [= <-]. lia.
  - intros q m Hq h. simpl. apply Hq.
Qed.

(** The operations of the registry leave the classes of the elements of
    the document as they are. *)
Lemma exec_classes o p h :
  (h < length (document p))%nat ->
  classList <$> document (exec o p) !! h = classList <$> document p !! h.
Proof.
  intros Hh.
  cut ((length (document p) <= length (document (exec o p)))%nat /\
       classList <$> document (exec o p) !! h
         = classList <$> document p !! h); [by intros [_ ?] |].
  apply (exec_keeps
           (fun q => (length (document p) <= length (document q))%nat /\
                     classList <$> document q !! h
                       = classList <$> document p !! h)); [| | | | |done].
  - intros q [Hl Hq]. simpl. rewrite length_app. split; [lia |].
    rewrite lookup_app_l by lia. exact Hq.
  - intros q h0 html [Hl Hq]. rewrite update_element_length. split; [done |].
    by rewrite classes_update_keep.
  - intros q h0 c [Hl Hq]. rewrite update_element_length. split; [done |].
    by rewrite classes_update_keep.
  - intros q [Hl Hq]. unfold statsResult.
    destruct (_statsResult q) as [res|]; simpl; [done |].
    rewrite !update_element_length. simpl. rewrite length_app.
    split; [lia |]. rewrite !classes_update_other by lia. simpl.
    rewrite lookup_app_l by lia. exact Hq.
  - intros q m [Hl Hq]. done.
Qed.

End PanelUnderTheView.

Section ViewStates.
Context {browser : Browser} {imports : Imports}
  {collaborators : Collaborators}.
Implicit Types (this old : StatsPanelView).

(** The view after an assignment to a field of its root element. *)
Lemma toggleVisibility_after this :
  after toggleVisibility this =
  with_panel
    (update_element (get_rootElement this).1
       (classList_toggle "panel-wrap-visible")
       (panel (after get_rootElement this)))
    (after get_rootElement this).
Proof.
  unfold after, toggleVisibility, mbind, M_bind.
  by destruct (get_rootElement this).
Qed.

Lemma show_after this :
  collaborators_only_add ->
  after show this =
  let this' := after get_rootElement this in
  if negb (v_contains (get_rootElement this).1 "panel-wrap-visible" this').1
  then with_panel
         (update_element (get_rootElement this).1
            (classList_add "panel-wrap-visible") (panel this')) this'
  else this'.
Proof.
  intros Hadd. pose proof (get_rootElement_again this Hadd) as Hagain.
  unfold after, show, mbind, M_bind in *.
  destruct (get_rootElement this) as [r this']. simpl in *.
  destruct (negb _); [|reflexivity]. by rewrite Hagain.
Qed.

Lemma hide_after this :
  collaborators_only_add ->
  after hide this =
  let this' := after get_rootElement this in
  if (v_contains (get_rootElement this).1 "panel-wrap-visible" this').1
  then with_panel
         (update_element (get_rootElement this).1
            (classList_remove "panel-wrap-visible") (panel this')) this'
  else this'.
Proof.
  intros Hadd. pose proof (get_rootElement_again this Hadd) as Hagain.
  unfold after, hide, mbind, M_bind in *.
  destruct (get_rootElement this) as [r this']. simpl in *.
  match goal with |- context [if ?b then _ else _] => destruct b end;
    [|reflexivity].
  by rewrite Hagain.
Qed.

(** An assignment to an element that keeps its text keeps the view in a
    good state with the same registry. *)
Lemma update_allocated this h f :
  view_allocated this ->
  view_allocated (with_panel (update_element h f (panel this)) this).
Proof.
  intros Hv h' Hh'. simpl in *.
  rewrite update_element_statsResult in Hh'.
  rewrite update_element_length. by apply Hv.
Qed.

Lemma update_wf this h f :
  wf (panel this) ->
  wf (panel (with_panel (update_element h f (panel this)) this)).
Proof.
  apply wf_grow; simpl; [apply update_element_statsMap |].
  by rewrite update_element_length.
Qed.

Lemma update_displayed this h f i :
  (forall el, innerHTML (f el) = innerHTML el) ->
  displayed (panel (with_panel (update_element h f (panel this)) this)) i
    = displayed (panel this) i.
Proof.
  intros Hf. rewrite !displayed_text. simpl.
  rewrite update_element_statsMap.
  destruct (Map_get (statsMap (panel this)) i) as [s|]; simpl;
    [|reflexivity].
  by apply text_update_keep.
Qed.

(** Every operation on the view keeps the cached elements in the
    document and the registry in a good state. *)
Lemma view_exec_good o this :
  collaborators_only_add ->
  view_allocated this /\ wf (panel this) ->
  view_allocated (view_exec o this) /\ wf (panel (view_exec o this)).
Proof.
  intros Hadd [Hv Hwf].
  assert (Hroot : grows this (after get_rootElement this))
    by (apply grows_get_rootElement; [done | apply grows_refl]).
  assert (Hgood : forall this', grows this this' ->
            view_allocated this' /\ wf (panel this'))
    by (intros this' Hg; split;
        [by eapply grows_allocated | by eapply grows_wf]).
  destruct o; simpl.
  - rewrite show_after by done. cbv zeta.
    destruct (negb _); [|by apply Hgood].
    destruct (Hgood _ Hroot). split; [by apply update_allocated |].
    by apply update_wf.
  - rewrite hide_after by done. cbv zeta.
    match goal with |- context [if ?b then _ else _] => destruct b end;
      [|by apply Hgood].
    destruct (Hgood _ Hroot). split; [by apply update_allocated |].
    by apply update_wf.
  - rewrite toggleVisibility_after.
    destruct (Hgood _ Hroot). split; [by apply update_allocated |].
    by apply update_wf.
  - by apply Hgood.
  - apply Hgood. apply grows_get_statsContentElement; [done |].
    apply grows_refl.
  - apply Hgood. apply grows_get_statisticsContainer, grows_refl.
  - apply Hgood. apply grows_statsResult, grows_refl.
  - apply Hgood. apply grows_get_statsCloseButton, grows_refl.
Qed.

Lemma on_panel_good o this :
  view_allocated this /\ wf (panel this) ->
  view_allocated (on_panel o this) /\ wf (panel (on_panel o this)).
Proof.
  intros [Hv Hwf]. split.
  - intros h Hh. simpl in *.
    pose proof (exec_length o (panel this)) as Hlen.
    destruct Hh as [Hh|[Hh|[Hh|[Hh|Hh]]]];
      try (specialize (Hv h); assert (h < length (document (panel this)))%nat
             by (apply Hv; auto); lia).
    revert h Hh. apply exec_statsResult_allocated.
    intros h Hh. apply Hv. auto.
  - simpl. revert Hwf. apply hoare_exec. intros i t v p.
    apply wf_addOrUpdateStat.
Qed.

Lemma view_reachable_good this :
  collaborators_only_add ->
  view_reachable this -> view_allocated this /\ wf (panel this).
Proof.
  intros Hadd. induction 1 as [config doc | o this _ IH | o this _ IH
                              | this _ IH].
  - split; [|apply wf_new]. intros h Hh. simpl in Hh.
    destruct Hh as [Hh|[Hh|[Hh|[Hh|Hh]]]]; done.
  - by apply view_exec_good.
  - by apply on_panel_good.
  - destruct IH as [Hv Hwf].
    destruct (grows_createElement this this (grows_refl this)) as [_ Hg].
    split; [by eapply grows_allocated | by eapply grows_wf].
Qed.

(** ** Visibility *)

Lemma is_visible_classes this :
  is_visible this =
  match _rootElement this with
  | Some root =>
      match classList <$> document (panel this) !! root with
      | Some classes => bool_decide ("panel-wrap-visible" ∈ classes)
      | None => false
      end
  | None => false
  end.
Proof.
  unfold is_visible. destruct (_rootElement this) as [root|]; [|done].
  by destruct (document (panel this) !! root).
Qed.

(** The root element after its getter: it is cached and in the document,
    and it is visible exactly when the panel was. *)
Lemma root_ready this :
  collaborators_only_add -> view_allocated this ->
  _rootElement (after get_rootElement this) = Some (get_rootElement this).1 /\
  exists el,
    document (panel (after get_rootElement this)) !! (get_rootElement this).1
      = Some el /\
    classList_contains "panel-wrap-visible" el = is_visible this.
Proof.
  intros Hadd Hv. split; [by apply get_rootElement_caches |].
  destruct (_rootElement this) as [root|] eqn:Hroot.
  - unfold after, get_rootElement, is_visible. rewrite Hroot. simpl.
    assert (Hlt : (root < length (document (panel this)))%nat)
      by (apply Hv; auto).
    apply lookup_lt_is_Some_2 in Hlt as [el Hel]. exists el.
    split; [exact Hel |].
    assert (Hboth : forall o : option HTMLElement, o = Some el ->
              classList_contains "panel-wrap-visible" el =
              match o with
              | Some el => classList_contains "panel-wrap-visible" el
              | None => false
              end) by (by intros ? ->).
    by apply Hboth.
  - destruct (get_rootElement_fresh this Hadd Hroot)
      as (v1 & _ & _ & Hclasses & -> & Hg).
    apply fmap_Some in Hclasses as (el & Hel & Hcl).
    destruct (grows_elements _ _ Hg _ _ Hel) as (el' & Hel' & _ & Hcl' & _).
    exists el'. split; [exact Hel' |].
    unfold is_visible, classList_contains. rewrite Hroot, Hcl', <- Hcl.
    reflexivity.
Qed.

Lemma is_visible_update this root el f :
  _rootElement this = Some root ->
  document (panel this) !! root = Some el ->
  is_visible (with_panel (update_element root f (panel this)) this)
    = classList_contains "panel-wrap-visible" (f el).
Proof.
  intros Hroot Hel. rewrite is_visible_classes. simpl. rewrite Hroot.
  rewrite update_element_lookup, decide_True by done.
  assert (Hboth : forall o : option HTMLElement, o = Some el ->
            match classList <$> (f <$> o) with
            | Some classes => bool_decide ("panel-wrap-visible" ∈ classes)
            | None => false
            end = classList_contains "panel-wrap-visible" (f el))
    by (by intros ? ->).
  by apply Hboth.
Qed.

Lemma is_visible_root this root el :
  _rootElement this = Some root ->
  document (panel this) !! root = Some el ->
  is_visible this = classList_contains "panel-wrap-visible" el.
Proof.
  intros Hroot Hel. unfold is_visible. rewrite Hroot.
  assert (Hboth : forall o : option HTMLElement, o = Some el ->
            match o with
            | Some el => classList_contains "panel-wrap-visible" el
            | None => false
            end = classList_contains "panel-wrap-visible" el)
    by (by intros ? ->).
  by apply Hboth.
Qed.

Lemma contains_add c el : classList_contains c (classList_add c el) = true.
Proof.
  unfold classList_contains, classList_add. simpl.
  apply bool_decide_eq_true. case_bool_decide; [done |].
  apply elem_of_app. right. by apply list_elem_of_singleton.
Qed.

Lemma contains_remove c el :
  classList_contains c (classList_remove c el) = false.
Proof.
  unfold classList_contains, classList_remove. simpl.
  apply bool_decide_eq_false. rewrite list_elem_of_filter. by intros [? _].
Qed.

Lemma contains_toggle c el :
  classList_contains c (classList_toggle c el)
    = negb (classList_contains c el).
Proof.
  unfold classList_toggle.
  destruct (classList_contains c el) eqn:Hc; simpl.
  - apply contains_remove.
  - apply contains_add.
Qed.

Lemma v_contains_root this root el c :
  document (panel this) !! root = Some el ->
  (v_contains root c this).1 = classList_contains c el.
Proof.
  intros Hel. unfold v_contains. simpl.
  assert (Hboth : forall o : option HTMLElement, o = Some el ->
            match o with
            | Some el => classList_contains c el
            | None => false
            end = classList_contains c el)
    by (by intros ? ->).
  by apply Hboth.
Qed.

End ViewStates.

Section ViewTheorems.
Context {browser : Browser} {imports : Imports}
  {collaborators : Collaborators}.
Implicit Types (this old : StatsPanelView).

(** X12: a getter of the view tree creates its element on the first
    call only: called again, each of the five getters ([rootElement],
    [statsContentElement], [statisticsContainer], [statsResult],
    [statsCloseButton]) returns the element of the first call and leaves
    the panel and its document as they are. The getters of the two
    latency tests are taken to only add elements to the document. *)
Theorem getters_create_once this :
  collaborators_only_add ->
  get_rootElement (after get_rootElement this)
    = ((get_rootElement this).1, after get_rootElement this) /\
  get_statsContentElement (after get_statsContentElement this)
    = ((get_statsContentElement this).1,
       after get_statsContentElement this) /\
  get_statisticsContainer (after get_statisticsContainer this)
    = ((get_statisticsContainer this).1,
       after get_statisticsContainer this) /\
  get_statsResult (after get_statsResult this)
    = ((get_statsResult this).1, after get_statsResult this) /\
  get_statsCloseButton (after get_statsCloseButton this)
    = ((get_statsCloseButton this).1, after get_statsCloseButton this).
Proof.
  intros Hadd.
  split; [by apply get_rootElement_again |].
  split; [by apply get_statsContentElement_again |].
  split; [apply get_statisticsContainer_again |].
  split; [apply get_statsResult_again | apply get_statsCloseButton_again].
Qed.

(** X13: in every state the panel reaches, [show()] leaves the panel
    visible (its root element carries the class panel-wrap-visible),
    [hide()] leaves it not visible, and [toggleVisibility()] flips it; a
    panel whose root element was never built counts as not visible, and
    each of the three builds it. The getters of the two latency tests
    are taken to only add elements to the document. *)
Theorem show_hide_and_toggle this :
  collaborators_only_add -> view_reachable this ->
  is_visible (after show this) = true /\
  is_visible (after hide this) = false /\
  is_visible (after toggleVisibility this) = negb (is_visible this).
Proof.
  intros Hadd Hreach.
  destruct (view_reachable_good this Hadd Hreach) as [Hv _].
  destruct (root_ready this Hadd Hv) as (Hroot & el & Hel & Hvis).
  split; [|split].
  - rewrite show_after by done. cbv zeta.
    rewrite (v_contains_root _ _ el) by exact Hel.
    destruct (classList_contains "panel-wrap-visible" el) eqn:Hc; simpl.
    + by rewrite (is_visible_root _ _ el Hroot Hel).
    + rewrite (is_visible_update _ _ el _ Hroot Hel). apply contains_add.
  - rewrite hide_after by done. cbv zeta.
    rewrite (v_contains_root _ _ el) by exact Hel.
    destruct (classList_contains "panel-wrap-visible" el) eqn:Hc; simpl.
    + rewrite (is_visible_update _ _ el _ Hroot Hel). apply contains_remove.
    + by rewrite (is_visible_root _ _ el Hroot Hel).
  - rewrite toggleVisibility_after.
    rewrite (is_visible_update _ _ el _ Hroot Hel), contains_toggle.
    by rewrite Hvis.
Qed.

(** X14: the operations on the view (the five getters, [show()],
    [hide()], [toggleVisibility()]) never touch the registry: in every
    state the panel reaches they leave the map of the stats, the
    configuration and the text shown for every id as they are. The
    getters of the two latency tests are taken to only add elements to
    the document. *)
Theorem view_operations_keep_the_registry o this :
  collaborators_only_add -> view_reachable this ->
  statsMap (panel (view_exec o this)) = statsMap (panel this) /\
  _config (panel (view_exec o this)) = _config (panel this) /\
  forall i, displayed (panel (view_exec o this)) i = displayed (panel this) i.
Proof.
  intros Hadd Hreach.
  destruct (view_reachable_good this Hadd Hreach) as [Hv Hwf].
  assert (Hroot : grows this (after get_rootElement this))
    by (apply grows_get_rootElement; [done | apply grows_refl]).
  assert (Hkeep : forall this', grows this this' ->
            statsMap (panel this') = statsMap (panel this) /\
            _config (panel this') = _config (panel this) /\
            forall i, displayed (panel this') i = displayed (panel this) i).
  { intros this' Hg. split; [apply (grows_statsMap _ _ Hg) |].
    split; [apply (grows_config _ _ Hg) |].
    intros i. by apply grows_displayed. }
  assert (Hupdate : forall f,
            (forall el, innerHTML (f el) = innerHTML el) ->
            let this' :=
              with_panel
                (update_element (get_rootElement this).1 f
                   (panel (after get_rootElement this)))
                (after get_rootElement this) in
            statsMap (panel this') = statsMap (panel this) /\
            _config (panel this') = _config (panel this) /\
            forall i, displayed (panel this') i = displayed (panel this) i).
  { intros f Hf. destruct (Hkeep _ Hroot) as (Hm & Hc & Hd). simpl.
    rewrite update_element_statsMap, update_element_config.
    split; [done |]. split; [done |]. intros i.
    rewrite <- Hd. by apply update_displayed. }
  destruct o; simpl.
  - rewrite show_after by done. cbv zeta.
    destruct (negb _); [by apply Hupdate | by apply Hkeep].
  - rewrite hide_after by done. cbv zeta.
    match goal with |- context [if ?b then _ else _] => destruct b end;
      [by apply Hupdate | by apply Hkeep].
  - rewrite toggleVisibility_after. apply Hupdate.
    intros el. unfold classList_toggle. by destruct (classList_contains _ _).
  - by apply Hkeep.
  - apply Hkeep. apply grows_get_statsContentElement; [done |].
    apply grows_refl.
  - apply Hkeep. apply grows_get_statisticsContainer, grows_refl.
  - apply Hkeep. apply grows_statsResult, grows_refl.
  - apply Hkeep. apply grows_get_statsCloseButton, grows_refl.
Qed.

(** X15: the operations on the registry ([handlePlayerCount],
    [handleStats], [handleLatencyInfo], [addOrUpdateStat]) never show or
    hide the panel: in every state the panel reaches, it is visible
    after the operation exactly when it was before. The getters of the
    two latency tests are taken to only add elements to the document. *)
Theorem registry_operations_keep_visibility o this :
  collaborators_only_add -> view_reachable this ->
  is_visible (on_panel o this) = is_visible this.
Proof.
  intros Hadd Hreach.
  destruct (view_reachable_good this Hadd Hreach) as [Hv _].
  rewrite !is_visible_classes. simpl.
  destruct (_rootElement this) as [root|] eqn:Hroot; [|reflexivity].
  rewrite exec_classes; [reflexivity |]. apply Hv. auto.
Qed.

(** X16: [show()] and [hide()] are idempotent on the whole state: in
    every state the panel reaches, a second [show()] (or a second
    [hide()]) leaves the panel, its caches and its document exactly as
    the first one left them. The getters of the two latency tests are
    taken to only add elements to the document. *)
Theorem show_and_hide_are_idempotent this :
  collaborators_only_add -> view_reachable this ->
  after show (after show this) = after show this /\
  after hide (after hide this) = after hide this.
Proof.
  intros Hadd Hreach.
  assert (Hcached : forall s root,
            _rootElement s = Some root -> get_rootElement s = (root, s))
    by (intros s root Hs; unfold get_rootElement; by rewrite Hs).
  assert (Hshown : forall s,
            view_reachable s -> is_visible s = true -> after show s = s).
  { intros s Hs Hvis. rewrite show_after by done. cbv zeta.
    unfold is_visible in Hvis.
    destruct (_rootElement s) as [root|] eqn:Hroot; [|done].
    unfold after. rewrite (Hcached s root Hroot). simpl.
    by rewrite Hvis. }
  assert (Hhidden : forall s,
            view_reachable s -> _rootElement s <> None ->
            is_visible s = false -> after hide s = s).
  { intros s Hs Hsome Hvis. rewrite hide_after by done. cbv zeta.
    unfold is_visible in Hvis.
    destruct (_rootElement s) as [root|] eqn:Hroot; [|done].
    unfold after. rewrite (Hcached s root Hroot). simpl.
    by rewrite Hvis. }
  destruct (view_reachable_good this Hadd Hreach) as [Hv _].
  destruct (root_ready this Hadd Hv) as (Hroot & el & Hel & Hvis).
  split.
  - apply Hshown; [apply (vreach_view Show), Hreach |].
    rewrite show_after by done. cbv zeta.
    rewrite (v_contains_root _ _ el) by exact Hel.
    destruct (classList_contains "panel-wrap-visible" el) eqn:Hc; simpl.
    + by rewrite (is_visible_root _ _ el Hroot Hel).
    + rewrite (is_visible_update _ _ el _ Hroot Hel). apply contains_add.
  - apply Hhidden; [apply (vreach_view Hide), Hreach | |].
    + rewrite hide_after by done. cbv zeta.
      destruct (v_contains _ _ _).1; simpl; by rewrite Hroot.
    + rewrite hide_after by done. cbv zeta.
      rewrite (v_contains_root _ _ el) by exact Hel.
      destruct (classList_contains "panel-wrap-visible" el) eqn:Hc; simpl.
      * rewrite (is_visible_update _ _ el _ Hroot Hel).
        apply contains_remove.
      * by rewrite (is_visible_root _ _ el Hroot Hel).
Qed.

End ViewTheorems.

(** * The properties on concrete inputs *)

Section MoreExamples.
#[local] Existing Instance plain_browser.
#[local] Existing Instance list_imports.
#[local] Existing Instance one_element_collaborators.

Lemma one_element_collaborators_only_add : collaborators_only_add.
Proof. split; intros doc; by exists [new_div]. Qed.

Lemma one_stat_view_reachable : view_reachable one_stat_view.
Proof. apply vreach_panel, vreach_new. Qed.

Lemma results_container_lists_the_registry_witness :
  exists container,
    document abc_panel !! 1%nat = Some container /\
    childNodes container = [0; 2; 3]%nat.
Proof.
  exact (results_container_lists_the_registry abc_panel abc_panel_reachable).
Defined.

Lemma registry_invariant_witness :
  NoDup (ids abc_panel) /\
  (forall i s, Map_get (statsMap abc_panel) i = Some s ->
     id s = i /\ is_Some (document abc_panel !! element s)) /\
  (forall i j s s',
     i <> j -> Map_get (statsMap abc_panel) i = Some s ->
     Map_get (statsMap abc_panel) j = Some s' -> element s <> element s').
Proof. exact (registry_invariant abc_panel abc_panel_reachable). Defined.

Lemma stored_stat_is_the_first_upsert_witness :
  Map_get
    (statsMap
       (exec_all [Upsert "a" "Changed" (Some "2"); PlayerCount (lit 3)]
          (addOrUpdateStat "a" "A" (Some "1") enabled_panel))) "a"
  = Some {| id := "a"; title := "A"; stat := Some "1"; element := 0%nat |}.
Proof.
  exact (stored_stat_is_the_first_upsert enabled_panel "a" "A" (Some "1")
           [Upsert "a" "Changed" (Some "2"); PlayerCount (lit 3)]
           eq_refl eq_refl).
Defined.

Lemma run_shows_the_last_upsert_witness :
  displayed
    (run [("a", "A", Some "9"); ("b", "B", Some "8"); ("a", "A", Some "7")]
       abc_panel) "a"
  = Some "A: 7".
Proof.
  exact (proj1 (run_shows_the_last_upsert abc_panel
                  [("a", "A", Some "9"); ("b", "B", Some "8");
                   ("a", "A", Some "7")] "a" abc_panel_reachable eq_refl)).
Defined.

Lemma operations_are_idempotent_witness :
  exec (Stats hd_stats) (exec (Stats hd_stats) abc_panel)
  = exec (Stats hd_stats) abc_panel.
Proof.
  exact (operations_are_idempotent abc_panel (Stats hd_stats)
           abc_panel_reachable).
Defined.

Lemma operations_keep_to_their_footprint_witness :
  displayed (exec (Stats hd_stats) abc_panel) "a" = displayed abc_panel "a" /\
  Map_has (statsMap (exec (Stats hd_stats) abc_panel)) "a"
    = Map_has (statsMap abc_panel) "a".
Proof.
  apply (operations_keep_to_their_footprint abc_panel (Stats hd_stats) "a"
           abc_panel_reachable).
  apply (bool_decide_unpack _). vm_compute. exact I.
Defined.

Lemma handleStats_guarded_stats_witness :
  untouched enabled_panel (handleStats hd_stats enabled_panel)
    "VideoBitrateStat" /\
  displayed (handleStats hd_stats enabled_panel) "FramerateStat"
    = Some "Framerate: 60".
Proof.
  pose proof (handleStats_guarded_stats enabled_panel hd_stats
                (reach_new (imports := list_imports) [SessionStats] [])
                eq_refl) as (Hvideo & _ & Hframerate & _).
  split; [exact Hvideo | exact Hframerate].
Defined.

Lemma handleStats_resolution_and_frames_decoded_witness :
  displayed (handleStats hd_stats enabled_panel) "VideoResStat"
  = Some "Video resolution: 1280x720".
Proof.
  apply (proj2 (proj2 (handleStats_resolution_and_frames_decoded
                         enabled_panel hd_stats
                         (reach_new (imports := list_imports)
                            [SessionStats] []) eq_refl))
           (lit 1280) (lit 720) 1280 720); reflexivity || discriminate.
Defined.

Lemma handleStats_pass_through_witness :
  displayed (handleStats hd_stats enabled_panel) "FramesDroppedStat"
  = Some "Frames dropped: undefined".
Proof.
  exact (proj1 (proj2 (handleStats_pass_through enabled_panel hd_stats
                         (reach_new (imports := list_imports)
                            [SessionStats] []) eq_refl))).
Defined.

Lemma handleStats_fills_in_source_order_witness :
  sublist (ids (handleStats hd_stats enabled_panel)) handleStats_ids.
Proof.
  exact (proj1 (handleStats_fills_in_source_order (imports := list_imports)
                  [SessionStats] [] hd_stats eq_refl)).
Defined.

Lemma latency_is_rounded_up_witness :
  displayed (handleLatencyInfo latency_1_5 enabled_panel) "SenderSideLatency"
  = Some "Sender latency (ms): 2".
Proof.
  apply (proj1 (latency_is_rounded_up enabled_panel latency_1_5
                  SenderLatencyMs "SenderSideLatency" "Sender latency (ms)"
                  6755399441055744 (-52) 2
                  (reach_new (imports := list_imports) [SessionStats] [])
                  eq_refl (list_elem_of_here _ _) eq_refl eq_refl eq_refl)).
Defined.

Lemma handlers_show_at_most_their_stats_witness :
  (length
     (statsMap
        (exec_all [Stats hd_stats; Latency latency_1_5; PlayerCount (lit 3);
                   Stats rtt_stats] enabled_panel)) <= 21)%nat.
Proof.
  exact (proj2 (handlers_show_at_most_their_stats (imports := list_imports)
                  [SessionStats] []
                  [Stats hd_stats; Latency latency_1_5; PlayerCount (lit 3);
                   Stats rtt_stats] eq_refl)).
Defined.

Lemma getters_create_once_witness :
  get_rootElement (after get_rootElement new_panel_view)
  = (0%nat, after get_rootElement new_panel_view).
Proof.
  exact (proj1 (getters_create_once new_panel_view
                  one_element_collaborators_only_add)).
Defined.

Lemma show_hide_and_toggle_witness :
  is_visible (after show one_stat_view) = true /\
  is_visible (after hide one_stat_view) = false /\
  is_visible (after toggleVisibility one_stat_view) = true.
Proof.
  exact (show_hide_and_toggle one_stat_view
           one_element_collaborators_only_add one_stat_view_reachable).
Defined.

Lemma view_operations_keep_the_registry_witness :
  ids (panel (view_exec Show one_stat_view)) = ["a"] /\
  displayed (panel (view_exec Show one_stat_view)) "a" = Some "A: 1".
Proof.
  pose proof (view_operations_keep_the_registry Show one_stat_view
                one_element_collaborators_only_add one_stat_view_reachable)
    as (Hmap & _ & Hshown).
  split; [exact (f_equal Map_keys Hmap) | exact (Hshown "a")].
Defined.

Lemma registry_operations_keep_visibility_witness :
  is_visible (on_panel (Stats hd_stats) (view_exec Show one_stat_view))
  = true.
Proof.
  transitivity (is_visible (view_exec Show one_stat_view)).
  - exact (registry_operations_keep_visibility (Stats hd_stats)
             (view_exec Show one_stat_view)
             one_element_collaborators_only_add
             (vreach_view Show one_stat_view one_stat_view_reachable)).
  - vm_compute. reflexivity.
Defined.

Lemma show_and_hide_are_idempotent_witness :
  after show (after show one_stat_view) = after show one_stat_view /\
  after hide (after hide one_stat_view) = after hide one_stat_view.
Proof.
  exact (show_and_hide_are_idempotent one_stat_view
           one_element_collaborators_only_add one_stat_view_reachable).
Defined.

End MoreExamples.
